(** * GpuScan (pg-strom, src/gpuscan.c): a shallow embedding and its properties

    The development follows gpuscan.c function by function.  Pure planner
    code (form/deform of the private plan fields, distribution of clauses,
    kernel source generation) becomes Rocq functions on lists and strings.
    Code that talks to the CUDA driver becomes a state-and-exception monad
    over an explicit world (the task object, the command stream, the driver
    log).  Code of other files of pg-strom or of PostgreSQL is taken as an
    interface (a type class) wherever gpuscan.c only calls it. *)

From Stdlib Require Import ZArith NArith List String Ascii Bool Lia.
From Stdlib Require Import Sorted Permutation DecimalString.
From Stdlib Require Import Floats Uint63.
Import ListNotations.

Set Warnings "-register-all".
Local Open Scope Z_scope.

(** What a C function of a PostgreSQL backend ends with: a value, or a
    non-local exit through elog(ERROR, ...). *)
Inductive result (A : Type) : Type :=
| Ok (a : A)
| Raised (msg : string).
Arguments Ok {A} a.
Arguments Raised {A} msg.

(* ===================================================================== *)
(** ** Machine integers *)
(* ===================================================================== *)

(** A C [int32] (cl_int) kept in a [Z]: the value after conversion from a
    wider integer type wraps around. *)
Definition to_int32 (z : Z) : Z := (z + 2 ^ 31) mod 2 ^ 32 - 2 ^ 31.

(** A C [uint32] (cl_uint) kept in a [Z]. *)
Definition to_uint32 (z : Z) : Z := z mod 2 ^ 32.

Definition is_int32 (z : Z) : Prop := - 2 ^ 31 <= z < 2 ^ 31.

(** [TYPEALIGN(ALIGNVAL,LEN)] of PostgreSQL's c.h (and of the device
    runtime's common header): round LEN up to a multiple of ALIGNVAL,
    a power of two, by masking the low bits. *)
Definition TYPEALIGN (alignval len : Z) : Z :=
  Z.land (len + (alignval - 1)) (Z.lnot (alignval - 1)).

(** [MAXALIGN(LEN)]: alignment to 8 bytes. *)
Definition MAXIMUM_ALIGNOF : Z := 8.
Definition MAXALIGN (len : Z) : Z := TYPEALIGN MAXIMUM_ALIGNOF len.

(** C's [Max]. *)
Definition Max (a b : Z) : Z := if a >? b then a else b.

(* ===================================================================== *)
(** ** Strings *)
(* ===================================================================== *)

Definition nl : string := String (ascii_of_nat 10) EmptyString.

Infix "+++" := String.append (right associativity, at level 60).

(** printf's [%d] and [%u] on the values gpuscan.c prints (attribute
    numbers, lengths and alignments); [%u] prints an int as unsigned. *)
Definition fmt_d (z : Z) : string := NilZero.string_of_int (Z.to_int z).
Definition fmt_u (z : Z) : string :=
  NilZero.string_of_uint (N.to_uint (Z.to_N (to_uint32 z))).

(* ===================================================================== *)
(** ** PostgreSQL nodes and lists *)
(* ===================================================================== *)

(** The node kinds gpuscan.c looks into.  [T_String] carries a possibly
    NULL character pointer, as makeString accepts one.  A [List] pointer
    stored in a list cell is [T_List]; NIL is the empty list.  Expression
    nodes other than Var are opaque here: gpuscan.c hands them to the code
    generator and never inspects them. *)
Inductive Node : Type :=
| T_String (str : option string)
| T_Integer (ival : Z)
| T_List (elems : list Node)
| T_Var (varno varattno : Z)
| T_Expr (ident : Z).

Definition makeString (str : option string) : Node := T_String str.
Definition makeInteger (i : Z) : Node := T_Integer i.

(** [pstrdup] copies the characters; the copy has the same contents. *)
Definition pstrdup (s : string) : string := s.

Definition lappend {A : Type} (l : list A) (datum : A) : list A := l ++ [datum].

(** [list_nth]: the n-th cell's datum; out of range is an assertion
    failure in PostgreSQL, [None] here. *)
Definition list_nth {A : Type} (l : list A) (n : nat) : option A := nth_error l n.

(** [strVal], [intVal] and the cast of a cell's pointer to a [List]: they
    read the node's payload without a tag check, so they are only defined
    on a node of the right kind. *)
Definition strVal (n : Node) : option (option string) :=
  match n with T_String s => Some s | _ => None end.

Definition intVal (n : Node) : option Z :=
  match n with T_Integer i => Some i | _ => None end.

Definition listVal (n : Node) : option (list Node) :=
  match n with T_List l => Some l | _ => None end.

Definition IsA_Var (n : Node) : bool :=
  match n with T_Var _ _ => true | _ => false end.

Definition obind {A B : Type} (c : option A) (k : A -> option B) : option B :=
  match c with Some a => k a | None => None end.

Notation "x <-? c ;; k" := (obind c (fun x => k))
  (at level 61, c at next level, right associativity).

(* ===================================================================== *)
(** ** form/deform of the private fields of CustomScan(GpuScan) *)
(* ===================================================================== *)

Record GpuScanInfo : Type := mkGpuScanInfo {
  gs_kern_source : option string;   (* source of the kernel, may be NULL *)
  gs_extra_flags : Z;               (* int32 *)
  gs_func_defs : list Node;
  gs_used_params : list Node;
  gs_used_vars : list Node;
  gs_dev_quals : list Node;
  gs_base_fixed_width : Z;          (* cl_int *)
  gs_proj_fixed_width : Z;          (* cl_int *)
  gs_proj_extra_width : Z           (* cl_int *)
}.

(** memset(&gs_info, 0, sizeof(GpuScanInfo)) *)
Definition GpuScanInfo_zero : GpuScanInfo :=
  mkGpuScanInfo None 0 [] [] [] [] 0 0 0.

(** The fields of a GpuScanInfo are typed int32/cl_int in C. *)
Definition GpuScanInfo_wf (gs : GpuScanInfo) : Prop :=
  is_int32 (gs_extra_flags gs) /\
  is_int32 (gs_base_fixed_width gs) /\
  is_int32 (gs_proj_fixed_width gs) /\
  is_int32 (gs_proj_extra_width gs).

Inductive CustomScanMethods : Type :=
| no_plan_methods
| gpuscan_plan_methods
| bulkscan_plan_methods.

(** The resno and expression of a TargetEntry. *)
Record TargetEntry : Type := mkTargetEntry {
  tle_expr : Node;
  tle_resno : Z
}.

(** The fields of a CustomScan plan node that gpuscan.c sets or reads. *)
Record CustomScan : Type := mkCustomScan {
  cs_targetlist : list Node;            (* scan.plan.targetlist *)
  cs_qual : list Node;                  (* scan.plan.qual *)
  cs_scanrelid : Z;                     (* scan.scanrelid *)
  cs_flags : Z;
  cs_custom_private : list Node;
  cs_custom_exprs : list Node;
  cs_custom_scan_tlist : list TargetEntry;
  cs_methods : CustomScanMethods
}.

(** makeNode(CustomScan): a zeroed node. *)
Definition makeNode_CustomScan : CustomScan :=
  mkCustomScan [] [] 0 0 [] [] [] no_plan_methods.

Definition form_gpuscan_info (cscan : CustomScan) (gs_info : GpuScanInfo)
  : CustomScan :=
  let privs := [] in
  let exprs := [] in
  let privs := lappend privs (makeString (match gs_kern_source gs_info with
                                          | Some s => Some (pstrdup s)
                                          | None => None
                                          end)) in
  let privs := lappend privs (makeInteger (gs_extra_flags gs_info)) in
  let privs := lappend privs (T_List (gs_func_defs gs_info)) in
  let exprs := lappend exprs (T_List (gs_used_params gs_info)) in
  let exprs := lappend exprs (T_List (gs_used_vars gs_info)) in
  let exprs := lappend exprs (T_List (gs_dev_quals gs_info)) in
  let privs := lappend privs (makeInteger (gs_base_fixed_width gs_info)) in
  let privs := lappend privs (makeInteger (gs_proj_fixed_width gs_info)) in
  let privs := lappend privs (makeInteger (gs_proj_extra_width gs_info)) in
  mkCustomScan (cs_targetlist cscan) (cs_qual cscan) (cs_scanrelid cscan)
               (cs_flags cscan) privs exprs
               (cs_custom_scan_tlist cscan) (cs_methods cscan).

(** [pindex++] and [eindex++] are written out as the successive indices.
    The long that intVal returns is stored into an int32 field. *)
Definition deform_gpuscan_info (cscan : CustomScan) : option GpuScanInfo :=
  let privs := cs_custom_private cscan in
  let exprs := cs_custom_exprs cscan in
  kern_source <-? obind (list_nth privs 0) strVal ;;
  extra_flags <-? obind (list_nth privs 1) intVal ;;
  func_defs <-? obind (list_nth privs 2) listVal ;;
  used_params <-? obind (list_nth exprs 0) listVal ;;
  used_vars <-? obind (list_nth exprs 1) listVal ;;
  dev_quals <-? obind (list_nth exprs 2) listVal ;;
  base_fixed_width <-? obind (list_nth privs 3) intVal ;;
  proj_fixed_width <-? obind (list_nth privs 4) intVal ;;
  proj_extra_width <-? obind (list_nth privs 5) intVal ;;
  Some (mkGpuScanInfo kern_source (to_int32 extra_flags) func_defs
                      used_params used_vars dev_quals
                      (to_int32 base_fixed_width)
                      (to_int32 proj_fixed_width)
                      (to_int32 proj_extra_width)).

(* ===================================================================== *)
(** ** The code generator's interface (codegen.c) and PostgreSQL's *)
(* ===================================================================== *)

(** codegen_context: what the code generator accumulates. *)
Record codegen_context : Type := mkCodegenContext {
  ctx_extra_flags : Z;
  ctx_func_defs : list Node;
  ctx_used_params : list Node;
  ctx_used_vars : list Node
}.

(** pgstrom_init_codegen_context *)
Definition pgstrom_init_codegen_context : codegen_context :=
  mkCodegenContext 0 [] [] [].

(** devtype_info: the device type a PostgreSQL type maps to. *)
Record devtype_info : Type := mkDevtype {
  type_name : string;
  type_byval : bool;
  type_align : Z;
  type_length : Z
}.

(** Functions and constants of codegen.c, pg_strom.h and PostgreSQL that
    gpuscan.c calls; none of them is under src/, so they are parameters of
    the development. *)
Class Codegen : Type := {
  pgstrom_codegen_available_expression : Node -> bool;
  pgstrom_codegen_expression : Node -> codegen_context -> string * codegen_context;
  pgstrom_codegen_param_declarations : codegen_context -> string;
  pgstrom_codegen_var_declarations : codegen_context -> string;
  pgstrom_devtype_lookup : Z -> option devtype_info;
  exprType : Node -> Z;
  DEVKERNEL_NEEDS_GPUSCAN : Z
}.

(** pg_type.h *)
Definition NUMERICOID : Z := 1700.

(** RestrictInfo: the clause and the flag extract_actual_clauses tests. *)
Record RestrictInfo : Type := mkRestrictInfo {
  ri_clause : Node;
  ri_pseudoconstant : bool
}.

(** PostgreSQL's extract_actual_clauses(restrictinfo_list, pseudoconstant):
    the bare clauses of the RestrictInfos whose pseudoconstant flag equals
    the argument, in order. *)
Definition extract_actual_clauses (restrictinfo_list : list RestrictInfo)
                                  (pseudoconstant : bool) : list Node :=
  map ri_clause
      (filter (fun rinfo => Bool.eqb (ri_pseudoconstant rinfo) pseudoconstant)
              restrictinfo_list).

Section Planner.
Context {CG : Codegen}.

(* ===================================================================== *)
(** ** gpuscan_codegen_exec_quals *)
(* ===================================================================== *)

Definition gpuscan_quals_eval_head : string :=
  "STATIC_FUNCTION(cl_bool)" +++ nl +++
  "gpuscan_quals_eval(kern_context *kcxt," +++ nl +++
  "                   kern_data_store *kds," +++ nl +++
  "                   size_t kds_index)" +++ nl +++
  "{" +++ nl.

Definition gpuscan_codegen_exec_quals (dev_quals : list Node)
                                      (context : codegen_context)
  : string * codegen_context :=
  let body := gpuscan_quals_eval_head in
  match dev_quals with
  | _ :: _ =>
      let '(expr_code, context) :=
        pgstrom_codegen_expression (T_List dev_quals) context in
      let body := body +++ pgstrom_codegen_param_declarations context in
      let body := body +++ pgstrom_codegen_var_declarations context in
      let body := body +++ nl +++ "  return EVAL(" +++ expr_code +++ ");" +++ nl in
      (body +++ "}" +++ nl, context)
  | [] =>
      let body := body +++ "  return true;" +++ nl in
      (body +++ "}" +++ nl, context)
  end.

(* ===================================================================== *)
(** ** create_gpuscan_plan *)
(* ===================================================================== *)

(** The foreach loop that distributes the clauses: one pass, each
    RestrictInfo appended to one of the two lists. *)
Fixpoint distribute_clauses (clauses host_quals dev_quals : list RestrictInfo)
  : list RestrictInfo * list RestrictInfo :=
  match clauses with
  | [] => (host_quals, dev_quals)
  | rinfo :: rest =>
      if negb (pgstrom_codegen_available_expression (ri_clause rinfo))
      then distribute_clauses rest (lappend host_quals rinfo) dev_quals
      else distribute_clauses rest host_quals (lappend dev_quals rinfo)
  end.

Definition create_gpuscan_plan (rel_relid : Z) (best_path_flags : Z)
                               (tlist : list Node)
                               (clauses : list RestrictInfo)
  : CustomScan :=
  let '(host_quals, dev_quals) := distribute_clauses clauses [] [] in
  (* Reduce RestrictInfo list to bare expressions; ignore pseudoconstants *)
  let host_quals := extract_actual_clauses host_quals false in
  let dev_quals := extract_actual_clauses dev_quals false in
  let context := pgstrom_init_codegen_context in
  let '(kern_source, context) := gpuscan_codegen_exec_quals dev_quals context in
  let cscan := makeNode_CustomScan in
  let cscan := mkCustomScan tlist host_quals rel_relid (cs_flags cscan)
                            (cs_custom_private cscan) (cs_custom_exprs cscan)
                            (cs_custom_scan_tlist cscan) (cs_methods cscan) in
  let gs_info := GpuScanInfo_zero in
  let gs_info :=
    mkGpuScanInfo (Some kern_source)
                  (Z.lor (ctx_extra_flags context) DEVKERNEL_NEEDS_GPUSCAN)
                  (ctx_func_defs context)
                  (ctx_used_params context)
                  (ctx_used_vars context)
                  dev_quals
                  (gs_base_fixed_width gs_info)
                  (gs_proj_fixed_width gs_info)
                  (gs_proj_extra_width gs_info) in
  let cscan := form_gpuscan_info cscan gs_info in
  mkCustomScan (cs_targetlist cscan) (cs_qual cscan) (cs_scanrelid cscan)
               best_path_flags
               (cs_custom_private cscan) (cs_custom_exprs cscan)
               (cs_custom_scan_tlist cscan) gpuscan_plan_methods.

(* ===================================================================== *)
(** ** gpuscan_codegen_projection, steps 4 and 5 (slot format)

    The builder appends C statements, one printf template per case, to a
    text buffer.  Here each template is a constructor; [render_sizing] and
    [render_write] give the text the template prints, [exec_sizing] and
    [exec_write] give what the statements of one template do on the
    device, and [write_pass] runs the printed statements with the blocks
    the text gives them. *)
(* ===================================================================== *)

(** Step 4, one statement per computed target entry that needs room in the
    variable length buffer. *)
Inductive sizing_stmt : Type :=
| SzNumeric (resno : Z)
| SzIndirect (resno align len : Z).

(** Step 5, the statements that store a computed target entry on the slot. *)
Inductive write_stmt : Type :=
| WrIsnull (resno : Z)
| WrNumeric (resno : Z)
| WrByval (resno : Z) (tname : string)
| WrIndirect (resno align len : Z).

Definition missing_devtype : string := "Bug? device supported type is missing".

(** The foreach loop of step 4 over scan_tlist. *)
Fixpoint codegen_sizing (scan_tlist : list TargetEntry) : result (list sizing_stmt) :=
  match scan_tlist with
  | [] => Ok []
  | tle :: rest =>
      if IsA_Var (tle_expr tle) then codegen_sizing rest
      else
        let type_oid := exprType (tle_expr tle) in
        match pgstrom_devtype_lookup type_oid with
        | None => Raised missing_devtype
        | Some dtype =>
            let emitted :=
              if type_oid =? NUMERICOID then [SzNumeric (tle_resno tle)]
              else if negb (type_byval dtype)
                   then [SzIndirect (tle_resno tle) (type_align dtype) (type_length dtype)]
                   else [] in
            match codegen_sizing rest with
            | Ok more => Ok (emitted ++ more)
            | Raised msg => Raised msg
            end
        end
  end.

(** The foreach loop of step 5 over scan_tlist. *)
Fixpoint codegen_write (scan_tlist : list TargetEntry) : result (list write_stmt) :=
  match scan_tlist with
  | [] => Ok []
  | tle :: rest =>
      if IsA_Var (tle_expr tle) then codegen_write rest
      else
        let type_oid := exprType (tle_expr tle) in
        match pgstrom_devtype_lookup type_oid with
        | None => Raised missing_devtype
        | Some dtype =>
            let emitted :=
              WrIsnull (tle_resno tle) ::
              (if type_oid =? NUMERICOID then [WrNumeric (tle_resno tle)]
               else if type_byval dtype
                    then [WrByval (tle_resno tle) (type_name dtype)]
                    else [WrIndirect (tle_resno tle) (type_align dtype) (type_length dtype)]) in
            match codegen_write rest with
            | Ok more => Ok (emitted ++ more)
            | Raised msg => Raised msg
            end
        end
  end.

Definition render_sizing (s : sizing_stmt) : string :=
  match s with
  | SzNumeric resno =>
      "    if (!temp_" +++ fmt_u resno +++ "_v.isnull)" +++ nl +++
      "      vl_len = TYPEALIGN(sizeof(cl_uint), vl_len)" +++ nl +++
      "             + pg_numeric_to_varlena(kcxt,NULL," +++ nl +++
      "                                     temp_" +++ fmt_u resno +++ "_v.value," +++ nl +++
      "                                     temp_" +++ fmt_u resno +++ "_v.isnull);" +++ nl
  | SzIndirect resno align len =>
      "    if (!temp_" +++ fmt_u resno +++ "_v.isnull)" +++ nl +++
      "      vl_len = TYPEALIGN(" +++ fmt_u align +++ ", vl_len) + "
        +++ fmt_u len +++ ";" +++ nl
  end.

Definition render_write (s : write_stmt) : string :=
  match s with
  | WrIsnull resno =>
      "    tup_isnull[" +++ fmt_d (resno - 1) +++ "] = temp_"
        +++ fmt_u resno +++ "_v.isnull;" +++ nl
  | WrNumeric resno =>
      "    if (!temp_" +++ fmt_u resno +++ "_v.isnull)" +++ nl +++
      "    {" +++ nl +++
      "      vl_buf = (char *)TYPEALIGN(sizeof(cl_int), vl_buf);" +++ nl +++
      "      tup_values[" +++ fmt_d (resno - 1)
        +++ "] = devptr_to_host(kds_dst, vl_buf);" +++ nl +++
      "      vl_buf += pg_numeric_to_varlena(kcxt, vl_buf," +++ nl +++
      "                                      temp_" +++ fmt_u resno +++ "_v.value," +++ nl +++
      "                                      temp_" +++ fmt_u resno +++ "_v.isnull);" +++ nl
  | WrByval resno tname =>
      "    if (!temp_" +++ fmt_u resno +++ "_v.isnull)" +++ nl +++
      "      tup_values[" +++ fmt_d (resno - 1) +++ "] = pg_" +++ tname
        +++ "_to_datum(temp_" +++ fmt_u resno +++ "_v.value);" +++ nl
  | WrIndirect resno align len =>
      "    if (!temp_" +++ fmt_u resno +++ "_v.isnull)" +++ nl +++
      "    {" +++ nl +++
      "      vl_buf = (char *)TYPEALIGN(" +++ fmt_u align +++ ", vl_buf);" +++ nl +++
      "      tup_values[" +++ fmt_d (resno - 1)
        +++ "] = devptr_to_host(kds_dst, vl_buf);" +++ nl +++
      "      memcpy(vl_buf, &temp_" +++ fmt_u resno +++ "_v.value, "
        +++ fmt_d len +++ ");" +++ nl +++
      "      vl_buf += " +++ fmt_d len +++ ";" +++ nl +++
      "    }" +++ nl
  end.

Definition concat_text (l : list string) : string :=
  fold_right String.append EmptyString l.

Definition sizing_pass_head : string :=
  "    cl_uint vl_len = 0;" +++ nl +++
  "    char   *vl_buf = NULL;" +++ nl +++
  nl +++
  "    if (htup)" +++ nl +++
  "    {" +++ nl.

Definition sizing_pass_tail : string :=
  "    }" +++ nl +++
  "    /* allocation of variable length buffer */" +++ nl +++ " " +++
  "    vl_len = MAXALIGN(vl_len);" +++ nl +++
  "    offset = arithmetic_stairlike_add(vl_len, &count);" +++ nl +++
  "    if (get_local_id() == 0)" +++ nl +++
  "    {" +++ nl +++
  "      if (count > 0)" +++ nl +++
  "        base = atomicAdd(&kds_dst->usage, count);" +++ nl +++
  "      else" +++ nl +++
  "        base = 0;" +++ nl +++
  "    }" +++ nl +++
  "    __syncthreads();" +++ nl +++
  nl +++
  "    if (KERN_DATA_STORE_SLOT_LENGTH(kds_dst, dst_limit) +" +++ nl +++
  "        base + count > kds_dst->length)" +++ nl +++
  "    {" +++ nl +++
  "      STROM_SET_ERROR(&kcxt->e, StromError_DataStoreNoSpace);" +++ nl +++
  "      return;" +++ nl +++
  "    }" +++ nl +++
  "    vl_buf = (char *)kds_dst + kds_dst->length" +++ nl +++
  "           - (base + offset + vl_len);" +++ nl.

(** The local [needs_vlbuf] of gpuscan_codegen_projection: initialised to
    false and assigned nowhere else in the function. *)
Definition needs_vlbuf : bool := false.

(** Steps 4 and 5 as the function appends them to [body]: the opening of
    the slot branch, the sizing pass (built in [temp], appended only when
    [needs_vlbuf]), then the write pass. *)
Definition codegen_projection_slot (scan_tlist : list TargetEntry) : result string :=
  let body := "  if (format == KDS_FORMAT_SLOT)" +++ nl +++ "  {" +++ nl in
  match codegen_sizing scan_tlist with
  | Raised msg => Raised msg
  | Ok sizing =>
      let temp := sizing_pass_head +++ concat_text (map render_sizing sizing)
                  +++ sizing_pass_tail in
      let body := if needs_vlbuf then body +++ temp else body in
      let body := body +++ "    if (htup)" +++ nl +++ "    {" +++ nl in
      match codegen_write scan_tlist with
      | Raised msg => Raised msg
      | Ok writes =>
          let body := body +++ concat_text (map render_write writes) in
          Ok (body +++ "    }" +++ nl +++ "  }" +++ nl)
      end
  end.

End Planner.

(** *** What the generated statements compute *)

(** The device variable [temp_N_v] of a computed target entry. *)
Record temp_var : Type := mkTempVar {
  tv_isnull : bool;
  tv_value : Z
}.

(** The device function of cuda_numeric.h, not under src/: the length of
    the varlena image of a numeric value.  Both passes call it with the
    same value; the sizing pass passes a NULL buffer. *)
Class DeviceRuntime : Type := {
  pg_numeric_to_varlena : Z -> bool -> Z
}.

Definition sizeof_cl_uint : Z := 4.
Definition sizeof_cl_int : Z := 4.

Section GeneratedCode.
Context {DR : DeviceRuntime}.
Variable temp_v : Z -> temp_var.

(** [vl_len] is a cl_uint: the assignment truncates to 32 bits. *)
Definition exec_sizing (vl_len : Z) (s : sizing_stmt) : Z :=
  match s with
  | SzNumeric resno =>
      let t := temp_v resno in
      if negb (tv_isnull t)
      then to_uint32 (TYPEALIGN sizeof_cl_uint vl_len
                      + pg_numeric_to_varlena (tv_value t) (tv_isnull t))
      else vl_len
  | SzIndirect resno align len =>
      if negb (tv_isnull (temp_v resno))
      then to_uint32 (TYPEALIGN align vl_len + len)
      else vl_len
  end.

(** The sizing pass up to, and not including, its final MAXALIGN. *)
Definition sizing_pass_accum (stmts : list sizing_stmt) : Z :=
  fold_left exec_sizing stmts 0.

(** [vl_len = MAXALIGN(vl_len)]: the amount handed to
    arithmetic_stairlike_add, that is, reserved for the row. *)
Definition sizing_pass_reserved (stmts : list sizing_stmt) : Z :=
  to_uint32 (MAXALIGN (sizing_pass_accum stmts)).

(** A value stored into tup_values. *)
Inductive slot_datum : Type :=
| DatumValue (v : Z)
| DatumHostPtr (devptr : Z).

(** The state the write pass works on: the buffer pointer, and what has
    been stored so far (newest first). *)
Record write_state : Type := mkWriteState {
  vl_buf : Z;
  tup_isnull : list (Z * bool);
  tup_values : list (Z * slot_datum);
  vl_written : list (Z * Z)               (* address, length *)
}.

(** The statements of one template, when control reaches them.  For a
    numeric entry these are the null check and the three statements
    printed after the brace it opens. *)
Definition exec_write (st : write_state) (s : write_stmt) : write_state :=
  match s with
  | WrIsnull resno =>
      mkWriteState (vl_buf st)
                   ((resno - 1, tv_isnull (temp_v resno)) :: tup_isnull st)
                   (tup_values st) (vl_written st)
  | WrNumeric resno =>
      let t := temp_v resno in
      if negb (tv_isnull t)
      then let buf := TYPEALIGN sizeof_cl_int (vl_buf st) in
           let len := pg_numeric_to_varlena (tv_value t) (tv_isnull t) in
           mkWriteState (buf + len) (tup_isnull st)
                        ((resno - 1, DatumHostPtr buf) :: tup_values st)
                        ((buf, len) :: vl_written st)
      else st
  | WrByval resno _ =>
      let t := temp_v resno in
      if negb (tv_isnull t)
      then mkWriteState (vl_buf st) (tup_isnull st)
                        ((resno - 1, DatumValue (tv_value t)) :: tup_values st)
                        (vl_written st)
      else st
  | WrIndirect resno align len =>
      let t := temp_v resno in
      if negb (tv_isnull t)
      then let buf := TYPEALIGN align (vl_buf st) in
           mkWriteState (buf + len) (tup_isnull st)
                        ((resno - 1, DatumHostPtr buf) :: tup_values st)
                        ((buf, len) :: vl_written st)
      else st
  end.

(** The write pass as it is printed.  The template for a numeric entry
    prints the brace that opens the block of its null check and no brace
    that closes it, and every other template prints balanced braces, so
    all statements printed after a numeric entry, to the end of the pass,
    are inside that block: they run when the numeric is not null and are
    skipped when it is null. *)
Fixpoint write_pass (stmts : list write_stmt) (st : write_state) : write_state :=
  match stmts with
  | [] => st
  | WrNumeric resno :: rest =>
      if tv_isnull (temp_v resno) then st
      else write_pass rest (exec_write st (WrNumeric resno))
  | s :: rest => write_pass rest (exec_write st s)
  end.

(** The number of bytes the write pass advances [vl_buf] by when it starts
    at address [start]. *)
Definition write_pass_advance (stmts : list write_stmt) (start : Z) : Z :=
  vl_buf (write_pass stmts (mkWriteState start [] [] [])) - start.

End GeneratedCode.

(* ===================================================================== *)
(** ** Data stores, tasks and the scan state *)
(* ===================================================================== *)

Definition CUresult : Type := Z.
Definition CUdeviceptr : Type := Z.         (* 0UL is the null handle *)
Definition CUevent : Type := Z.             (* 0 is NULL *)
Definition CUfunction : Type := option string. (* None is NULL; else the kernel's name *)
Definition HeapTuple : Type := Z.

(** cuda.h *)
Definition CUDA_SUCCESS : CUresult := 0.
Definition CUDA_ERROR_INVALID_CONTEXT : CUresult := 201.

(** The fields of kern_data_store that gpuscan.c reads or writes. *)
Record kern_data_store : Type := mkKds {
  kds_length : Z;
  kds_nitems : N;
  kds_table_oid : Z
}.

Record pgstrom_data_store : Type := mkPds {
  kds : kern_data_store
}.

Definition set_table_oid (pds : pgstrom_data_store) (oid : Z) : pgstrom_data_store :=
  mkPds (mkKds (kds_length (kds pds)) (kds_nitems (kds pds)) oid).

Record kern_errorbuf : Type := mkErrorbuf {
  errcode : Z;
  kernel : Z;
  lineno : Z
}.

Record kern_resultbuf : Type := mkResultbuf {
  nrels : Z;
  nrooms : N;
  nitems : N;
  all_visible : bool
}.

(** kern_gpuscan: the error buffer, the parameter buffer (its length) and
    the result buffer that follows it. *)
Record kern_gpuscan : Type := mkKernGpuscan {
  kern_kerror : kern_errorbuf;
  kparams_length : Z;
  kresults : kern_resultbuf
}.

Record pgstrom_perfmon : Type := mkPerfmon {
  pfm_enabled : bool;
  bytes_dma_send : Z;
  num_dma_send : Z;
  num_kern_qual : Z;
  bytes_dma_recv : Z;
  num_dma_recv : Z
}.

(** GpuTask.  [chain_linked] stands for the test
    [chain.prev && chain.next] on the task's dlist_node. *)
Record GpuTask : Type := mkGpuTask {
  task_kerror : kern_errorbuf;
  task_pfm : pgstrom_perfmon;
  chain_linked : bool;
  cuda_stream : Z;
  cuda_device : Z;
  cuda_context : Z;
  cuda_module : Z
}.

Record pgstrom_gpuscan : Type := mkGpuscan {
  task : GpuTask;
  kern_exec_quals : CUfunction;
  kern_dev_proj : CUfunction;
  m_gpuscan : CUdeviceptr;
  m_kds_src : CUdeviceptr;
  m_kds_dst : CUdeviceptr;
  ev_dma_send_start : CUevent;
  ev_dma_send_stop : CUevent;
  ev_dma_recv_start : CUevent;
  ev_dma_recv_stop : CUevent;
  pds_src : pgstrom_data_store;
  pds_dst : option pgstrom_data_store;
  kern : kern_gpuscan;
  alloc_length : Z                (* size of the allocation holding the task *)
}.

(** Tasks on the dlists of a GpuTaskState are named by their address. *)
Definition task_addr : Type := Z.

(** GpuTaskState: the fields gpuscan.c touches. *)
Record GpuTaskState : Type := mkGts {
  be_row_format : bool;
  kern_params_length : Z;
  scan_rel_oid : Z;
  pfm_accum_enabled : bool;
  curr_task : option pgstrom_gpuscan;
  curr_index : N;
  running_tasks : list task_addr;
  num_running_tasks : Z;
  completed_tasks : list task_addr;
  num_completed_tasks : Z
}.

Record GpuScanState : Type := mkGss {
  gts : GpuTaskState;
  curr_blknum : N;
  last_blknum : N;
  dev_quals : list Node;
  dev_projection : bool;
  base_fixed_width : Z;
  proj_fixed_width : Z;
  proj_extra_width : Z;
  num_rechecked : Z
}.

Definition set_curr_blknum (gss : GpuScanState) (blk : N) : GpuScanState :=
  mkGss (gts gss) blk (last_blknum gss) (dev_quals gss) (dev_projection gss)
        (base_fixed_width gss) (proj_fixed_width gss) (proj_extra_width gss)
        (num_rechecked gss).

Definition set_curr_index (gss : GpuScanState) (idx : N) : GpuScanState :=
  let g := gts gss in
  mkGss (mkGts (be_row_format g) (kern_params_length g) (scan_rel_oid g)
               (pfm_accum_enabled g) (curr_task g) idx
               (running_tasks g) (num_running_tasks g)
               (completed_tasks g) (num_completed_tasks g))
        (curr_blknum gss) (last_blknum gss) (dev_quals gss) (dev_projection gss)
        (base_fixed_width gss) (proj_fixed_width gss) (proj_extra_width gss)
        (num_rechecked gss).

(** datastore.c and cuda_control.c, not under src/: the data store and
    task services gpuscan.c calls.  The relation and the snapshot of the
    scan are fixed, so [pgstrom_data_store_insert_block] is a function of
    the store and the block number; it returns the C function's int and
    the store afterwards. *)
Class DataStore : Type := {
  pgstrom_chunk_size : Z;
  pgstrom_create_data_store_row : Z -> pgstrom_data_store;
  pgstrom_create_data_store_slot : N -> Z -> pgstrom_data_store;
  pgstrom_data_store_insert_block : pgstrom_data_store -> N -> Z * pgstrom_data_store;
  pgstrom_fetch_data_store : pgstrom_data_store -> N -> option HeapTuple;
  pgstrom_init_gputask : GpuTaskState -> GpuTask
}.

(** cuda_gpuscan.h, cuda_common.h and pg_strom.h, not under src/: the
    layout macros and constants gpuscan.c uses. *)
Class KernLayout : Type := {
  STROMALIGN : Z -> Z;
  GPUMEMALIGN : Z -> Z;
  offsetof_pgstrom_gpuscan_kparams : Z;
  offsetof_kern_resultbuf_results : N -> Z;
  sizeof_kern_errorbuf : Z;
  KERN_GPUSCAN_LENGTH : kern_gpuscan -> Z;
  KERN_GPUSCAN_DMASEND_OFFSET : kern_gpuscan -> Z;
  KERN_GPUSCAN_DMASEND_LENGTH : kern_gpuscan -> Z;
  KERN_GPUSCAN_DMARECV_OFFSET : kern_gpuscan -> Z;
  KERN_GPUSCAN_DMARECV_LENGTH : kern_gpuscan -> N -> Z;
  KERN_DATA_STORE_LENGTH : kern_data_store -> Z;
  KERN_DATA_STORE_HEAD_LENGTH : kern_data_store -> Z;
  pgstrom_compute_workgroup_size : CUfunction -> Z -> bool -> N -> Z -> Z * Z;
  StromError_Success : Z;
  StromKernel_CudaRuntime : Z
}.

Section Executor.
Context {DS : DataStore} {KL : KernLayout}.

(* ===================================================================== *)
(** ** create_pgstrom_gpuscan_task *)
(* ===================================================================== *)

(** The subtraction of the two cl_int widths is an int; the widths of the
    kern_data_store fields come from a header that is not under src/, so
    the rest of the length is left as the mathematical value. *)
Definition create_pgstrom_gpuscan_task (gss : GpuScanState)
                                       (pds_src : pgstrom_data_store)
  : pgstrom_gpuscan :=
  let kds_src := kds pds_src in
  (* allocation of the destination buffer *)
  let pds_dst :=
    if be_row_format (gts gss) then
      if negb (dev_projection gss) then None
      else
        let length :=
          kds_length kds_src +
          Max (to_int32 (proj_fixed_width gss - base_fixed_width gss)) 0
          * Z.of_N (kds_nitems kds_src) in
        Some (pgstrom_create_data_store_row length)
    else
      let length := proj_extra_width gss * Z.of_N (kds_nitems kds_src) in
      Some (pgstrom_create_data_store_slot (kds_nitems kds_src) length) in
  (* allocation of pgstrom_gpuscan *)
  let length :=
    STROMALIGN offsetof_pgstrom_gpuscan_kparams +
    STROMALIGN (kern_params_length (gts gss)) +
    STROMALIGN (offsetof_kern_resultbuf_results
                  (match pds_dst with Some _ => 0%N | None => kds_nitems kds_src end)) in
  (* setting up kern_resultbuf: memset 0, nrels = 1, then the test on dev_quals *)
  let kresults := mkResultbuf 0 0%N 0%N false in
  let kresults := mkResultbuf 1 (nrooms kresults) (nitems kresults) (all_visible kresults) in
  let kresults :=
    match dev_quals gss with
    | _ :: _ => mkResultbuf (nrels kresults) (kds_nitems kds_src)
                            (nitems kresults) (all_visible kresults)
    | [] => mkResultbuf (nrels kresults) (nrooms kresults) (nitems kresults) true
    end in
  mkGpuscan (pgstrom_init_gputask (gts gss))
            None None 0 0 0 0 0 0 0
            pds_src pds_dst
            (mkKernGpuscan (mkErrorbuf 0 0 0) (kern_params_length (gts gss)) kresults)
            length.

(* ===================================================================== *)
(** ** gpuscan_next_chunk *)
(* ===================================================================== *)

(** The inner while loop that fills a data store block by block.  It runs
    at most [last_blknum - curr_blknum] times, which is the fuel
    [fill_data_store] gives it. *)
Fixpoint fill_loop (n : nat) (pds : pgstrom_data_store) (curr last : N)
  : pgstrom_data_store * N :=
  match n with
  | O => (pds, curr)
  | S n' =>
      if (curr <? last)%N then
        let '(rc, pds') := pgstrom_data_store_insert_block pds curr in
        if rc >=? 0 then fill_loop n' pds' (curr + 1)%N last
        else (pds', curr)
      else (pds, curr)
  end.

Definition fill_data_store (pds : pgstrom_data_store) (curr last : N)
  : pgstrom_data_store * N :=
  fill_loop (N.to_nat (last - curr)) pds curr last.

(** The locals of gpuscan_next_chunk when its outer loop is left, and the
    scan state then.  [lv_pds] is the data store of the last round. *)
Record next_chunk_locals : Type := mkLocals {
  lv_gpuscan : option pgstrom_gpuscan;
  lv_end_of_scan : bool;
  lv_pds : option pgstrom_data_store;
  lv_gss : GpuScanState
}.

(** The outer loop [while (!gpuscan && !end_of_scan)], entered with both
    tests true.  Nothing in the code bounds its rounds, so it takes fuel;
    [None] is fuel exhausted. *)
Fixpoint next_chunk_loop (fuel : nat) (gss : GpuScanState) : option next_chunk_locals :=
  match fuel with
  | O => None
  | S fuel' =>
      let pds := pgstrom_create_data_store_row pgstrom_chunk_size in
      let pds := set_table_oid pds (scan_rel_oid (gts gss)) in
      (* fill up this data-store *)
      let '(pds, curr) := fill_data_store pds (curr_blknum gss) (last_blknum gss) in
      let gss := set_curr_blknum gss curr in
      if (0 <? kds_nitems (kds pds))%N then
        Some (mkLocals (Some (create_pgstrom_gpuscan_task gss pds)) false (Some pds) gss)
      else
        (* pgstrom_release_data_store(pds) *)
        if (last_blknum gss <=? curr_blknum gss)%N then
          Some (mkLocals None true (Some pds) gss)
        else next_chunk_loop fuel' gss
  end.

Definition gpuscan_next_chunk_locals (fuel : nat) (gss : GpuScanState)
  : option next_chunk_locals :=
  (* no more blocks to read *)
  if (last_blknum gss <? curr_blknum gss)%N then
    Some (mkLocals None false None gss)
  else next_chunk_loop fuel gss.

(** gpuscan_next_chunk: the task returned (NULL is [None]) and the scan
    state afterwards. *)
Definition gpuscan_next_chunk (fuel : nat) (gss : GpuScanState)
  : option (option pgstrom_gpuscan * GpuScanState) :=
  match gpuscan_next_chunk_locals fuel gss with
  | Some lv => Some (lv_gpuscan lv, lv_gss lv)
  | None => None
  end.

(** The number of rows in the data store of the last round; no round, no
    rows. *)
Definition rows_gathered (lv : next_chunk_locals) : N :=
  match lv_pds lv with
  | Some pds => kds_nitems (kds pds)
  | None => 0%N
  end.

(* ===================================================================== *)
(** ** gpuscan_next_tuple *)
(* ===================================================================== *)

(** How a call of gpuscan_next_tuple ends: with a slot holding a tuple,
    with a NULL slot, through elog(ERROR), or by reading through a NULL
    pointer. *)
Inductive next_tuple_result : Type :=
| SlotTuple (tup : HeapTuple)
| SlotNull
| NextElog (msg : string)
| NullDereference.

Definition gpuscan_next_tuple (gss : GpuScanState) : next_tuple_result * GpuScanState :=
  match curr_task (gts gss) with
  | None => (NullDereference, gss)
  | Some gpuscan =>
      match pds_dst gpuscan with
      | None =>
          (* pds_dst->kds->nitems with pds_dst == NULL *)
          (NullDereference, gss)
      | Some pds_dst =>
          if (curr_index (gts gss) <? kds_nitems (kds pds_dst))%N then
            (* index = curr_index++; below nitems, so the cl_uint does not wrap *)
            let index := curr_index (gts gss) in
            let gss := set_curr_index gss (index + 1)%N in
            match pgstrom_fetch_data_store pds_dst index with
            | Some tup => (SlotTuple tup, gss)
            | None => (NextElog "failed to fetch a record from pds", gss)
            end
          else (SlotNull, gss)
      end
  end.

End Executor.

(* ===================================================================== *)
(** ** The CUDA driver as gpuscan.c sees it *)
(* ===================================================================== *)

(** The four event fields of a task. *)
Inductive ev_field : Type :=
| EV_dma_send_start
| EV_dma_send_stop
| EV_dma_recv_start
| EV_dma_recv_stop.

(** The places where gpuscan.c calls the driver and tests the CUresult. *)
Inductive api_site : Type :=
| Site_cuCtxPushCurrent
| Site_cuCtxPopCurrent
| Site_cuModuleGetFunction_exec_quals
| Site_cuModuleGetFunction_dev_proj
| Site_cuEventCreate (ev : ev_field)
| Site_cuEventRecord (ev : ev_field)
| Site_cuEventDestroy (ev : ev_field)
| Site_cuMemcpyHtoDAsync_gpuscan
| Site_cuMemcpyHtoDAsync_kds_src
| Site_cuMemcpyHtoDAsync_kds_dst
| Site_cuLaunchKernel_exec_quals
| Site_cuLaunchKernel_dev_proj
| Site_cuMemcpyDtoHAsync_gpuscan
| Site_cuMemcpyDtoHAsync_kds_dst
| Site_cuStreamAddCallback.

(** What the driver answers: a CUresult per call site, the device pointer
    gpuMemAlloc hands out for a length (0 when device memory is
    exhausted), and the handle of a created event. *)
Record cuda_driver : Type := mkDriver {
  drv_rc : api_site -> CUresult;
  drv_mem_alloc : Z -> CUdeviceptr;
  drv_new_event : ev_field -> CUevent
}.

(** A host buffer named in an asynchronous copy. *)
Inductive host_buffer : Type :=
| Host_kern (offset : Z)          (* (char * )&gpuscan->kern + offset *)
| Host_kds_src                    (* pds_src->kds *)
| Host_kds_dst.                   (* pds_dst->kds *)

Inductive stream_callback : Type :=
| Callback_respond_gpuscan.

(** A command enqueued on the task's CUDA stream. *)
Inductive stream_cmd : Type :=
| CmdEventRecord (ev : ev_field) (h : CUevent)
| CmdMemcpyHtoD (dst : CUdeviceptr) (src : host_buffer) (len : Z)
| CmdLaunchKernel (f : CUfunction) (grid_size block_size shmem : Z)
                  (kern_args : list CUdeviceptr)
| CmdMemcpyDtoH (dst : host_buffer) (src : CUdeviceptr) (len : Z)
| CmdAddCallback (fn : stream_callback).

(** What else the driver and the backend are asked to do. *)
Inductive driver_event : Type :=
| DrvCtxPush (ctx : Z)
| DrvCtxPop
| DrvGetFunction (name : string)
| DrvMemAlloc (len : Z) (ptr : CUdeviceptr)
| DrvMemFree (ptr : CUdeviceptr)
| DrvEventCreate (h : CUevent)
| DrvEventDestroy (h : CUevent)
| DrvWarning (msg : string).

(** The world a task is processed in: the task object itself (it outlives
    an elog(ERROR)), the stream (oldest command first) and the log. *)
Record world : Type := mkWorld {
  w_gpuscan : pgstrom_gpuscan;
  w_stream : list stream_cmd;
  w_log : list driver_event
}.

(** State and exception: an elog(ERROR) leaves the world as it is at the
    time of the error. *)
Definition M (A : Type) : Type := world -> result A * world.

Definition ret {A : Type} (a : A) : M A := fun w => (Ok a, w).

Definition bind {A B : Type} (c : M A) (k : A -> M B) : M B :=
  fun w => match c w with
           | (Ok a, w') => k a w'
           | (Raised msg, w') => (Raised msg, w')
           end.

Notation "x <- c ;; k" := (bind c (fun x => k))
  (at level 61, c at next level, right associativity).
Notation "c ;; k" := (bind c (fun _ => k))
  (at level 61, right associativity).

Definition elog_ERROR {A : Type} (msg : string) : M A := fun w => (Raised msg, w).

Definition emit (e : driver_event) : M unit :=
  fun w => (Ok tt, mkWorld (w_gpuscan w) (w_stream w) (w_log w ++ [e])).

Definition elog_WARNING (msg : string) : M unit := emit (DrvWarning msg).

Definition enqueue (c : stream_cmd) : M unit :=
  fun w => (Ok tt, mkWorld (w_gpuscan w) (w_stream w ++ [c]) (w_log w)).

Definition gets {A : Type} (f : pgstrom_gpuscan -> A) : M A :=
  fun w => (Ok (f (w_gpuscan w)), w).

Definition update (f : pgstrom_gpuscan -> pgstrom_gpuscan) : M unit :=
  fun w => (Ok tt, mkWorld (f (w_gpuscan w)) (w_stream w) (w_log w)).

(** PG_TRY / PG_CATCH / PG_END_TRY *)
Definition PG_TRY {A : Type} (body : M A) (handler : string -> M A) : M A :=
  fun w => match body w with
           | (Ok a, w') => (Ok a, w')
           | (Raised msg, w') => handler msg w'
           end.

(** [if (rc != CUDA_SUCCESS) elog(ERROR, ...)] *)
Definition check_rc (rc : CUresult) (msg : string) : M unit :=
  if rc =? CUDA_SUCCESS then ret tt else elog_ERROR msg.

(** *** Field assignments on the task *)

Definition set_kern_functions (q p : CUfunction) (g : pgstrom_gpuscan) : pgstrom_gpuscan :=
  mkGpuscan (task g) q p (m_gpuscan g) (m_kds_src g) (m_kds_dst g)
            (ev_dma_send_start g) (ev_dma_send_stop g)
            (ev_dma_recv_start g) (ev_dma_recv_stop g)
            (pds_src g) (pds_dst g) (kern g) (alloc_length g).

Definition set_kern_exec_quals (f : CUfunction) (g : pgstrom_gpuscan) :=
  set_kern_functions f (kern_dev_proj g) g.

Definition set_kern_dev_proj (f : CUfunction) (g : pgstrom_gpuscan) :=
  set_kern_functions (kern_exec_quals g) f g.

Definition set_device_memory (m s d : CUdeviceptr) (g : pgstrom_gpuscan) : pgstrom_gpuscan :=
  mkGpuscan (task g) (kern_exec_quals g) (kern_dev_proj g) m s d
            (ev_dma_send_start g) (ev_dma_send_stop g)
            (ev_dma_recv_start g) (ev_dma_recv_stop g)
            (pds_src g) (pds_dst g) (kern g) (alloc_length g).

Definition set_m_gpuscan (m : CUdeviceptr) (g : pgstrom_gpuscan) :=
  set_device_memory m (m_kds_src g) (m_kds_dst g) g.

Definition set_m_kds_src (m : CUdeviceptr) (g : pgstrom_gpuscan) :=
  set_device_memory (m_gpuscan g) m (m_kds_dst g) g.

Definition set_m_kds_dst (m : CUdeviceptr) (g : pgstrom_gpuscan) :=
  set_device_memory (m_gpuscan g) (m_kds_src g) m g.

Definition get_event (ev : ev_field) (g : pgstrom_gpuscan) : CUevent :=
  match ev with
  | EV_dma_send_start => ev_dma_send_start g
  | EV_dma_send_stop => ev_dma_send_stop g
  | EV_dma_recv_start => ev_dma_recv_start g
  | EV_dma_recv_stop => ev_dma_recv_stop g
  end.

Definition set_event (ev : ev_field) (h : CUevent) (g : pgstrom_gpuscan) : pgstrom_gpuscan :=
  let pick e := match ev, e with
                | EV_dma_send_start, EV_dma_send_start
                | EV_dma_send_stop, EV_dma_send_stop
                | EV_dma_recv_start, EV_dma_recv_start
                | EV_dma_recv_stop, EV_dma_recv_stop => h
                | _, _ => get_event e g
                end in
  mkGpuscan (task g) (kern_exec_quals g) (kern_dev_proj g)
            (m_gpuscan g) (m_kds_src g) (m_kds_dst g)
            (pick EV_dma_send_start) (pick EV_dma_send_stop)
            (pick EV_dma_recv_start) (pick EV_dma_recv_stop)
            (pds_src g) (pds_dst g) (kern g) (alloc_length g).

Definition set_task (t : GpuTask) (g : pgstrom_gpuscan) : pgstrom_gpuscan :=
  mkGpuscan t (kern_exec_quals g) (kern_dev_proj g)
            (m_gpuscan g) (m_kds_src g) (m_kds_dst g)
            (ev_dma_send_start g) (ev_dma_send_stop g)
            (ev_dma_recv_start g) (ev_dma_recv_stop g)
            (pds_src g) (pds_dst g) (kern g) (alloc_length g).

Definition set_pfm (p : pgstrom_perfmon) (g : pgstrom_gpuscan) : pgstrom_gpuscan :=
  let t := task g in
  set_task (mkGpuTask (task_kerror t) p (chain_linked t) (cuda_stream t)
                      (cuda_device t) (cuda_context t) (cuda_module t)) g.

(** [pfm.bytes_dma_send += length; pfm.num_dma_send++] *)
Definition count_dma_send (length : Z) (g : pgstrom_gpuscan) : pgstrom_gpuscan :=
  let p := task_pfm (task g) in
  set_pfm (mkPerfmon (pfm_enabled p) (bytes_dma_send p + length) (num_dma_send p + 1)
                     (num_kern_qual p) (bytes_dma_recv p) (num_dma_recv p)) g.

(** [pfm.num_kern_qual++] *)
Definition count_kern_qual (g : pgstrom_gpuscan) : pgstrom_gpuscan :=
  let p := task_pfm (task g) in
  set_pfm (mkPerfmon (pfm_enabled p) (bytes_dma_send p) (num_dma_send p)
                     (num_kern_qual p + 1) (bytes_dma_recv p) (num_dma_recv p)) g.

(** [pfm.bytes_dma_recv += length; pfm.num_dma_recv++] *)
Definition count_dma_recv (length : Z) (g : pgstrom_gpuscan) : pgstrom_gpuscan :=
  let p := task_pfm (task g) in
  set_pfm (mkPerfmon (pfm_enabled p) (bytes_dma_send p) (num_dma_send p)
                     (num_kern_qual p) (bytes_dma_recv p + length) (num_dma_recv p + 1)) g.

Section Cuda.
Context {KL : KernLayout}.
Variable drv : cuda_driver.

(** *** Driver and backend calls *)

Definition cuModuleGetFunction (site : api_site)
                               (store : CUfunction -> pgstrom_gpuscan -> pgstrom_gpuscan)
                               (name : string) : M CUresult :=
  let rc := drv_rc drv site in
  if rc =? CUDA_SUCCESS
  then (emit (DrvGetFunction name) ;; update (store (Some name)) ;; ret rc)
  else ret rc.

(** gpuMemAlloc of cuda_control.c: a device pointer, or 0. *)
Definition gpuMemAlloc (length : Z) : M CUdeviceptr :=
  let ptr := drv_mem_alloc drv length in
  emit (DrvMemAlloc length ptr) ;; ret ptr.

(** gpuMemFree of cuda_control.c. *)
Definition gpuMemFree (ptr : CUdeviceptr) : M unit := emit (DrvMemFree ptr).

Definition cuEventCreate (ev : ev_field) : M CUresult :=
  let rc := drv_rc drv (Site_cuEventCreate ev) in
  if rc =? CUDA_SUCCESS
  then (let h := drv_new_event drv ev in
        emit (DrvEventCreate h) ;; update (set_event ev h) ;; ret rc)
  else ret rc.

(** The asynchronous calls: on success the command is on the stream. *)
Definition cu_enqueue (site : api_site) (c : stream_cmd) : M CUresult :=
  let rc := drv_rc drv site in
  if rc =? CUDA_SUCCESS then (enqueue c ;; ret rc) else ret rc.

(** Modelled from the spec: the macro CUDA_EVENT_RECORD is defined in
    pg_strom.h, which is not under src/.  The spec describes the events
    as timing markers of the transfer and compute phases that exist for a
    task whose performance monitor is on; the model records the marker on
    the task's stream in that case and raises an error when the driver
    refuses. *)
Definition CUDA_EVENT_RECORD (ev : ev_field) : M unit :=
  enabled <- gets (fun g => pfm_enabled (task_pfm (task g))) ;;
  if enabled : bool then
    h <- gets (get_event ev) ;;
    rc <- cu_enqueue (Site_cuEventRecord ev) (CmdEventRecord ev h) ;;
    check_rc rc "failed on cuEventRecord"
  else ret tt.

(** Modelled from the spec: the macro CUDA_EVENT_DESTROY is defined in
    pg_strom.h, which is not under src/.  The spec says the cleanup
    routine nulls every handle after freeing it; the model destroys an
    event whose handle is not NULL, warns when the driver refuses, and
    sets the handle to NULL. *)
Definition CUDA_EVENT_DESTROY (ev : ev_field) : M unit :=
  h <- gets (get_event ev) ;;
  if h =? 0 then ret tt
  else
    emit (DrvEventDestroy h) ;;
    (if drv_rc drv (Site_cuEventDestroy ev) =? CUDA_SUCCESS then ret tt
     else elog_WARNING "failed on cuEventDestroy") ;;
    update (set_event ev 0).

(* ===================================================================== *)
(** ** gpuscan_cleanup_cuda_resources *)
(* ===================================================================== *)

Definition gpuscan_cleanup_cuda_resources : M unit :=
  CUDA_EVENT_DESTROY EV_dma_recv_stop ;;
  CUDA_EVENT_DESTROY EV_dma_recv_start ;;
  CUDA_EVENT_DESTROY EV_dma_send_stop ;;
  CUDA_EVENT_DESTROY EV_dma_send_start ;;
  m <- gets m_gpuscan ;;
  (if m =? 0 then ret tt else gpuMemFree m) ;;
  (* ensure pointers being NULL *)
  update (set_kern_exec_quals None) ;;
  update (set_kern_dev_proj None) ;;
  update (set_m_gpuscan 0) ;;
  update (set_m_kds_src 0) ;;
  update (set_m_kds_dst 0).

(* ===================================================================== *)
(** ** __pgstrom_process_gpuscan and pgstrom_process_gpuscan *)
(* ===================================================================== *)

Definition projection_kernel_name (gss : GpuScanState) : string :=
  if be_row_format (gts gss) then "gpuscan_projection_row"
  else "gpuscan_projection_slot".

Definition is_some {A : Type} (o : option A) : bool :=
  match o with Some _ => true | None => false end.

Definition kds_of (o : option pgstrom_data_store) (dflt : kern_data_store)
  : kern_data_store :=
  match o with Some pds => kds pds | None => dflt end.

(** The part of __pgstrom_process_gpuscan after the device memory has been
    acquired: events, the series of requests, the callback. *)
Definition process_gpuscan_enqueue (gss : GpuScanState) : M bool :=
  g0 <- gets (fun g => g) ;;
  let pds_src := pds_src g0 in
  let pds_dst := pds_dst g0 in
  let kds_dst := kds_of pds_dst (kds pds_src) in
  let src_nitems := kds_nitems (kds pds_src) in
  update (fun g => set_m_kds_src (m_gpuscan g + GPUMEMALIGN (KERN_GPUSCAN_LENGTH (kern g))) g) ;;
  (if is_some pds_dst
   then update (fun g => set_m_kds_dst
                           (m_kds_src g + GPUMEMALIGN (KERN_DATA_STORE_LENGTH (kds pds_src))) g)
   else update (set_m_kds_dst 0)) ;;
  (* Creation of event objects, if any *)
  (if pfm_enabled (task_pfm (task g0)) then
     rc <- cuEventCreate EV_dma_send_start ;;
     check_rc rc "failed on cuEventCreate" ;;
     rc <- cuEventCreate EV_dma_send_stop ;;
     check_rc rc "failed on cuEventCreate" ;;
     rc <- cuEventCreate EV_dma_recv_start ;;
     check_rc rc "failed on cuEventCreate" ;;
     rc <- cuEventCreate EV_dma_recv_stop ;;
     check_rc rc "failed on cuEventCreate"
   else ret tt) ;;
  (* OK, enqueue a series of requests *)
  CUDA_EVENT_RECORD EV_dma_send_start ;;
  g <- gets (fun g => g) ;;
  let offset := KERN_GPUSCAN_DMASEND_OFFSET (kern g) in
  let length := KERN_GPUSCAN_DMASEND_LENGTH (kern g) in
  rc <- cu_enqueue Site_cuMemcpyHtoDAsync_gpuscan
                   (CmdMemcpyHtoD (m_gpuscan g) (Host_kern offset) length) ;;
  check_rc rc "failed on cuMemcpyHtoDAsync" ;;
  update (count_dma_send length) ;;
  (* kern_data_store *kds_src *)
  let length := KERN_DATA_STORE_LENGTH (kds pds_src) in
  rc <- cu_enqueue Site_cuMemcpyHtoDAsync_kds_src
                   (CmdMemcpyHtoD (m_kds_src g) Host_kds_src length) ;;
  check_rc rc "failed on cuMemcpyHtoDAsync" ;;
  update (count_dma_send length) ;;
  (* kern_data_store *kds_dst, if any *)
  (if is_some pds_dst then
     let length := KERN_DATA_STORE_HEAD_LENGTH kds_dst in
     rc <- cu_enqueue Site_cuMemcpyHtoDAsync_kds_dst
                      (CmdMemcpyHtoD (m_kds_dst g) Host_kds_dst length) ;;
     check_rc rc "failed on cuMemcpyHtoDAsync" ;;
     update (count_dma_send length)
   else ret tt) ;;
  CUDA_EVENT_RECORD EV_dma_send_stop ;;
  (* Launch kernel function *)
  (match dev_quals gss with
   | _ :: _ =>
       let '(grid_size, block_size) :=
         pgstrom_compute_workgroup_size (kern_exec_quals g) (cuda_device (task g))
                                        false src_nitems sizeof_kern_errorbuf in
       rc <- cu_enqueue Site_cuLaunchKernel_exec_quals
                        (CmdLaunchKernel (kern_exec_quals g) grid_size block_size
                                         (sizeof_kern_errorbuf * block_size)
                                         [m_gpuscan g; m_kds_src g]) ;;
       check_rc rc "failed on cuLaunchKernel" ;;
       update count_kern_qual
   | [] =>
       (* no device qualifiers, thus, all rows are visible to projection *)
       ret tt
   end) ;;
  (if is_some pds_dst then
     let '(grid_size, block_size) :=
       pgstrom_compute_workgroup_size (kern_dev_proj g) (cuda_device (task g))
                                      false src_nitems sizeof_kern_errorbuf in
     rc <- cu_enqueue Site_cuLaunchKernel_dev_proj
                      (CmdLaunchKernel (kern_dev_proj g) grid_size block_size
                                       (sizeof_kern_errorbuf * block_size)
                                       [m_gpuscan g; m_kds_src g; m_kds_dst g]) ;;
     check_rc rc "failed on cuLaunchKernel"
   else ret tt) ;;
  (* Recv DMA call *)
  CUDA_EVENT_RECORD EV_dma_recv_start ;;
  let offset := KERN_GPUSCAN_DMARECV_OFFSET (kern g) in
  let length := KERN_GPUSCAN_DMARECV_LENGTH
                  (kern g) (if is_some pds_dst then 0%N else kds_nitems (kds pds_src)) in
  rc <- cu_enqueue Site_cuMemcpyDtoHAsync_gpuscan
                   (CmdMemcpyDtoH (Host_kern offset) (m_gpuscan g + offset) length) ;;
  check_rc rc "cuMemcpyDtoHAsync" ;;
  update (count_dma_recv length) ;;
  (if is_some pds_dst then
     let length := KERN_DATA_STORE_LENGTH kds_dst in
     rc <- cu_enqueue Site_cuMemcpyDtoHAsync_kds_dst
                      (CmdMemcpyDtoH Host_kds_dst (m_kds_dst g) length) ;;
     check_rc rc "cuMemcpyDtoHAsync" ;;
     update (count_dma_recv length)
   else ret tt) ;;
  CUDA_EVENT_RECORD EV_dma_recv_stop ;;
  (* Register callback *)
  rc <- cu_enqueue Site_cuStreamAddCallback (CmdAddCallback Callback_respond_gpuscan) ;;
  check_rc rc "cuStreamAddCallback" ;;
  ret true.

Definition __pgstrom_process_gpuscan (gss : GpuScanState) : M bool :=
  (* GPU kernel function lookup *)
  rc <- cuModuleGetFunction Site_cuModuleGetFunction_exec_quals
                            set_kern_exec_quals "gpuscan_exec_quals" ;;
  check_rc rc "failed on cuModuleGetFunction" ;;
  rc <- cuModuleGetFunction Site_cuModuleGetFunction_dev_proj
                            set_kern_dev_proj (projection_kernel_name gss) ;;
  check_rc rc "failed on cuModuleGetFunction" ;;
  (* Allocation of device memory *)
  g <- gets (fun g => g) ;;
  let length := GPUMEMALIGN (KERN_GPUSCAN_LENGTH (kern g)) +
                GPUMEMALIGN (KERN_DATA_STORE_LENGTH (kds (pds_src g))) in
  let length := match pds_dst g with
                | Some pds_dst => length + GPUMEMALIGN (KERN_DATA_STORE_LENGTH (kds pds_dst))
                | None => length
                end in
  m <- gpuMemAlloc length ;;
  update (set_m_gpuscan m) ;;
  if m =? 0 then
    (* out_of_resource: *)
    gpuscan_cleanup_cuda_resources ;;
    ret false
  else process_gpuscan_enqueue gss.

Definition pgstrom_process_gpuscan (gss : GpuScanState) : M bool :=
  (* Switch CUDA Context *)
  ctx <- gets (fun g => cuda_context (task g)) ;;
  (if drv_rc drv Site_cuCtxPushCurrent =? CUDA_SUCCESS
   then emit (DrvCtxPush ctx)
   else elog_ERROR "failed on cuCtxPushCurrent") ;;
  status <- PG_TRY (__pgstrom_process_gpuscan gss)
                   (fun msg =>
                      gpuscan_cleanup_cuda_resources ;;
                      (if drv_rc drv Site_cuCtxPopCurrent =? CUDA_SUCCESS
                       then emit DrvCtxPop
                       else elog_WARNING "failed on cuCtxPopCurrent") ;;
                      (* PG_RE_THROW *)
                      elog_ERROR msg) ;;
  (if drv_rc drv Site_cuCtxPopCurrent =? CUDA_SUCCESS
   then emit DrvCtxPop
   else elog_WARNING "failed on cuCtxPopCurrent") ;;
  ret status.

End Cuda.

(* ===================================================================== *)
(** ** pgstrom_respond_gpuscan, the completion callback

    The callback runs on a thread of the CUDA runtime.  Its model keeps a
    trace of what it touches: loads and stores of fields of the task and
    of the GpuTaskState, operations on the dlists, the spin lock and the
    latch. *)
(* ===================================================================== *)

Inductive cb_object : Type :=
| Obj_task_gts                   (* gpuscan->task.gts *)
| Obj_kern_kerror                (* gpuscan->kern.kerror *)
| Obj_task_kerror                (* gpuscan->task.kerror *)
| Obj_task_chain                 (* gpuscan->task.chain *)
| Obj_gts_num_running_tasks      (* gts->num_running_tasks *)
| Obj_gts_num_completed_tasks.   (* gts->num_completed_tasks *)

Inductive cb_access : Type :=
| Load (o : cb_object)
| Store (o : cb_object)
| SpinLockAcquire                (* on gts->lock *)
| SpinLockRelease
| DlistDelete                    (* unlinks the task's chain node *)
| DlistPushTail                  (* on gts->completed_tasks *)
| DlistPushHead
| SetLatch.

(** What the callback can reach: the task [private] points to (at address
    [be_self]), the GpuTaskState its gts field points to, the transaction
    state IsTransactionState() reports, and the process latch. *)
Record backend : Type := mkBackend {
  be_self : task_addr;
  be_gpuscan : pgstrom_gpuscan;
  be_gts : GpuTaskState;
  be_in_transaction : bool;
  be_latch_set : bool;
  be_trace : list cb_access
}.

Definition touch (a : cb_access) (be : backend) : backend :=
  mkBackend (be_self be) (be_gpuscan be) (be_gts be) (be_in_transaction be)
            (be_latch_set be) (be_trace be ++ [a]).

Definition with_gpuscan (f : pgstrom_gpuscan -> pgstrom_gpuscan) (be : backend) : backend :=
  mkBackend (be_self be) (f (be_gpuscan be)) (be_gts be) (be_in_transaction be)
            (be_latch_set be) (be_trace be).

Definition with_gts (f : GpuTaskState -> GpuTaskState) (be : backend) : backend :=
  mkBackend (be_self be) (be_gpuscan be) (f (be_gts be)) (be_in_transaction be)
            (be_latch_set be) (be_trace be).

Definition set_task_kerror (e : kern_errorbuf) (g : pgstrom_gpuscan) : pgstrom_gpuscan :=
  let t := task g in
  set_task (mkGpuTask e (task_pfm t) (chain_linked t) (cuda_stream t)
                      (cuda_device t) (cuda_context t) (cuda_module t)) g.

Definition set_chain_linked (b : bool) (g : pgstrom_gpuscan) : pgstrom_gpuscan :=
  let t := task g in
  set_task (mkGpuTask (task_kerror t) (task_pfm t) b (cuda_stream t)
                      (cuda_device t) (cuda_context t) (cuda_module t)) g.

Definition set_task_lists (running : list task_addr) (nrunning : Z)
                          (completed : list task_addr) (ncompleted : Z)
                          (g : GpuTaskState) : GpuTaskState :=
  mkGts (be_row_format g) (kern_params_length g) (scan_rel_oid g)
        (pfm_accum_enabled g) (curr_task g) (curr_index g)
        running nrunning completed ncompleted.

(** dlist_delete(&gpuscan->task.chain): the node leaves the list it is
    linked in. *)
Definition dlist_delete (self : task_addr) (g : GpuTaskState) : GpuTaskState :=
  set_task_lists (remove Z.eq_dec self (running_tasks g)) (num_running_tasks g)
                 (remove Z.eq_dec self (completed_tasks g)) (num_completed_tasks g) g.

Definition dlist_push_tail_completed (self : task_addr) (g : GpuTaskState) : GpuTaskState :=
  set_task_lists (running_tasks g) (num_running_tasks g)
                 (completed_tasks g ++ [self]) (num_completed_tasks g) g.

Definition dlist_push_head_completed (self : task_addr) (g : GpuTaskState) : GpuTaskState :=
  set_task_lists (running_tasks g) (num_running_tasks g)
                 (self :: completed_tasks g) (num_completed_tasks g) g.

Definition add_num_running (d : Z) (g : GpuTaskState) : GpuTaskState :=
  set_task_lists (running_tasks g) (num_running_tasks g + d)
                 (completed_tasks g) (num_completed_tasks g) g.

Definition add_num_completed (d : Z) (g : GpuTaskState) : GpuTaskState :=
  set_task_lists (running_tasks g) (num_running_tasks g)
                 (completed_tasks g) (num_completed_tasks g + d) g.

Definition set_latch (be : backend) : backend :=
  mkBackend (be_self be) (be_gpuscan be) (be_gts be) (be_in_transaction be)
            true (be_trace be).

Section Callback.
Context {KL : KernLayout}.

Definition pgstrom_respond_gpuscan (status : CUresult) (be : backend) : backend :=
  (* GpuTaskState *gts = gpuscan->task.gts; *)
  let be := touch (Load Obj_task_gts) be in
  if (status =? CUDA_ERROR_INVALID_CONTEXT) || negb (be_in_transaction be)
  then be
  else
    (* OK, routine is called back in the usual context *)
    let be :=
      if status =? CUDA_SUCCESS
      then
        let be := touch (Load Obj_kern_kerror) be in
        let be := touch (Store Obj_task_kerror) be in
        with_gpuscan (fun g => set_task_kerror (kern_kerror (kern g)) g) be
      else
        let be := touch (Store Obj_task_kerror) be in
        with_gpuscan (set_task_kerror (mkErrorbuf status StromKernel_CudaRuntime 0)) be in
    let be := touch SpinLockAcquire be in
    let be := touch (Load Obj_task_chain) be in
    let be :=
      if chain_linked (task (be_gpuscan be))
      then
        let be := touch DlistDelete be in
        let be := with_gts (dlist_delete (be_self be)) be in
        let be := touch (Load Obj_gts_num_running_tasks) be in
        let be := touch (Store Obj_gts_num_running_tasks) be in
        with_gts (add_num_running (-1)) be
      else be in
    let be := touch (Load Obj_task_kerror) be in
    let be :=
      if errcode (task_kerror (task (be_gpuscan be))) =? StromError_Success
      then
        let be := touch DlistPushTail be in
        with_gts (dlist_push_tail_completed (be_self be)) be
      else
        let be := touch DlistPushHead be in
        with_gts (dlist_push_head_completed (be_self be)) be in
    let be := with_gpuscan (set_chain_linked true) be in
    let be := touch (Load Obj_gts_num_completed_tasks) be in
    let be := touch (Store Obj_gts_num_completed_tasks) be in
    let be := with_gts (add_num_completed 1) be in
    let be := touch SpinLockRelease be in
    let be := touch SetLatch be in
    set_latch be.

End Callback.



(* ===================================================================== *)
(** ** The order of the requests on a task's stream *)
(* ===================================================================== *)

(** What a stream command is for.  Copies are told apart by the host
    buffer they name, kernel launches by the kernel's name. *)
Inductive cmd_kind : Type :=
| K_marker              (* record of a timing event *)
| K_copyin_control      (* control/parameter block, host to device *)
| K_copyin_source       (* image of the input chunk, host to device *)
| K_copyin_dest_head    (* head of the destination chunk, host to device *)
| K_launch_quals        (* kernel gpuscan_exec_quals *)
| K_launch_projection   (* kernel gpuscan_projection_row or _slot *)
| K_copyout_control     (* control block, device to host *)
| K_copyout_dest        (* destination chunk, device to host *)
| K_callback.           (* registration of pgstrom_respond_gpuscan *)

Definition kind_of (c : stream_cmd) : cmd_kind :=
  match c with
  | CmdEventRecord _ _ => K_marker
  | CmdMemcpyHtoD _ (Host_kern _) _ => K_copyin_control
  | CmdMemcpyHtoD _ Host_kds_src _ => K_copyin_source
  | CmdMemcpyHtoD _ Host_kds_dst _ => K_copyin_dest_head
  | CmdLaunchKernel f _ _ _ _ =>
      match f with
      | Some name => if String.eqb name "gpuscan_exec_quals"
                     then K_launch_quals else K_launch_projection
      | None => K_launch_projection
      end
  | CmdMemcpyDtoH (Host_kern _) _ _ => K_copyout_control
  | CmdMemcpyDtoH _ _ _ => K_copyout_dest
  | CmdAddCallback _ => K_callback
  end.

(** The five phases of the spec: copy-in of the control block (1), copy-in
    of chunk images (2), predicate kernel (3), projection kernel (4),
    copy-out and callback (5).  A timing event belongs to the phase it
    opens or closes. *)
Definition phase_of (c : stream_cmd) : nat :=
  match c with
  | CmdEventRecord EV_dma_send_start _ => 1
  | CmdEventRecord EV_dma_send_stop _ => 2
  | CmdEventRecord EV_dma_recv_start _ => 5
  | CmdEventRecord EV_dma_recv_stop _ => 5
  | _ => match kind_of c with
         | K_marker => 0
         | K_copyin_control => 1
         | K_copyin_source => 2
         | K_copyin_dest_head => 2
         | K_launch_quals => 3
         | K_launch_projection => 4
         | K_copyout_control => 5
         | K_copyout_dest => 5
         | K_callback => 5
         end
  end%nat.

(** The order the claim about __pgstrom_process_gpuscan states, word for
    word: control block in, input chunk in, predicate kernel when device
    qualifiers exist, projection kernel when a destination chunk exists,
    control block out, destination chunk out when it exists, callback. *)
Definition claimed_order (has_dev_quals has_dest : bool) : list cmd_kind :=
  [K_copyin_control; K_copyin_source] ++
  (if has_dev_quals then [K_launch_quals] else []) ++
  (if has_dest then [K_launch_projection] else []) ++
  [K_copyout_control] ++
  (if has_dest then [K_copyout_dest] else []) ++
  [K_callback].

(** The order the code issues: as claimed, plus the copy-in of the head of
    the destination chunk when there is one, and the timing events when
    the performance monitor of the task is on. *)
Definition issue_order (perfmon has_dev_quals has_dest : bool) : list cmd_kind :=
  (if perfmon then [K_marker] else []) ++
  [K_copyin_control; K_copyin_source] ++
  (if has_dest then [K_copyin_dest_head] else []) ++
  (if perfmon then [K_marker] else []) ++
  (if has_dev_quals then [K_launch_quals] else []) ++
  (if has_dest then [K_launch_projection] else []) ++
  (if perfmon then [K_marker] else []) ++
  [K_copyout_control] ++
  (if has_dest then [K_copyout_dest] else []) ++
  (if perfmon then [K_marker] else []) ++
  [K_callback].

Definition has_dev_quals (gss : GpuScanState) : bool :=
  match dev_quals gss with [] => false | _ :: _ => true end.

Section IssueSequence.
Context {KL : KernLayout}.
Variable drv : cuda_driver.

(** The length __pgstrom_process_gpuscan asks gpuMemAlloc for. *)
Definition device_memory_length (g : pgstrom_gpuscan) : Z :=
  let length := GPUMEMALIGN (KERN_GPUSCAN_LENGTH (kern g)) +
                GPUMEMALIGN (KERN_DATA_STORE_LENGTH (kds (pds_src g))) in
  match pds_dst g with
  | Some pds_dst => length + GPUMEMALIGN (KERN_DATA_STORE_LENGTH (kds pds_dst))
  | None => length
  end.

(** The commands, with their operands, that are put on the stream for
    task [g] once its device memory [m] and its two kernel functions are
    known, when no driver call fails. *)
Definition issue_commands (m : CUdeviceptr) (quals proj : CUfunction)
                          (gss : GpuScanState) (g : pgstrom_gpuscan)
  : list stream_cmd :=
  let perfmon := pfm_enabled (task_pfm (task g)) in
  let marker ev := if perfmon then [CmdEventRecord ev (drv_new_event drv ev)] else [] in
  let kds_src := kds (pds_src g) in
  let m_src := m + GPUMEMALIGN (KERN_GPUSCAN_LENGTH (kern g)) in
  let m_dst := if is_some (pds_dst g)
               then m_src + GPUMEMALIGN (KERN_DATA_STORE_LENGTH kds_src) else 0 in
  let launch f kern_args :=
    let '(grid_size, block_size) :=
      pgstrom_compute_workgroup_size f (cuda_device (task g)) false
                                     (kds_nitems kds_src) sizeof_kern_errorbuf in
    CmdLaunchKernel f grid_size block_size (sizeof_kern_errorbuf * block_size) kern_args in
  marker EV_dma_send_start ++
  [CmdMemcpyHtoD m (Host_kern (KERN_GPUSCAN_DMASEND_OFFSET (kern g)))
                 (KERN_GPUSCAN_DMASEND_LENGTH (kern g));
   CmdMemcpyHtoD m_src Host_kds_src (KERN_DATA_STORE_LENGTH kds_src)] ++
  match pds_dst g with
  | Some pds_dst =>
      [CmdMemcpyHtoD m_dst Host_kds_dst (KERN_DATA_STORE_HEAD_LENGTH (kds pds_dst))]
  | None => []
  end ++
  marker EV_dma_send_stop ++
  (if has_dev_quals gss then [launch quals [m; m_src]] else []) ++
  (if is_some (pds_dst g) then [launch proj [m; m_src; m_dst]] else []) ++
  marker EV_dma_recv_start ++
  [CmdMemcpyDtoH (Host_kern (KERN_GPUSCAN_DMARECV_OFFSET (kern g)))
                 (m + KERN_GPUSCAN_DMARECV_OFFSET (kern g))
                 (KERN_GPUSCAN_DMARECV_LENGTH
                    (kern g)
                    (if is_some (pds_dst g) then 0%N else kds_nitems kds_src))] ++
  match pds_dst g with
  | Some pds_dst => [CmdMemcpyDtoH Host_kds_dst m_dst (KERN_DATA_STORE_LENGTH (kds pds_dst))]
  | None => []
  end ++
  marker EV_dma_recv_stop ++
  [CmdAddCallback Callback_respond_gpuscan].

(** The same for a run of __pgstrom_process_gpuscan from its start: the
    device memory is what gpuMemAlloc hands out, the kernel functions are
    the two that cuModuleGetFunction looks up. *)
Definition issue_sequence (gss : GpuScanState) (g : pgstrom_gpuscan) : list stream_cmd :=
  issue_commands (drv_mem_alloc drv (device_memory_length g))
                 (Some "gpuscan_exec_quals"%string)
                 (Some (projection_kernel_name gss))
                 gss g.

End IssueSequence.

(* ===================================================================== *)
(** ** Vocabulary of the statements *)
(* ===================================================================== *)

Section PlanVocabulary.
Context {CG : Codegen}.

Definition host_only (rinfo : RestrictInfo) : bool :=
  negb (pgstrom_codegen_available_expression (ri_clause rinfo)).

Definition device_capable (rinfo : RestrictInfo) : bool :=
  pgstrom_codegen_available_expression (ri_clause rinfo).

(** The device qualifiers a plan carries, as gpuscan_begin reads them. *)
Definition plan_dev_quals (cscan : CustomScan) : list Node :=
  match deform_gpuscan_info cscan with
  | Some gs_info => gs_dev_quals gs_info
  | None => []
  end.

End PlanVocabulary.

(** The device function that accepts every row. *)
Definition quals_eval_always_true : string :=
  "STATIC_FUNCTION(cl_bool)" +++ nl +++
  "gpuscan_quals_eval(kern_context *kcxt," +++ nl +++
  "                   kern_data_store *kds," +++ nl +++
  "                   size_t kds_index)" +++ nl +++
  "{" +++ nl +++
  "  return true;" +++ nl +++
  "}" +++ nl.

(** [wp c Q w]: running [c] from world [w] ends with a result and a world
    that satisfy [Q]. *)
Definition wp {A : Type} (c : M A) (Q : result A -> world -> Prop) (w : world) : Prop :=
  Q (fst (c w)) (snd (c w)).

Arguments wp : simpl never.

(** Every event handle, kernel function pointer and device memory handle
    of the task is NULL or zero. *)
Definition cuda_resources_released (g : pgstrom_gpuscan) : Prop :=
  ev_dma_send_start g = 0 /\ ev_dma_send_stop g = 0 /\
  ev_dma_recv_start g = 0 /\ ev_dma_recv_stop g = 0 /\
  kern_exec_quals g = None /\ kern_dev_proj g = None /\
  m_gpuscan g = 0 /\ m_kds_src g = 0 /\ m_kds_dst g = 0.

(** The log entries that destroy an event or free device memory. *)
Definition releases (e : driver_event) : bool :=
  match e with
  | DrvEventDestroy _ | DrvMemFree _ => true
  | _ => false
  end.

Section ProcessVocabulary.
Context {KL : KernLayout}.
Variable drv : cuda_driver.

(** After the device memory is there: the stream grows by a prefix of
    [issue_commands], by all of it when the routine returns, and the
    routine returns nothing but true. *)
Definition enqueue_post (gss : GpuScanState) (w0 : world)
  : result bool -> world -> Prop :=
  fun r w' =>
    let g := w_gpuscan w0 in
    let expected :=
      issue_commands drv (m_gpuscan g) (kern_exec_quals g) (kern_dev_proj g) gss g in
    (exists n, w_stream w' = w_stream w0 ++ firstn n expected) /\
    (r = Ok true -> w_stream w' = w_stream w0 ++ expected) /\
    (forall b, r = Ok b -> b = true).

Definition process_post (gss : GpuScanState) (w0 : world)
  : result bool -> world -> Prop :=
  fun r w' =>
    let g := w_gpuscan w0 in
    let expected := issue_sequence drv gss g in
    (exists n, w_stream w' = w_stream w0 ++ firstn n expected) /\
    (r = Ok true -> w_stream w' = w_stream w0 ++ expected) /\
    (r = Ok false -> drv_mem_alloc drv (device_memory_length g) = 0
                     /\ w_stream w' = w_stream w0).

End ProcessVocabulary.

(** The world in which the out_of_resource label is reached: both kernel
    functions looked up, gpuMemAlloc called and answered with 0. *)
Definition world_out_of_resource {KL : KernLayout} (gss : GpuScanState) (w : world) : world :=
  let g := w_gpuscan w in
  mkWorld (set_m_gpuscan 0
             (set_kern_dev_proj (Some (projection_kernel_name gss))
                (set_kern_exec_quals (Some "gpuscan_exec_quals"%string) g)))
          (w_stream w)
          (w_log w ++ [DrvGetFunction "gpuscan_exec_quals"] ++
           [DrvGetFunction (projection_kernel_name gss)] ++
           [DrvMemAlloc (device_memory_length g) 0]).

Section ChunkVocabulary.
Context {DS : DataStore}.

(** The data store a round of gpuscan_next_chunk starts with. *)
Definition fresh_store (gss : GpuScanState) : pgstrom_data_store :=
  set_table_oid (pgstrom_create_data_store_row pgstrom_chunk_size)
                (scan_rel_oid (gts gss)).

(** A data store is created empty. *)
Definition created_empty : Prop :=
  forall length, kds_nitems (kds (pgstrom_create_data_store_row length)) = 0%N.

(** The first block offered to a new data store is taken. *)
Definition first_block_fits : Prop :=
  forall gss blknum,
    0 <= fst (pgstrom_data_store_insert_block (fresh_store gss) blknum).

End ChunkVocabulary.

Definition set_curr_task (gss : GpuScanState) (t : option pgstrom_gpuscan) : GpuScanState :=
  let g := gts gss in
  mkGss (mkGts (be_row_format g) (kern_params_length g) (scan_rel_oid g)
               (pfm_accum_enabled g) t (curr_index g)
               (running_tasks g) (num_running_tasks g)
               (completed_tasks g) (num_completed_tasks g))
        (curr_blknum gss) (last_blknum gss) (dev_quals gss) (dev_projection gss)
        (base_fixed_width gss) (proj_fixed_width gss) (proj_extra_width gss)
        (num_rechecked gss).

(** The alignments PostgreSQL knows: char, short, int, double. *)
Definition is_typalign (a : Z) : Prop := a = 1 \/ a = 2 \/ a = 4 \/ a = 8.

Section ProjectionVocabulary.
Context {CG : Codegen}.

(** The alignment of every fixed-length indirect type that the target
    list computes is one PostgreSQL knows. *)
Definition indirect_alignments_ok (scan_tlist : list TargetEntry) : Prop :=
  forall tle dtype,
    In tle scan_tlist ->
    IsA_Var (tle_expr tle) = false ->
    pgstrom_devtype_lookup (exprType (tle_expr tle)) = Some dtype ->
    is_typalign (type_align dtype).

(** No numeric that the target list computes is null in the row. *)
Definition numerics_not_null (temp_v : Z -> temp_var)
                             (scan_tlist : list TargetEntry) : Prop :=
  forall tle,
    In tle scan_tlist ->
    IsA_Var (tle_expr tle) = false ->
    exprType (tle_expr tle) = NUMERICOID ->
    tv_isnull (temp_v (tle_resno tle)) = false.

End ProjectionVocabulary.

(** How often a character occurs in a text. *)
Fixpoint count_char (c : ascii) (s : string) : nat :=
  match s with
  | EmptyString => O
  | String c' s' => (if Ascii.eqb c c' then 1 else 0) + count_char c s'
  end.

(* ===================================================================== *)
(** ** Instances for the examples *)
(* ===================================================================== *)

Definition sample_gs_info : GpuScanInfo :=
  mkGpuScanInfo (Some "STATIC_FUNCTION(cl_bool) gpuscan_quals_eval"%string) 3
                [T_String (Some "f_int4lt"%string)] [T_Expr 7] [T_Var 1 2]
                [T_Expr 11] 12 20 (-1).

(** A code generator for examples: it accepts the expressions with an even
    identifier, prints an expression as a fixed text and knows the device
    types int4 (by value) and numeric. *)
Definition example_codegen : Codegen := {|
  pgstrom_codegen_available_expression :=
    fun n => match n with T_Expr i => Z.even i | _ => false end;
  pgstrom_codegen_expression := fun _ ctx => ("KVAR_1"%string, ctx);
  pgstrom_codegen_param_declarations := fun _ => EmptyString;
  pgstrom_codegen_var_declarations := fun _ => EmptyString;
  pgstrom_devtype_lookup :=
    fun oid => if oid =? NUMERICOID then Some (mkDevtype "numeric" false 4 (-1))
               else if oid =? 23 then Some (mkDevtype "int4" true 4 4)
               else None;
  exprType := fun n => match n with T_Expr i => if i <? 100 then 23 else NUMERICOID | _ => 0 end;
  DEVKERNEL_NEEDS_GPUSCAN := 16
|}.

(** A device runtime for examples: the varlena image of the numeric zero
    takes six bytes, that of any other value eight. *)
Definition example_runtime : DeviceRuntime := {|
  pg_numeric_to_varlena := fun value _ => if value =? 0 then 6 else 8
|}.

(** One computed numeric column. *)
Definition numeric_tlist : list TargetEntry := [mkTargetEntry (T_Expr 100) 1].

(** Two computed numeric columns, and a row in which the first is NULL
    and the second is zero. *)
Definition two_numeric_tlist : list TargetEntry :=
  [mkTargetEntry (T_Expr 100) 1; mkTargetEntry (T_Expr 101) 2].

Definition first_null_row (resno : Z) : temp_var :=
  if resno =? 1 then mkTempVar true 0 else mkTempVar false 0.

(** A layout with round numbers. *)
Definition example_layout : KernLayout := {|
  STROMALIGN := fun z => (z + 15) / 16 * 16;
  GPUMEMALIGN := fun z => (z + 1023) / 1024 * 1024;
  offsetof_pgstrom_gpuscan_kparams := 256;
  offsetof_kern_resultbuf_results := fun n => 24 + 4 * Z.of_N n;
  sizeof_kern_errorbuf := 12;
  KERN_GPUSCAN_LENGTH :=
    fun k => 16 + kparams_length k + 24 + 4 * Z.of_N (nrooms (kresults k));
  KERN_GPUSCAN_DMASEND_OFFSET := fun _ => 0;
  KERN_GPUSCAN_DMASEND_LENGTH := fun k => 16 + kparams_length k + 24;
  KERN_GPUSCAN_DMARECV_OFFSET := fun k => 16 + kparams_length k;
  KERN_GPUSCAN_DMARECV_LENGTH := fun _ n => 24 + 4 * Z.of_N n;
  KERN_DATA_STORE_LENGTH := fun k => kds_length k;
  KERN_DATA_STORE_HEAD_LENGTH := fun _ => 64;
  pgstrom_compute_workgroup_size := fun _ _ _ n _ => ((Z.of_N n + 255) / 256, 256);
  StromError_Success := 0;
  StromKernel_CudaRuntime := 2
|}.

(** A relation that starts with a hole: its blocks 0 to 7 hold no visible
    tuple, the blocks after them hold three each.  A row store takes
    blocks until it holds six tuples or has read as many blocks as its
    length says. *)
Definition example_datastore : DataStore := {|
  pgstrom_chunk_size := 4;
  pgstrom_create_data_store_row := fun length => mkPds (mkKds length 0 0);
  pgstrom_create_data_store_slot := fun nrooms length =>
    mkPds (mkKds (64 + 16 * Z.of_N nrooms + length) 0 0);
  pgstrom_data_store_insert_block := fun pds blknum =>
    let k := kds pds in
    if (6 <=? kds_nitems k)%N || (kds_length k <=? 0)
    then (-1, pds)
    else (0, mkPds (mkKds (kds_length k - 1)
                          (kds_nitems k + (if blknum <? 8 then 0 else 3))%N
                          (kds_table_oid k)));
  pgstrom_fetch_data_store := fun pds index =>
    if (index <? kds_nitems (kds pds))%N then Some (1000 + Z.of_N index) else None;
  pgstrom_init_gputask := fun gts =>
    mkGpuTask (mkErrorbuf 0 0 0)
              (mkPerfmon (pfm_accum_enabled gts) 0 0 0 0 0)
              false 7 0 3 5
|}.

(** A driver that grants everything. *)
Definition driver_ok : cuda_driver :=
  mkDriver (fun _ => CUDA_SUCCESS) (fun _ => 65536)
           (fun ev => match ev with
                      | EV_dma_send_start => 11
                      | EV_dma_send_stop => 12
                      | EV_dma_recv_start => 13
                      | EV_dma_recv_stop => 14
                      end).

(** A driver that is out of device memory. *)
Definition driver_no_memory : cuda_driver :=
  mkDriver (fun _ => CUDA_SUCCESS) (fun _ => 0) (drv_new_event driver_ok).

Definition example_gts (row_format : bool) : GpuTaskState :=
  mkGts row_format 40 16384 false None 0%N [] 0 [] 0.

(** A scan in slot format with one device qualifier. *)
Definition example_gss : GpuScanState :=
  mkGss (example_gts false) 0%N 10%N [T_Expr 2] true 8 12 0 0.

Definition example_source : pgstrom_data_store := mkPds (mkKds 2048 3%N 16384).

Definition example_task : pgstrom_gpuscan :=
  create_pgstrom_gpuscan_task (DS := example_datastore) (KL := example_layout)
                              example_gss example_source.

(** A scan of a relation without blocks. *)
Definition empty_relation_gss : GpuScanState :=
  mkGss (example_gts true) 0%N 0%N [T_Expr 2] false 8 8 0 0.

(** A row-format scan without device projection. *)
Definition row_scan_gss : GpuScanState :=
  mkGss (example_gts true) 0%N 10%N [T_Expr 2] false 8 8 0 0.


(* ===================================================================== *)
(** ** What a run of pgstrom_process_gpuscan leaves behind *)
(* ===================================================================== *)

(** The log entries of a switch of the CUDA context: a push, a pop, or the
    warning that stands for a pop the driver refused. *)
Definition ctx_switch (e : driver_event) : bool :=
  match e with
  | DrvCtxPush _ | DrvCtxPop => true
  | DrvWarning msg => String.eqb msg "failed on cuCtxPopCurrent"
  | _ => false
  end.

(** What a run adds to the log holds no switch of the CUDA context. *)
Definition log_keeps_context (w0 w' : world) : Prop :=
  exists added, w_log w' = w_log w0 ++ added /\
                Forall (fun e => ctx_switch e = false) added.

(** The bytes and the number of the copies to the device, and of the copies
    back, among the commands of a stream; the number of launches of the
    kernel gpuscan_exec_quals; whether the callback is registered. *)
Definition htod_bytes (st : list stream_cmd) : Z :=
  fold_right (fun c acc => match c with
                           | CmdMemcpyHtoD _ _ len => len + acc
                           | _ => acc
                           end) 0 st.

Definition htod_count (st : list stream_cmd) : Z :=
  fold_right (fun c acc => match c with
                           | CmdMemcpyHtoD _ _ _ => 1 + acc
                           | _ => acc
                           end) 0 st.

Definition dtoh_bytes (st : list stream_cmd) : Z :=
  fold_right (fun c acc => match c with
                           | CmdMemcpyDtoH _ _ len => len + acc
                           | _ => acc
                           end) 0 st.

Definition dtoh_count (st : list stream_cmd) : Z :=
  fold_right (fun c acc => match c with
                           | CmdMemcpyDtoH _ _ _ => 1 + acc
                           | _ => acc
                           end) 0 st.

Definition quals_launches (st : list stream_cmd) : Z :=
  fold_right (fun c acc => match kind_of c with
                           | K_launch_quals => 1 + acc
                           | _ => acc
                           end) 0 st.

Definition callback_registered (st : list stream_cmd) : bool :=
  existsb (fun c => match c with CmdAddCallback _ => true | _ => false end) st.

(** The counters of a task's performance monitor have moved by what the
    commands [added] to its stream amount to. *)
Definition perfmon_counts (p p' : pgstrom_perfmon) (added : list stream_cmd) : Prop :=
  bytes_dma_send p' = bytes_dma_send p + htod_bytes added /\
  num_dma_send p' = num_dma_send p + htod_count added /\
  bytes_dma_recv p' = bytes_dma_recv p + dtoh_bytes added /\
  num_dma_recv p' = num_dma_recv p + dtoh_count added /\
  num_kern_qual p' = num_kern_qual p + quals_launches added /\
  pfm_enabled p' = pfm_enabled p.

Section ProcessFrame.
Context {KL : KernLayout}.
Variable drv : cuda_driver.

(** Where __pgstrom_process_gpuscan puts the source and the destination
    chunk of task [g] when the allocation starts at [m]. *)
Definition device_layout (m : CUdeviceptr) (g : pgstrom_gpuscan)
  : CUdeviceptr * CUdeviceptr :=
  let m_src := m + GPUMEMALIGN (KERN_GPUSCAN_LENGTH (kern g)) in
  (m_src,
   if is_some (pds_dst g)
   then m_src + GPUMEMALIGN (KERN_DATA_STORE_LENGTH (kds (pds_src g)))
   else 0).

(** What the enqueueing part keeps and sets, however it ends. *)
Definition enqueue_frame (w0 : world) : result bool -> world -> Prop :=
  fun r w' =>
    let g := w_gpuscan w0 in
    let g' := w_gpuscan w' in
    (forall b, r = Ok b -> b = true) /\
    m_gpuscan g' = m_gpuscan g /\
    (m_kds_src g', m_kds_dst g') = device_layout (m_gpuscan g) g /\
    kern_exec_quals g' = kern_exec_quals g /\
    kern_dev_proj g' = kern_dev_proj g /\
    pds_src g' = pds_src g /\ pds_dst g' = pds_dst g /\ kern g' = kern g /\
    log_keeps_context w0 w'.

(** The same for __pgstrom_process_gpuscan as a whole. *)
Definition process_frame (gss : GpuScanState) (w0 : world)
  : result bool -> world -> Prop :=
  fun r w' =>
    let g := w_gpuscan w0 in
    let g' := w_gpuscan w' in
    let m := drv_mem_alloc drv (device_memory_length g) in
    (r = Ok true ->
     m <> 0 /\ m_gpuscan g' = m /\
     (m_kds_src g', m_kds_dst g') = device_layout m g /\
     kern_exec_quals g' = Some "gpuscan_exec_quals"%string /\
     kern_dev_proj g' = Some (projection_kernel_name gss)) /\
    (r = Ok false -> cuda_resources_released g') /\
    pds_src g' = pds_src g /\ pds_dst g' = pds_dst g /\ kern g' = kern g /\
    log_keeps_context w0 w'.

(** The counters follow the stream, and the callback is on the stream
    exactly when the routine returns true. *)
Definition stream_accounted (w0 : world) : result bool -> world -> Prop :=
  fun r w' =>
    exists added,
      w_stream w' = w_stream w0 ++ added /\
      perfmon_counts (task_pfm (task (w_gpuscan w0)))
                     (task_pfm (task (w_gpuscan w'))) added /\
      callback_registered added =
        match r with Ok true => true | _ => false end.

End ProcessFrame.

Section ProcessEntry.
Context {KL : KernLayout}.
Variable drv : cuda_driver.

(** The log entry cuCtxPopCurrent leaves: the pop, or the warning when
    the driver refuses. *)
Definition ctx_closing : driver_event :=
  if drv_rc drv Site_cuCtxPopCurrent =? CUDA_SUCCESS
  then DrvCtxPop
  else DrvWarning "failed on cuCtxPopCurrent".

Definition log_entry (e : driver_event) (w : world) : world :=
  mkWorld (w_gpuscan w) (w_stream w) (w_log w ++ [e]).

End ProcessEntry.

(* ===================================================================== *)
(** ** The task lists of a GpuTaskState *)
(* ===================================================================== *)

(** The two counters of a GpuTaskState agree with its lists, and no task
    is linked twice. *)
Definition task_lists_consistent (g : GpuTaskState) : Prop :=
  num_running_tasks g = Z.of_nat (List.length (running_tasks g)) /\
  num_completed_tasks g = Z.of_nat (List.length (completed_tasks g)) /\
  NoDup (running_tasks g ++ completed_tasks g).

(** The task the callback is called for is on the running list when its
    chain node is linked, and on no list when it is not (the callback can
    come before cuda_control.c has attached the task). *)
Definition task_is_running (be : backend) : Prop :=
  if chain_linked (task (be_gpuscan be))
  then In (be_self be) (running_tasks (be_gts be))
  else ~ In (be_self be) (running_tasks (be_gts be) ++ completed_tasks (be_gts be)).

(** A backend whose transaction is in progress, with the task at 4096
    running. *)
Definition example_backend_running : backend :=
  mkBackend 4096 (set_chain_linked true example_task)
            (mkGts false 40 16384 false None 0%N [4096; 8192] 2 [12288] 1)
            true false [].

(* ===================================================================== *)
(** ** gpuscan_exec_bulk *)
(* ===================================================================== *)

Section BulkExecutor.
Context {DS : DataStore}.

(** The loop [while (gss->curr_blknum < gss->last_blknum)] of
    gpuscan_exec_bulk with its local [pds]: a round creates a row store,
    fills it block by block and leaves the loop when the store holds a
    row; a store without rows is released and [pds] set back to NULL.
    Nothing bounds the rounds, so the loop takes fuel; [None] is fuel
    exhausted.  The tuple descriptor of the scan slot is fixed for the
    scan, as the relation and the snapshot are. *)
Fixpoint exec_bulk_loop (fuel : nat) (gss : GpuScanState)
  : option (option pgstrom_data_store * GpuScanState) :=
  match fuel with
  | O => None
  | S fuel' =>
      if (curr_blknum gss <? last_blknum gss)%N then
        let pds := pgstrom_create_data_store_row pgstrom_chunk_size in
        (* fill up this data store *)
        let '(pds, curr) := fill_data_store pds (curr_blknum gss) (last_blknum gss) in
        let gss := set_curr_blknum gss curr in
        if (0 <? kds_nitems (kds pds))%N then Some (Some pds, gss)
        else
          (* pgstrom_release_data_store(pds); pds = NULL; *)
          exec_bulk_loop fuel' gss
      else Some (None, gss)
  end.

(** gpuscan_exec_bulk: the data store returned (NULL is [None]) and the
    scan state afterwards. *)
Definition gpuscan_exec_bulk (fuel : nat) (gss : GpuScanState)
  : option (option pgstrom_data_store * GpuScanState) :=
  exec_bulk_loop fuel gss.

(** The first block offered to the row store of a round of
    gpuscan_exec_bulk is taken. *)
Definition bulk_first_block_fits : Prop :=
  forall blknum,
    0 <= fst (pgstrom_data_store_insert_block
                (pgstrom_create_data_store_row pgstrom_chunk_size) blknum).

(** A block that is refused leaves the rows of the store as they are. *)
Definition refused_block_adds_nothing : Prop :=
  forall pds blknum,
    fst (pgstrom_data_store_insert_block pds blknum) < 0 ->
    kds_nitems (kds (snd (pgstrom_data_store_insert_block pds blknum))) =
    kds_nitems (kds pds).

(** [n] calls of gpuscan_next_tuple in a row: what each returned, oldest
    first, and the scan state after the last. *)
Fixpoint next_tuples (n : nat) (gss : GpuScanState)
  : list next_tuple_result * GpuScanState :=
  match n with
  | O => ([], gss)
  | S n' =>
      let '(slot, gss) := gpuscan_next_tuple gss in
      let '(slots, gss) := next_tuples n' gss in
      (slot :: slots, gss)
  end.

(** What the call for row [i] of destination chunk [dst] returns. *)
Definition fetched (dst : pgstrom_data_store) (i : nat) : next_tuple_result :=
  match pgstrom_fetch_data_store dst (N.of_nat i) with
  | Some tup => SlotTuple tup
  | None => NextElog "failed to fetch a record from pds"
  end.

End BulkExecutor.

(** A scan state whose current task is the example task, a task with a
    destination chunk of three rooms that the example data store reads
    as rows 1000, 1001 and 1002. *)
Definition example_dest : pgstrom_data_store := mkPds (mkKds 112 3%N 0).

Definition example_drain_gss : GpuScanState :=
  set_curr_task example_gss
    (Some (mkGpuscan (task example_task) None None 0 0 0 0 0 0 0
                     example_source (Some example_dest)
                     (kern example_task) (alloc_length example_task))).

(* ===================================================================== *)
(** ** Paths, plans and scan states as the planner entry points see them *)
(* ===================================================================== *)

(** C's [double]: IEEE 754 binary64. *)
Definition double : Type := float.

(** C's [Min] on doubles: [((x) < (y) ? (x) : (y))]. *)
Definition Min (x y : double) : double := if (x <? y)%float then x else y.

(** The conversion of an unsigned 32 bit integer to double. *)
Definition double_of_uint32 (z : Z) : double :=
  PrimFloat.of_uint63 (Uint63.of_Z (to_uint32 z)).

Inductive NodeTag : Type :=
| T_Invalid
| T_CustomScan.

Inductive RTEKind : Type :=
| RTE_RELATION
| RTE_SUBQUERY
| RTE_JOIN
| RTE_FUNCTION
| RTE_VALUES
| RTE_CTE.

Definition RTEKind_eqb (a b : RTEKind) : bool :=
  match a, b with
  | RTE_RELATION, RTE_RELATION | RTE_SUBQUERY, RTE_SUBQUERY
  | RTE_JOIN, RTE_JOIN | RTE_FUNCTION, RTE_FUNCTION
  | RTE_VALUES, RTE_VALUES | RTE_CTE, RTE_CTE => true
  | _, _ => false
  end.

(** pg_class.h *)
Definition RELKIND_RELATION : ascii := "r"%char.
Definition RELKIND_TOASTVALUE : ascii := "t"%char.
Definition RELKIND_MATVIEW : ascii := "m"%char.

Record RangeTblEntry : Type := mkRte {
  rte_rtekind : RTEKind;
  rte_relid : Z;
  rte_relkind : ascii
}.

(** [rt_fetch(rangetable_index, rangetable)] is
    [list_nth(rangetable, rangetable_index - 1)]. *)
Definition rt_fetch (rangetable_index : Z) (rangetable : list RangeTblEntry)
  : option RangeTblEntry :=
  if rangetable_index <=? 0 then None
  else list_nth rangetable (Z.to_nat (rangetable_index - 1)).

Record QualCost : Type := mkQualCost {
  qc_startup : double;
  qc_per_tuple : double
}.

Record ParamPathInfo : Type := mkParamPathInfo {
  ppi_rows : double;
  ppi_clauses : list RestrictInfo
}.

(** RelOptInfo: the fields gpuscan.c reads. *)
Record RelOptInfo : Type := mkRelOptInfo {
  rel_rtekind : RTEKind;
  rel_relid : Z;
  rel_baserestrictinfo : list RestrictInfo;
  rel_reltargetlist : list Node;
  rel_lateral_relids : list Z;
  rel_rows : double;
  rel_pages : Z;                      (* BlockNumber *)
  rel_tuples : double;
  rel_reltablespace : Z
}.

Inductive CustomPathMethods : Type :=
| no_path_methods
| gpuscan_path_methods.

(** CustomPath, with the fields of its Path. *)
Record CustomPath : Type := mkCustomPath {
  path_pathtype : NodeTag;
  path_parent : RelOptInfo;
  path_param_info : option ParamPathInfo;
  path_pathkeys : list Node;
  path_rows : double;
  path_startup_cost : double;
  path_total_cost : double;
  cpath_flags : Z;
  cpath_custom_private : list Node;
  cpath_methods : CustomPathMethods
}.

(** A Path pointer: a CustomPath, or a node of another kind. *)
Inductive Path : Type :=
| Path_CustomPath (cpath : CustomPath)
| Path_other (pathtype : NodeTag).

(** A Plan pointer: a CustomScan, or a node of another kind. *)
Inductive Plan : Type :=
| Plan_CustomScan (cscan : CustomScan)
| Plan_other.

(** The cost fields and the parameter sets of a Plan header, which the
    record CustomScan leaves out. *)
Record PlanHead : Type := mkPlanHead {
  plan_startup_cost : double;
  plan_total_cost : double;
  plan_rows : double;
  plan_width : Z;
  plan_extParam : list Z;
  plan_allParam : list Z
}.

Definition set_plan_rows (plan : PlanHead) (rows : double) : PlanHead :=
  mkPlanHead (plan_startup_cost plan) (plan_total_cost plan) rows
             (plan_width plan) (plan_extParam plan) (plan_allParam plan).

Record SeqScan : Type := mkSeqScan {
  seq_plan : PlanHead;
  seq_targetlist : list Node;
  seq_qual : list Node;
  seq_scanrelid : Z
}.

(** A CustomScan node in full: its Plan header, the fields of the record
    CustomScan, and custom_relids. *)
Record CustomScanPlan : Type := mkCustomScanPlan {
  csp_plan : PlanHead;
  csp_cscan : CustomScan;
  csp_custom_relids : list Z
}.

Inductive PGStromExecMethods : Type :=
| no_exec_methods
| gpuscan_exec_methods
| bulkscan_exec_methods.

(** The CustomScanState at the head of a GpuScanState: the fields that
    gpuscan_create_scan_state sets and pgstrom_gpuscan_setup_bulkslot
    reads. *)
Record CustomScanState : Type := mkCustomScanState {
  css_flags : Z;
  css_methods : PGStromExecMethods;
  css_ps_ProjInfo : Z;                (* ss.ps.ps_ProjInfo, 0 is NULL *)
  css_ss_ScanTupleSlot : Z            (* ss.ss_ScanTupleSlot, 0 is NULL *)
}.

(** A PlanState pointer: a CustomScanState, or a node of another kind. *)
Inductive PlanState : Type :=
| PlanState_CustomScanState (css : CustomScanState)
| PlanState_other.

(** What gpuscan_add_scan_path does to the planner. *)
Inductive planner_event : Type :=
| CallNextHook                        (* set_rel_pathlist_next(...) *)
| AddPath (cpath : CustomPath).       (* add_path(baserel, &pathnode->path) *)

(** PostgreSQL's planner and catalog functions, the cost parameters, and
    the configuration variables that the planner entry points of
    gpuscan.c read; none is defined under src/.  A target list is kept as
    a list of nodes, [TargetEntry_expr] reads the expr field of one. *)
Class PlannerBackend : Type := {
  set_rel_pathlist_next : bool;       (* a secondary hook is installed *)
  pgstrom_enabled : bool;
  enable_gpuscan : bool;
  pgstrom_bulkload_enabled : bool;
  get_rel_namespace : Z -> Z;
  PG_CATALOG_NAMESPACE : Z;
  get_baserel_parampathinfo : RelOptInfo -> list Z -> option ParamPathInfo;
  estimate_num_chunks : double -> RelOptInfo -> Z;
  get_tablespace_page_costs : Z -> double;
  cost_qual_eval : list RestrictInfo -> QualCost;
  clauselist_selectivity : list RestrictInfo -> double;
  pgstrom_gpu_setup_cost : double;
  pgstrom_gpu_tuple_cost : double;
  cpu_tuple_cost : double;
  disable_cost : double;
  CUSTOMPATH_SUPPORT_BULKLOAD : Z;
  estimate_rel_size : Z -> double;    (* num_tuples of the relation *)
  TargetEntry_expr : Node -> Node
}.

Section PlannerEntryPoints.
Context {CG : Codegen} {PB : PlannerBackend}.

(* ===================================================================== *)
(** ** cost_gpuscan *)
(* ===================================================================== *)

(** The Path fields cost_gpuscan assigns: rows, startup_cost and
    total_cost. *)
Definition cost_gpuscan (baserel : RelOptInfo) (param_info : option ParamPathInfo)
                        (host_quals dev_quals : list RestrictInfo)
                        (is_bulkload : bool)
  : double * double * double :=
  let startup_cost := 0%float in
  let run_cost := 0%float in
  let startup_delay := 0%float in
  (* Mark the path with the correct row estimate *)
  let rows := match param_info with
              | Some pi => ppi_rows pi
              | None => rel_rows baserel
              end in
  let num_chunks := estimate_num_chunks rows baserel in
  (* fetch estimated page cost for tablespace containing table *)
  let spc_seq_page_cost := get_tablespace_page_costs (rel_reltablespace baserel) in
  (* Disk costs *)
  let run_cost := (run_cost + spc_seq_page_cost * double_of_uint32 (rel_pages baserel))%float in
  (* GPU costs *)
  let dev_cost := cost_qual_eval dev_quals in
  let dev_sel := clauselist_selectivity dev_quals in
  let dev_cost := mkQualCost (qc_startup dev_cost + pgstrom_gpu_setup_cost)%float
                             (qc_per_tuple dev_cost) in
  let dev_cost :=
    if (0 <? cpu_tuple_cost)%float
    then mkQualCost (qc_startup dev_cost)
                    (qc_per_tuple dev_cost * (pgstrom_gpu_tuple_cost / cpu_tuple_cost))%float
    else mkQualCost (qc_startup dev_cost) (qc_per_tuple dev_cost + disable_cost)%float in
  (* CPU costs *)
  let host_cost := cost_qual_eval host_quals in
  (* Adjustment for param info *)
  let host_cost :=
    match param_info with
    | Some pi =>
        (* Include costs of pushed-down clauses *)
        let param_cost := cost_qual_eval (ppi_clauses pi) in
        mkQualCost (qc_startup host_cost + qc_startup param_cost)%float
                   (qc_per_tuple host_cost + qc_per_tuple param_cost)%float
    | None => host_cost
    end in
  (* total path cost *)
  let startup_cost := (startup_cost + (qc_startup dev_cost + qc_startup host_cost))%float in
  let cpu_per_tuple :=
    if negb is_bulkload then (qc_per_tuple host_cost + cpu_tuple_cost)%float
    else qc_per_tuple host_cost in
  let gpu_per_tuple := qc_per_tuple dev_cost in
  let run_cost := (run_cost + gpu_per_tuple * rel_tuples baserel)%float in
  let startup_delay :=
    match dev_quals with
    | _ :: _ => (run_cost * (1 / double_of_uint32 num_chunks))%float
    | [] => startup_delay
    end in
  let run_cost := (run_cost + cpu_per_tuple * dev_sel * rel_tuples baserel)%float in
  (rows, (startup_cost + startup_delay)%float, (startup_cost + run_cost)%float).

(* ===================================================================== *)
(** ** gpuscan_add_scan_path *)
(* ===================================================================== *)

(** The foreach loop that sorts baserestrictinfo: the same test as in
    create_gpuscan_plan, with the branches the other way round. *)
Fixpoint classify_restrictinfo (clauses dev_quals host_quals : list RestrictInfo)
  : list RestrictInfo * list RestrictInfo :=
  match clauses with
  | [] => (dev_quals, host_quals)
  | rinfo :: rest =>
      if pgstrom_codegen_available_expression (ri_clause rinfo)
      then classify_restrictinfo rest (lappend dev_quals rinfo) host_quals
      else classify_restrictinfo rest dev_quals (lappend host_quals rinfo)
  end.

(** The foreach loop over reltargetlist, left by [break] at the first
    expression that is neither a Var nor device executable. *)
Fixpoint reltargetlist_support_bulkload (reltargetlist : list Node) : bool :=
  match reltargetlist with
  | [] => true
  | expr :: rest =>
      if negb (IsA_Var expr) && negb (pgstrom_codegen_available_expression expr)
      then false
      else reltargetlist_support_bulkload rest
  end.

Definition gpuscan_add_scan_path (baserel : RelOptInfo) (rtindex : Z)
                                 (rte : RangeTblEntry) : list planner_event :=
  (* call the secondary hook *)
  let called := if set_rel_pathlist_next then [CallNextHook] else [] in
  (* nothing to do, if either PG-Strom or GpuScan is not enabled *)
  if negb pgstrom_enabled || negb enable_gpuscan then called
  (* only base relation we can handle *)
  else if negb (RTEKind_eqb (rel_rtekind baserel) RTE_RELATION)
          || (rel_relid baserel =? 0) then called
  (* system catalog is not supported *)
  else if get_rel_namespace (rte_relid rte) =? PG_CATALOG_NAMESPACE then called
  else
    (* check whether the qualifier can run on GPU device, or not *)
    let '(dev_quals, host_quals) :=
      classify_restrictinfo (rel_baserestrictinfo baserel) [] [] in
    (* GpuScan does not make sense if no device qualifiers *)
    match dev_quals with
    | [] => called
    | _ :: _ =>
        (* Construction of a custom-plan node. *)
        let param_info :=
          get_baserel_parampathinfo baserel (rel_lateral_relids baserel) in
        let flags := 0 in
        (* cost estimation *)
        let '(rows, startup_cost, total_cost) :=
          cost_gpuscan baserel param_info host_quals dev_quals false in
        (* check bulk-load capability *)
        let flags :=
          match host_quals with
          | [] =>
              if reltargetlist_support_bulkload (rel_reltargetlist baserel)
              then Z.lor flags CUSTOMPATH_SUPPORT_BULKLOAD
              else flags
          | _ :: _ => flags
          end in
        called ++
        [AddPath (mkCustomPath T_CustomScan baserel param_info [] rows
                               startup_cost total_cost flags [] gpuscan_path_methods)]
    end.

(* ===================================================================== *)
(** ** pgstrom_path_is_gpuscan and pgstrom_plan_is_gpuscan *)
(* ===================================================================== *)

Definition pgstrom_path_is_gpuscan (path : Path) : bool :=
  match path with
  | Path_CustomPath cpath =>
      match path_pathtype cpath, cpath_methods cpath with
      | T_CustomScan, gpuscan_path_methods => true
      | _, _ => false
      end
  | Path_other _ => false
  end.

Definition pgstrom_plan_is_gpuscan (plan : Plan) : bool :=
  match plan with
  | Plan_CustomScan cscan =>
      match cs_methods cscan with
      | gpuscan_plan_methods | bulkscan_plan_methods => true
      | no_plan_methods => false
      end
  | Plan_other => false
  end.

(* ===================================================================== *)
(** ** assign_bare_ntuples, gpuscan_try_replace_seqscan and
       gpuscan_pullup_devquals *)
(* ===================================================================== *)

Definition assign_bare_ntuples (plannode : PlanHead) (rte : RangeTblEntry) : PlanHead :=
  set_plan_rows plannode (estimate_rel_size (rte_relid rte)).

(** The foreach loop over the target list of the SeqScan, left by
    [return NULL] at the first entry that is neither a Var nor device
    executable; [true] when the loop runs to its end. *)
Fixpoint targetlist_device_executable (targetlist : list Node) : bool :=
  match targetlist with
  | [] => true
  | tle :: rest =>
      if negb (IsA_Var (TargetEntry_expr tle))
         && negb (pgstrom_codegen_available_expression (TargetEntry_expr tle))
      then false
      else targetlist_device_executable rest
  end.

Definition set_cs_methods (cscan : CustomScan) (methods : CustomScanMethods) : CustomScan :=
  mkCustomScan (cs_targetlist cscan) (cs_qual cscan) (cs_scanrelid cscan)
               (cs_flags cscan) (cs_custom_private cscan) (cs_custom_exprs cscan)
               (cs_custom_scan_tlist cscan) methods.

(** What a bulk-load entry point hands back: the plan, and through its
    two pointer arguments the outer qualifiers and the outer ratio. *)
Record bulk_plan : Type := mkBulkPlan {
  bulk_node : CustomScanPlan;
  bulk_outer_quals : list Node;
  bulk_outer_ratio : double
}.

(** gpuscan_try_replace_seqscan: [Some None] is the NULL it returns; the
    outer [None] is a scanrelid outside the range table, where rt_fetch
    is not defined. *)
Definition gpuscan_try_replace_seqscan (seqscan : SeqScan)
                                       (range_tables : list RangeTblEntry)
  : option (option bulk_plan) :=
  if negb enable_gpuscan || negb pgstrom_bulkload_enabled then Some None
  else
    rte <-? rt_fetch (seq_scanrelid seqscan) range_tables ;;
    if negb (RTEKind_eqb (rte_rtekind rte) RTE_RELATION) then Some None
    else if negb (Ascii.eqb (rte_relkind rte) RELKIND_RELATION)
            && negb (Ascii.eqb (rte_relkind rte) RELKIND_TOASTVALUE)
            && negb (Ascii.eqb (rte_relkind rte) RELKIND_MATVIEW) then Some None
    (* Target-entry must be a simple varnode or device executable expression *)
    else if negb (targetlist_device_executable (seq_targetlist seqscan)) then Some None
    (* Any host-only qualifier prevents bulk-loading. *)
    else if negb (pgstrom_codegen_available_expression (T_List (seq_qual seqscan)))
    then Some None
    else
      let cscan := makeNode_CustomScan in
      let plan := mkPlanHead (plan_startup_cost (seq_plan seqscan))
                             (plan_total_cost (seq_plan seqscan))
                             0%float
                             (plan_width (seq_plan seqscan))
                             [] [] in
      let plan := assign_bare_ntuples plan rte in
      let plan := mkPlanHead (plan_startup_cost plan) (plan_total_cost plan)
                             (plan_rows plan) (plan_width plan)
                             (plan_extParam (seq_plan seqscan))
                             (plan_allParam (seq_plan seqscan)) in
      let cscan := mkCustomScan (seq_targetlist seqscan) [] (seq_scanrelid seqscan)
                                CUSTOMPATH_SUPPORT_BULKLOAD
                                (cs_custom_private cscan) (cs_custom_exprs cscan)
                                (cs_custom_scan_tlist cscan) (cs_methods cscan) in
      let gs_info := GpuScanInfo_zero in
      let cscan := form_gpuscan_info cscan gs_info in
      let cscan := set_cs_methods cscan bulkscan_plan_methods in
      Some (Some (mkBulkPlan
                    (mkCustomScanPlan plan cscan [seq_scanrelid seqscan])
                    (seq_qual seqscan)
                    (Min (plan_rows (seq_plan seqscan) / plan_rows plan)%float 1%float))).

(** gpuscan_pullup_devquals; [None] where rt_fetch or deform_gpuscan_info
    is not defined. *)
Definition gpuscan_pullup_devquals (plannode : CustomScanPlan)
                                   (range_tables : list RangeTblEntry)
  : option bulk_plan :=
  let cscan_old := csp_cscan plannode in
  rte <-? rt_fetch (cs_scanrelid cscan_old) range_tables ;;
  gs_info <-? deform_gpuscan_info cscan_old ;;
  match gs_dev_quals gs_info with
  | [] =>
      (* in case of nothing to be changed *)
      Some (mkBulkPlan plannode [] 1%float)
  | _ :: _ =>
      let outer_quals := gs_dev_quals gs_info in
      let plan_new := assign_bare_ntuples (csp_plan plannode) rte in
      let cscan_new := set_cs_methods cscan_old bulkscan_plan_methods in
      let gs_info := GpuScanInfo_zero in
      let cscan_new := form_gpuscan_info cscan_new gs_info in
      Some (mkBulkPlan
              (mkCustomScanPlan plan_new cscan_new (csp_custom_relids plannode))
              outer_quals
              (Min (plan_rows (csp_plan plannode) / plan_rows plan_new)%float 1%float))
  end.

(* ===================================================================== *)
(** ** gpuscan_create_scan_state and pgstrom_gpuscan_setup_bulkslot *)
(* ===================================================================== *)

(** palloc0(sizeof(GpuScanState)) *)
Definition GpuScanState_zero : GpuScanState :=
  mkGss (mkGts false 0 0 false None 0%N [] 0 [] 0) 0%N 0%N [] false 0 0 0 0.

(** gpuscan_create_scan_state: the head of the new node and the rest of
    the GpuScanState, which palloc0 has zeroed. *)
Definition gpuscan_create_scan_state (cscan : CustomScan)
  : result (CustomScanState * GpuScanState) :=
  let gss := GpuScanState_zero in
  (* Set tag and executor callbacks *)
  match cs_methods cscan with
  | gpuscan_plan_methods =>
      Ok (mkCustomScanState (cs_flags cscan) gpuscan_exec_methods 0 0, gss)
  | bulkscan_plan_methods =>
      Ok (mkCustomScanState (cs_flags cscan) bulkscan_exec_methods 0 0, gss)
  | no_plan_methods => Raised "Bug? unexpected CustomPlanMethods"
  end.

(** pgstrom_gpuscan_setup_bulkslot: what it stores through p_bulk_proj
    and p_bulk_slot. *)
Definition pgstrom_gpuscan_setup_bulkslot (outer_planstate : PlanState)
  : result (Z * Z) :=
  match outer_planstate with
  | PlanState_CustomScanState css =>
      match css_methods css with
      | gpuscan_exec_methods => Ok (css_ps_ProjInfo css, css_ss_ScanTupleSlot css)
      | _ => Raised "Bug? PlanState node is not GpuScanState"
      end
  | PlanState_other => Raised "Bug? PlanState node is not GpuScanState"
  end.

End PlannerEntryPoints.

(** A planner backend for examples: everything enabled, the catalog
    namespace 11, one tuple per relation identifier, and target entries
    that are their own expression. *)
Definition example_planner : PlannerBackend := {|
  set_rel_pathlist_next := true;
  pgstrom_enabled := true;
  enable_gpuscan := true;
  pgstrom_bulkload_enabled := true;
  get_rel_namespace := fun relid => if relid <? 16384 then 11 else 2200;
  PG_CATALOG_NAMESPACE := 11;
  get_baserel_parampathinfo := fun _ _ => None;
  estimate_num_chunks := fun _ _ => 4;
  get_tablespace_page_costs := fun _ => 1%float;
  cost_qual_eval := fun _ => mkQualCost 0%float 0.00390625%float;
  clauselist_selectivity := fun _ => 0.5%float;
  pgstrom_gpu_setup_cost := 4000%float;
  pgstrom_gpu_tuple_cost := 0.00006103515625%float;
  cpu_tuple_cost := 0.0078125%float;
  disable_cost := 10000000000%float;
  CUSTOMPATH_SUPPORT_BULKLOAD := 1;
  estimate_rel_size := fun relid => 1000%float;
  TargetEntry_expr := fun tle => tle
|}.

(** A code generator that also accepts a list of expressions it accepts
    one by one, as a qualifier list is handed to it. *)
Definition example_codegen_lists : Codegen := {|
  pgstrom_codegen_available_expression :=
    fun n => match n with
             | T_Expr i => Z.even i
             | T_List l =>
                 forallb (fun e => match e with T_Expr i => Z.even i | _ => false end) l
             | _ => false
             end;
  pgstrom_codegen_expression := fun _ ctx => ("KVAR_1"%string, ctx);
  pgstrom_codegen_param_declarations := fun _ => EmptyString;
  pgstrom_codegen_var_declarations := fun _ => EmptyString;
  pgstrom_devtype_lookup := fun _ => None;
  exprType := fun _ => 0;
  DEVKERNEL_NEEDS_GPUSCAN := 16
|}.

Definition example_rtable : list RangeTblEntry :=
  [mkRte RTE_RELATION 16384 RELKIND_RELATION].

(** A sequential scan of the first range table entry with a device
    executable qualifier, estimated at 250 rows. *)
Definition example_seqscan : SeqScan :=
  mkSeqScan (mkPlanHead 0%float 35.5%float 250%float 8 [] [])
            [T_Var 1 1; T_Expr 4] [T_Expr 2] 1.

(** The plan create_gpuscan_plan makes for two clauses, the first of them
    device executable, with costs beside it. *)
Definition example_gpuscan_plan : CustomScanPlan :=
  mkCustomScanPlan
    (mkPlanHead 0%float 35.5%float 250%float 8 [] [])
    (create_gpuscan_plan (CG := example_codegen) 1 0 [T_Var 1 1]
                         [mkRestrictInfo (T_Expr 2) false;
                          mkRestrictInfo (T_Expr 3) false])
    [1].

(** A base relation with those two restrictions. *)
Definition example_baserel : RelOptInfo :=
  mkRelOptInfo RTE_RELATION 1
               [mkRestrictInfo (T_Expr 2) false; mkRestrictInfo (T_Expr 3) false]
               [T_Var 1 1] [] 250%float 10 1000%float 0.

(* ===================================================================== *)
(** ** build_device_projection

    The projection builder reads Var nodes field by field, compares
    expressions with equal(), walks expression trees and builds new Var
    and TargetEntry nodes.  This module keeps the nodes in full: a Var
    with the fields equal() compares, an expression as a tree, a
    TargetEntry with its name and junk flag. *)
(* ===================================================================== *)

Module Projection.

(** primnodes.h and attnum.h *)
Definition INDEX_VAR : Z := 65002.
Definition InvalidAttrNumber : Z := 0.

(** A C [int16] (AttrNumber) kept in a [Z]: the value after conversion
    from an int wraps around. *)
Definition to_int16 (z : Z) : Z := (z + 2 ^ 15) mod 2 ^ 16 - 2 ^ 15.

(** [a[i]] on an array kept as a list: not defined outside its bounds. *)
Definition array_ref {A : Type} (a : list A) (i : Z) : option A :=
  if i <? 0 then None else nth_error a (Z.to_nat i).

Record Var : Type := mkVar {
  varno : Z;
  varattno : Z;                       (* AttrNumber *)
  vartype : Z;
  vartypmod : Z;
  varcollid : Z;
  varlevelsup : Z;
  varnoold : Z;
  varoattno : Z
}.

(** PostgreSQL's makeVar: varnoold and varoattno repeat varno and
    varattno. *)
Definition makeVar (varno varattno vartype vartypmod varcollid varlevelsup : Z) : Var :=
  mkVar varno varattno vartype vartypmod varcollid varlevelsup varno varattno.

(** An expression: a NULL pointer, a Var, or a node of another kind with
    its tag (and what else tells it from the nodes of its kind) and its
    children. *)
Inductive Expr : Type :=
| E_Null
| E_Var (var : Var)
| E_Node (tag : Z) (args : list Expr).

Record TargetEntry : Type := mkTargetEntry {
  expr : Expr;
  resno : Z;                          (* AttrNumber *)
  resname : option string;
  resjunk : bool
}.

(** PostgreSQL's makeTargetEntry; its resno parameter is an AttrNumber. *)
Definition makeTargetEntry (expr : Expr) (resno : Z) (resname : option string)
                           (resjunk : bool) : TargetEntry :=
  mkTargetEntry expr (to_int16 resno) resname resjunk.

(** The entries of a target list carry their position, counted from one,
    as resno. *)
Definition numbered (l : list TargetEntry) : Prop :=
  forall i tle, nth_error l i = Some tle -> resno tle = Z.of_nat i + 1.

(** [list_length] returns an int. *)
Definition list_length {A : Type} (l : list A) : Z := Z.of_nat (List.length l).

Definition Var_eqb (a b : Var) : bool :=
  (varno a =? varno b) && (varattno a =? varattno b) &&
  (vartype a =? vartype b) && (vartypmod a =? vartypmod b) &&
  (varcollid a =? varcollid b) && (varlevelsup a =? varlevelsup b) &&
  (varnoold a =? varnoold b) && (varoattno a =? varoattno b).

(** PostgreSQL's equal() on these nodes: two NULLs are equal, a NULL and
    a node are not, two nodes are equal when they are of the same kind
    and their fields are. *)
Fixpoint equal (a b : Expr) : bool :=
  match a, b with
  | E_Null, E_Null => true
  | E_Var x, E_Var y => Var_eqb x y
  | E_Node ta la, E_Node tb lb =>
      (ta =? tb) &&
      (fix equal_list (la lb : list Expr) : bool :=
         match la, lb with
         | [], [] => true
         | x :: la', y :: lb' => equal x y && equal_list la' lb'
         | _, _ => false
         end) la lb
  | _, _ => false
  end.

(** A Bitmapset, kept as the list of its members in increasing order.
    The loop [while ((prev = bms_next_member(a, prev)) >= 0)] visits the
    members in that order.  PostgreSQL's bms_add_member raises an error
    for a negative member; the facts below are about members that are
    not negative. *)
Definition Bitmapset : Type := list Z.

Fixpoint bms_add_member (a : Bitmapset) (x : Z) : Bitmapset :=
  match a with
  | [] => [x]
  | y :: rest =>
      if x <? y then x :: a
      else if x =? y then a
      else y :: bms_add_member rest x
  end.

(** pg_attribute: the fields gpuscan.c reads. *)
Record Form_pg_attribute : Type := mkAttribute {
  attnum : Z;                         (* int16 *)
  atttypid : Z;
  atttypmod : Z;
  attcollation : Z;
  attlen : Z;                         (* int16 *)
  attbyval : bool
}.

(** A tuple descriptor: [attrs], with [natts] its length. *)
Definition TupleDesc : Type := list Form_pg_attribute.
Definition natts (tupdesc : TupleDesc) : Z := list_length tupdesc.

(** PostgreSQL's and the code generator's functions on these nodes,
    none of them under src/. *)
Class TreeBackend : Type := {
  FirstLowInvalidHeapAttributeNumber : Z;
  pgstrom_codegen_available_expression : Expr -> bool;
  node_exprType : Z -> list Expr -> Z;
  node_exprTypmod : Z -> list Expr -> Z;
  node_exprCollation : Z -> list Expr -> Z;
  get_typlenbyval : Z -> Z * bool;
  SystemAttributeDefinition : Z -> Form_pg_attribute
}.

Section Builder.
Context {TB : TreeBackend}.

(** exprType, exprTypmod and exprCollation of nodeFuncs.c: a Var carries
    the three itself. *)
Definition exprType (e : Expr) : Z :=
  match e with
  | E_Null => 0
  | E_Var var => vartype var
  | E_Node tag args => node_exprType tag args
  end.

Definition exprTypmod (e : Expr) : Z :=
  match e with
  | E_Null => -1
  | E_Var var => vartypmod var
  | E_Node tag args => node_exprTypmod tag args
  end.

Definition exprCollation (e : Expr) : Z :=
  match e with
  | E_Null => 0
  | E_Var var => varcollid var
  | E_Node tag args => node_exprCollation tag args
  end.

(** pull_varattnos of var.c: the attribute numbers of the Vars of
    relation [varno] at level zero, offset by
    FirstLowInvalidHeapAttributeNumber. *)
Fixpoint pull_varattnos (node : Expr) (varno_ : Z) (varattnos : Bitmapset) : Bitmapset :=
  match node with
  | E_Null => varattnos
  | E_Var var =>
      if (varno var =? varno_) && (varlevelsup var =? 0)
      then bms_add_member varattnos
                          (varattno var - FirstLowInvalidHeapAttributeNumber)
      else varattnos
  | E_Node _ args =>
      fold_left (fun acc arg => pull_varattnos arg varno_ acc) args varattnos
  end.

(** The Vars of an expression, from left to right. *)
Fixpoint vars_of (e : Expr) : list Var :=
  match e with
  | E_Null => []
  | E_Var var => [var]
  | E_Node _ args => flat_map vars_of args
  end.

(** Var [var'] stands for Var [var] of the scanned relation through
    [scan_tlist]: it refers, by INDEX_VAR and resno, to an entry of
    scan_tlist that is a Var of the same attribute, and has the type,
    typmod and collation of [var]. *)
Definition refers_to (scan_tlist : list TargetEntry) (var var' : Var) : Prop :=
  exists tle scan_var,
    In tle scan_tlist /\ expr tle = E_Var scan_var /\
    varattno scan_var = varattno var /\
    var' = makeVar INDEX_VAR (resno tle) (vartype var) (vartypmod var)
                   (varcollid var) 0.

(** An expression with its Vars taken out. *)
Fixpoint skeleton (e : Expr) : Expr :=
  match e with
  | E_Null => E_Null
  | E_Var _ => E_Var (mkVar 0 0 0 0 0 0 0 0)
  | E_Node tag args => E_Node tag (map skeleton args)
  end.

(** No entry of [scan_tlist] is a Var of the attribute of [var]. *)
Definition var_missing (scan_tlist : list TargetEntry) (var : Var) : Prop :=
  forall tle scan_var,
    In tle scan_tlist -> expr tle = E_Var scan_var ->
    varattno scan_var <> varattno var.

(* ===================================================================== *)
(** *** replace_varnode_with_scan_tlist *)
(* ===================================================================== *)

(** The foreach loop over scan_tlist in the Var case: the resno of the
    first entry that is a Var with the attribute number looked for.  The
    Asserts of the source are compiled out. *)
Fixpoint find_scan_var (var : Var) (scan_tlist : list TargetEntry) : option Z :=
  match scan_tlist with
  | [] => None
  | tle :: rest =>
      match expr tle with
      | E_Var scan_var =>
          if varattno scan_var =? varattno var then Some (resno tle)
          else find_scan_var var rest
      | _ => find_scan_var var rest
      end
  end.

(** expression_tree_mutator of nodeFuncs.c rebuilds a node of another
    kind with the mutator applied to its children; an error raised for a
    child ends the walk. *)
Fixpoint replace_varnode_with_scan_tlist (node : Expr) (scan_tlist : list TargetEntry)
  : result Expr :=
  match node with
  | E_Null => Ok E_Null
  | E_Var var =>
      match find_scan_var var scan_tlist with
      | Some resno =>
          Ok (E_Var (makeVar INDEX_VAR resno (vartype var) (vartypmod var)
                             (varcollid var) 0))
      | None => Raised "Bug? referenced Var-node not in scan_tlist"
      end
  | E_Node tag args =>
      match (fix mutate (args : list Expr) : result (list Expr) :=
               match args with
               | [] => Ok []
               | arg :: rest =>
                   match replace_varnode_with_scan_tlist arg scan_tlist with
                   | Raised msg => Raised msg
                   | Ok arg' =>
                       match mutate rest with
                       | Raised msg => Raised msg
                       | Ok rest' => Ok (arg' :: rest')
                       end
                   end
               end) args with
      | Raised msg => Raised msg
      | Ok args' => Ok (E_Node tag args')
      end
  end.

(* ===================================================================== *)
(** *** insert_unique_expression *)
(* ===================================================================== *)

(** The foreach loop: the resno of the first entry whose expression is
    equal to [expr]. *)
Fixpoint find_equal_expression (expr_ : Expr) (scan_tlist : list TargetEntry) : option Z :=
  match scan_tlist with
  | [] => None
  | tle :: rest =>
      if equal expr_ (expr tle) then Some (resno tle)
      else find_equal_expression expr_ rest
  end.

(** insert_unique_expression: the AttrNumber returned and the list
    [*p_scan_tlist] afterwards. *)
Definition insert_unique_expression (expr_ : Expr) (scan_tlist : list TargetEntry)
  : Z * list TargetEntry :=
  match find_equal_expression expr_ scan_tlist with
  | Some resno => (resno, scan_tlist)
  | None =>
      (* Not found, so append this expression *)
      let tle := makeTargetEntry expr_ (list_length scan_tlist + 1) None false in
      let scan_tlist := lappend scan_tlist tle in
      (to_int16 (list_length scan_tlist), scan_tlist)
  end.

(* ===================================================================== *)
(** *** build_device_projection *)
(* ===================================================================== *)

(** How a run of build_device_projection, or of a part of it, ends: on
    its way ([Built]), with [return false], through elog(ERROR), by
    reading tupdesc->attrs outside its bounds, or by reading the tag of
    a NULL expression. *)
Inductive build (A : Type) : Type :=
| Built (a : A)
| ReturnFalse
| BuildElog (msg : string)
| AttrsOutOfBounds
| NullExpression.
Arguments Built {A} a.
Arguments ReturnFalse {A}.
Arguments BuildElog {A} msg.
Arguments AttrsOutOfBounds {A}.
Arguments NullExpression {A}.

(** The locals the foreach loop over tlist_old carries. *)
Record build_locals : Type := mkBuildLocals {
  bl_attnum : Z;                      (* AttrNumber *)
  bl_tlist_new : list TargetEntry;
  bl_scan_tlist : list TargetEntry;
  bl_with_gpu_projection : bool
}.

(** The while loop over the members of varattnos, in the branch for an
    expression that is not device executable: a Var for each attribute
    goes to scan_tlist. *)
Fixpoint add_varnodes (tupdesc : TupleDesc) (varno_ : Z) (members : Bitmapset)
                      (scan_tlist : list TargetEntry) : build (list TargetEntry) :=
  match members with
  | [] => Built scan_tlist
  | prev :: rest =>
      let anum := prev - FirstLowInvalidHeapAttributeNumber in
      (* GPU projection cannot contain whole-row reference *)
      if anum =? InvalidAttrNumber then ReturnFalse
      else
        let attr := if anum >? 0 then array_ref tupdesc (anum - 1)
                    else Some (SystemAttributeDefinition anum) in
        match attr with
        | None => AttrsOutOfBounds
        | Some attr =>
            let '(_, scan_tlist) :=
              insert_unique_expression
                (E_Var (makeVar varno_ (attnum attr) (atttypid attr)
                                (atttypmod attr) (attcollation attr) 0))
                scan_tlist in
            add_varnodes tupdesc varno_ rest scan_tlist
        end
  end.

(** The body of the foreach loop over tlist_old, up to [attnum++].  The
    Asserts of the source are compiled out.  [type_mod] is declared Oid
    in the source: the int32 that exprTypmod returns, converted to Oid
    and back to the int32 parameter of makeVar, is the value itself. *)
Definition build_target_entry (tupdesc : TupleDesc) (varno_ : Z)
                              (lv : build_locals) (tle : TargetEntry)
  : build build_locals :=
  let attnum_ := bl_attnum lv in
  match expr tle with
  | E_Null => NullExpression
  | E_Var var =>
      (* GPU projection cannot contain whole-row reference *)
      if varattno var =? InvalidAttrNumber then ReturnFalse
      else
        (* check whether the original tlist matches the physical layout *)
        let checked :=
          if negb (varattno var =? attnum_) || (attnum_ >? natts tupdesc)
          then Built true
          else
            match array_ref tupdesc (attnum_ - 1) with
            | None => AttrsOutOfBounds
            | Some attr =>
                if negb (vartype var =? atttypid attr)
                   || (negb (vartypmod var =? atttypmod attr)
                       && negb (vartypmod var =? -1))
                then Built true
                else Built (bl_with_gpu_projection lv)
            end in
        match checked with
        | Built with_gpu_projection =>
            (* add primitive Var-node on the scan_tlist *)
            let '(varattno_, scan_tlist) :=
              insert_unique_expression (E_Var var) (bl_scan_tlist lv) in
            (* add pseudo Var-node on the tlist_new *)
            let tle_new :=
              makeTargetEntry (E_Var (makeVar INDEX_VAR varattno_ (vartype var)
                                              (vartypmod var) (varcollid var) 0))
                              (list_length (bl_tlist_new lv) + 1)
                              (resname tle) (resjunk tle) in
            Built (mkBuildLocals attnum_ (lappend (bl_tlist_new lv) tle_new)
                                 scan_tlist with_gpu_projection)
        | ReturnFalse => ReturnFalse
        | BuildElog msg => BuildElog msg
        | AttrsOutOfBounds => AttrsOutOfBounds
        | NullExpression => NullExpression
        end
  | E_Node _ _ =>
      if pgstrom_codegen_available_expression (expr tle) then
        let type_oid := exprType (expr tle) in
        let type_mod := exprTypmod (expr tle) in
        let coll_oid := exprCollation (expr tle) in
        (* Add device executable expression onto the scan_tlist *)
        let '(varattno_, scan_tlist) :=
          insert_unique_expression (expr tle) (bl_scan_tlist lv) in
        (* Then, CPU just referenced the calculation result *)
        let tle_new :=
          makeTargetEntry (E_Var (makeVar INDEX_VAR varattno_ type_oid type_mod
                                          coll_oid 0))
                          (list_length (bl_tlist_new lv) + 1)
                          (resname tle) (resjunk tle) in
        (* obviously, we need GPU projection *)
        Built (mkBuildLocals attnum_ (lappend (bl_tlist_new lv) tle_new)
                             scan_tlist true)
      else
        (* Elsewhere, expression is not device executable *)
        (* 1. Pull varnodes within the expression *)
        let varattnos := pull_varattnos (expr tle) varno_ [] in
        (* 2. Add varnodes to scan_tlist *)
        match add_varnodes tupdesc varno_ varattnos (bl_scan_tlist lv) with
        | Built scan_tlist =>
            (* 3. replace varnode of the expression *)
            match replace_varnode_with_scan_tlist (expr tle) scan_tlist with
            | Raised msg => BuildElog msg
            | Ok expr_new =>
                (* 4. add modified expression to tlist_new *)
                let tle_new :=
                  makeTargetEntry expr_new (list_length (bl_tlist_new lv) + 1)
                                  (resname tle) (resjunk tle) in
                (* obviously, we need GPU projection *)
                Built (mkBuildLocals attnum_ (lappend (bl_tlist_new lv) tle_new)
                                     scan_tlist true)
            end
        | ReturnFalse => ReturnFalse
        | BuildElog msg => BuildElog msg
        | AttrsOutOfBounds => AttrsOutOfBounds
        | NullExpression => NullExpression
        end
  end.

(** The foreach loop over tlist_old. *)
Fixpoint build_target_list (tupdesc : TupleDesc) (varno_ : Z)
                           (tlist_old : list TargetEntry) (lv : build_locals)
  : build build_locals :=
  match tlist_old with
  | [] => Built lv
  | tle :: rest =>
      match build_target_entry tupdesc varno_ lv tle with
      | Built lv =>
          (* attnum++ *)
          let lv := mkBuildLocals (to_int16 (bl_attnum lv + 1)) (bl_tlist_new lv)
                                  (bl_scan_tlist lv) (bl_with_gpu_projection lv) in
          build_target_list tupdesc varno_ rest lv
      | other => other
      end
  end.

(** A target entry the device can provide: a Var that is no whole-row
    reference, or an expression that is device executable. *)
Definition device_evaluable (tle : TargetEntry) : bool :=
  match expr tle with
  | E_Null => false
  | E_Var var => negb (varattno var =? InvalidAttrNumber)
  | E_Node _ _ => pgstrom_codegen_available_expression (expr tle)
  end.

(** Entry [new] of the new target list stands for entry [old] of the old
    one: it has its name and junk flag, and it is a Var that refers, by
    INDEX_VAR and resno, to an entry of scan_tlist that holds the
    expression of [old], with its type, typmod and collation. *)
Definition stands_for (scan_tlist : list TargetEntry) (old new : TargetEntry) : Prop :=
  resname new = resname old /\ resjunk new = resjunk old /\
  exists tle,
    In tle scan_tlist /\ expr tle = expr old /\
    expr new = E_Var (makeVar INDEX_VAR (resno tle) (exprType (expr old))
                              (exprTypmod (expr old)) (exprCollation (expr old)) 0).

(** The target entry at position [attnum_] is the Var of column
    [attnum_] of the relation, with the type of the column and its
    typmod or none. *)
Definition entry_matches_layout (tupdesc : TupleDesc) (attnum_ : Z)
                                (tle : TargetEntry) : bool :=
  match expr tle with
  | E_Var var =>
      (varattno var =? attnum_) &&
      match array_ref tupdesc (attnum_ - 1) with
      | Some attr =>
          (vartype var =? atttypid attr) &&
          ((vartypmod var =? atttypmod attr) || (vartypmod var =? -1))
      | None => false
      end
  | _ => false
  end.

(** The target list is the physical layout of the relation, or a prefix
    of it, from column [attnum_] on. *)
Fixpoint matches_layout_from (tupdesc : TupleDesc) (attnum_ : Z)
                             (tlist : list TargetEntry) : bool :=
  match tlist with
  | [] => true
  | tle :: rest =>
      entry_matches_layout tupdesc attnum_ tle &&
      matches_layout_from tupdesc (attnum_ + 1) rest
  end.

(** The loop [for (attnum=1; attnum < tupdesc->natts; attnum++)] that
    adds up base_fixed_width, a cl_int, over attrs[attnum - 1]: it
    visits attrs[0] to attrs[natts - 2].  A relation has at most 1600
    attributes, so attnum, an AttrNumber, does not wrap. *)
Definition base_fixed_width_of (tupdesc : TupleDesc) : Z :=
  fold_left (fun width attr =>
               if attlen attr <? 0 then width
               else to_int32 (width + attlen attr))
            (firstn (List.length tupdesc - 1) tupdesc) 0.

(** The foreach loop over scan_tlist that adds up proj_fixed_width and
    proj_extra_width, both cl_int. *)
Definition proj_widths_of (scan_tlist : list TargetEntry) : Z * Z :=
  fold_left (fun widths tle =>
               let '(proj_fixed_width, proj_extra_width) := widths in
               let type_oid := exprType (expr tle) in
               if type_oid =? NUMERICOID then
                 (to_int32 (proj_fixed_width + 32), to_int32 (proj_extra_width + 32))
               else
                 let '(type_len, type_byval) := get_typlenbyval type_oid in
                 if type_len <? 0 then widths
                 else (to_int32 (proj_fixed_width + type_len),
                       if negb type_byval then to_int32 (proj_extra_width + type_len)
                       else proj_extra_width))
            scan_tlist (0, 0).

(** What build_device_projection stores when it returns true: the new
    target list and custom_scan_tlist of the plan, and the three widths
    of gs_info. *)
Record device_projection : Type := mkDeviceProjection {
  dp_targetlist : list TargetEntry;
  dp_custom_scan_tlist : list TargetEntry;
  dp_base_fixed_width : Z;
  dp_proj_fixed_width : Z;
  dp_proj_extra_width : Z
}.

(** build_device_projection on the target list and the scanrelid of the
    plan; [ReturnFalse] leaves the plan and gs_info as they are. *)
Definition build_device_projection (tupdesc : TupleDesc)
                                   (tlist_old : list TargetEntry) (varno_ : Z)
  : build device_projection :=
  match build_target_list tupdesc varno_ tlist_old (mkBuildLocals 1 [] [] false) with
  | Built lv =>
      (* Hmm, it seems to me device projection is not necessary *)
      if negb (bl_with_gpu_projection lv) then ReturnFalse
      else
        let base_fixed_width := base_fixed_width_of tupdesc in
        let '(proj_fixed_width, proj_extra_width) :=
          proj_widths_of (bl_scan_tlist lv) in
        (* update plan node *)
        Built (mkDeviceProjection (bl_tlist_new lv) (bl_scan_tlist lv)
                                  base_fixed_width proj_fixed_width proj_extra_width)
  | ReturnFalse => ReturnFalse
  | BuildElog msg => BuildElog msg
  | AttrsOutOfBounds => AttrsOutOfBounds
  | NullExpression => NullExpression
  end.

End Builder.

Arguments Built {A} a.
Arguments ReturnFalse {A}.
Arguments BuildElog {A} msg.
Arguments AttrsOutOfBounds {A}.
Arguments NullExpression {A}.

(** The test of pull_varattnos: a Var of relation [varno_] at level
    zero. *)
Definition reads_column (varno_ : Z) (var : Var) : bool :=
  (varno var =? varno_) && (varlevelsup var =? 0).

(** A tuple descriptor as the relation cache builds it: attrs[i] is
    attribute i + 1. *)
Definition tupdesc_in_order (tupdesc : TupleDesc) : Prop :=
  forall i attr, nth_error tupdesc i = Some attr -> attnum attr = Z.of_nat i + 1.

(** A target entry that is a whole-row reference. *)
Definition whole_row (tle : TargetEntry) : bool :=
  match expr tle with
  | E_Var var => varattno var =? InvalidAttrNumber
  | _ => false
  end.

(** A target entry the device cannot compute: an expression, no Var,
    that is not device executable. *)
Definition host_only {TB : TreeBackend} (tle : TargetEntry) : bool :=
  match expr tle with
  | E_Node _ _ => negb (pgstrom_codegen_available_expression (expr tle))
  | _ => false
  end.

(** A backend to run the builder on: nodes with a tag below 100 are
    device executable and of type int4, type 25 is a varlena. *)
Definition example_tree : TreeBackend := {|
  FirstLowInvalidHeapAttributeNumber := -8;
  pgstrom_codegen_available_expression :=
    fun e => match e with E_Node tag _ => tag <? 100 | _ => true end;
  node_exprType := fun _ _ => 23;
  node_exprTypmod := fun _ _ => -1;
  node_exprCollation := fun _ _ => 0;
  get_typlenbyval := fun oid => if oid =? 25 then (-1, false) else (4, true);
  SystemAttributeDefinition := fun anum => mkAttribute anum 26 (-1) 0 4 true
|}.

(** A relation of an int4 and a text column, and target lists over it. *)
Definition example_tupdesc : TupleDesc :=
  [mkAttribute 1 23 (-1) 0 4 true; mkAttribute 2 25 (-1) 100 (-1) false].

Definition example_column_a : Expr := E_Var (makeVar 1 1 23 (-1) 0 0).
Definition example_column_b : Expr := E_Var (makeVar 1 2 25 (-1) 100 0).

Definition example_tlist_layout : list TargetEntry :=
  [mkTargetEntry example_column_a 1 (Some "a"%string) false;
   mkTargetEntry example_column_b 2 (Some "b"%string) false].

Definition example_tlist_device : list TargetEntry :=
  [mkTargetEntry (E_Node 1 [example_column_a; example_column_a]) 1
                 (Some "twice"%string) false;
   mkTargetEntry example_column_a 2 (Some "a"%string) false;
   mkTargetEntry example_column_b 3 (Some "b"%string) false].

Definition example_host_entry : TargetEntry :=
  mkTargetEntry (E_Node 200 [example_column_a]) 1 (Some "f"%string) false.

Definition example_tlist_host : list TargetEntry := [example_host_entry].

Definition example_scan_tlist : list TargetEntry :=
  [mkTargetEntry example_column_a 1 None false].

(** A relation of seventeen int4 columns. *)
Definition example_wide_tupdesc : TupleDesc :=
  map (fun i => mkAttribute (Z.of_nat i) 23 (-1) 0 4 true) (seq 1 17).

(** A relation of an int4, a text and two int8 columns. *)
Definition example_fixed_tupdesc : TupleDesc :=
  [mkAttribute 1 23 (-1) 0 4 true; mkAttribute 2 25 (-1) 100 (-1) false;
   mkAttribute 3 20 (-1) 0 8 true; mkAttribute 4 20 (-1) 0 8 true].

Definition example_whole_row_entry : TargetEntry :=
  mkTargetEntry (E_Var (makeVar 1 0 2249 (-1) 0 0)) 4 (Some "t"%string) false.

End Projection.

(* ===================================================================== *)
(** ** gpuscan_begin *)
(* ===================================================================== *)

(** executor.h, bufmgr.h, execQual.c, cuda_control.c and cuda_program.c,
    not under src/: what gpuscan_begin calls.  The scan relation is
    fixed, so RelationGetNumberOfBlocks is a number. *)
Class ExecutorBackend : Type := {
  EXEC_FLAG_EXPLAIN_ONLY : Z;
  pgstrom_get_gpucontext : Z;         (* the GpuContext; 0 is NULL *)
  pgstrom_init_gputaskstate : Z -> GpuTaskState -> GpuTaskState;
  RelationGetNumberOfBlocks : N;
  ExecInitExpr : list Node -> list Node;
  pgstrom_assign_cuda_program :
    GpuTaskState -> list Node -> option string -> Z -> GpuTaskState;
  pgstrom_preload_cuda_program : GpuTaskState -> GpuTaskState
}.

(** The functions gpuscan_begin installs as callbacks. *)
Inductive gpuscan_callback : Type :=
| fn_pgstrom_process_gpuscan
| fn_pgstrom_complete_gpuscan
| fn_pgstrom_release_gpuscan
| fn_gpuscan_next_chunk
| fn_gpuscan_next_tuple.

(** A GpuScanState after gpuscan_begin: the fields of [GpuScanState],
    the GpuContext handed to pgstrom_init_gputaskstate, the callbacks,
    and scan_tuple.t_tableOid. *)
Record begun_scan : Type := mkBegunScan {
  bs_gss : GpuScanState;
  bs_gcontext : Z;
  bs_cb_task_process : gpuscan_callback;
  bs_cb_task_complete : gpuscan_callback;
  bs_cb_task_release : gpuscan_callback;
  bs_cb_next_chunk : gpuscan_callback;
  bs_cb_next_tuple : gpuscan_callback;
  bs_scan_tuple_t_tableOid : Z
}.

Section BeginScan.
Context {EB : ExecutorBackend}.

(** gpuscan_begin on the node gpuscan_create_scan_state made and the
    plan it came from; [None] when deform_gpuscan_info reads outside the
    private lists of the plan.  base_fixed_width, proj_fixed_width and
    proj_extra_width of the GpuScanState are not assigned. *)
Definition gpuscan_begin (gss : GpuScanState) (cscan : CustomScan) (eflags : Z)
  : option begun_scan :=
  match deform_gpuscan_info cscan with
  | None => None
  | Some gs_info =>
      let explain_only := negb (Z.land eflags EXEC_FLAG_EXPLAIN_ONLY =? 0) in
      (* activate GpuContext for device execution *)
      let gcontext := if negb explain_only then pgstrom_get_gpucontext else 0 in
      (* setup common GpuTaskState fields *)
      let gts_ := pgstrom_init_gputaskstate gcontext (gts gss) in
      (* initialize the start/end position *)
      let curr_blknum_ := 0%N in
      let last_blknum_ := RelationGetNumberOfBlocks in
      (* initialize device qualifiers also, for fallback *)
      let dev_quals_ := ExecInitExpr (gs_dev_quals gs_info) in
      (* true, if device projection is needed *)
      let dev_projection_ := match cs_custom_scan_tlist cscan with
                             | [] => false
                             | _ :: _ => true
                             end in
      (* 'tableoid' should not change during relation scan *)
      let t_tableOid := scan_rel_oid (gts gss) in
      (* assign kernel source and flags *)
      let gts_ := pgstrom_assign_cuda_program gts_ (gs_used_params gs_info)
                                              (gs_kern_source gs_info)
                                              (gs_extra_flags gs_info) in
      (* preload the CUDA program, if actually executed *)
      let gts_ := if negb explain_only then pgstrom_preload_cuda_program gts_
                  else gts_ in
      (* other run-time parameters *)
      let num_rechecked_ := 0 in
      Some (mkBegunScan
              (mkGss gts_ curr_blknum_ last_blknum_ dev_quals_ dev_projection_
                     (base_fixed_width gss) (proj_fixed_width gss)
                     (proj_extra_width gss) num_rechecked_)
              gcontext
              fn_pgstrom_process_gpuscan fn_pgstrom_complete_gpuscan
              fn_pgstrom_release_gpuscan fn_gpuscan_next_chunk
              fn_gpuscan_next_tuple
              t_tableOid)
  end.

End BeginScan.

(** An executor over the example relation of ten blocks; the task state
    asks for the row format. *)
Definition example_executor : ExecutorBackend := {|
  EXEC_FLAG_EXPLAIN_ONLY := 1;
  pgstrom_get_gpucontext := 4242;
  pgstrom_init_gputaskstate := fun _ _ => example_gts true;
  RelationGetNumberOfBlocks := 10%N;
  ExecInitExpr := fun l => l;
  pgstrom_assign_cuda_program := fun gts_ _ _ _ => gts_;
  pgstrom_preload_cuda_program := fun gts_ => gts_
|}.

(** A GpuScan plan with a device projection whose GpuScanInfo carries
    the widths 8, 24 and 16. *)
Definition example_projection_plan : CustomScan :=
  form_gpuscan_info
    (mkCustomScan [] [] 1 0 [] [] [mkTargetEntry (T_Expr 2) 1] gpuscan_plan_methods)
    (mkGpuScanInfo (Some "kernel"%string) 0 [] [] [] [T_Expr 2] 8 24 16).

(* ===================================================================== *)
(** * Properties *)
(* ===================================================================== *)

Lemma to_int32_id (z : Z) : is_int32 z -> to_int32 z = z.
Proof.
  unfold is_int32, to_int32. intros H.
  rewrite Z.mod_small by lia. lia.
Qed.

(** C10. deform_gpuscan_info is a left inverse of form_gpuscan_info: the
    GpuScanInfo stored into the custom_private and custom_exprs lists of a
    CustomScan is read back field by field unchanged (kern_source,
    extra_flags, func_defs, used_params, used_vars, dev_quals,
    base_fixed_width, proj_fixed_width, proj_extra_width). *)
Theorem deform_form_gpuscan_info (cscan : CustomScan) (gs_info : GpuScanInfo) :
  GpuScanInfo_wf gs_info ->
  deform_gpuscan_info (form_gpuscan_info cscan gs_info) = Some gs_info.
Proof.
  intros (Hf & Hb & Hp & He).
  destruct gs_info as [src fl fd up uv dq bw pw ew]; simpl in *.
  unfold deform_gpuscan_info, form_gpuscan_info; simpl.
  rewrite !to_int32_id by assumption.
  destruct src; reflexivity.
Qed.

Lemma deform_form_gpuscan_info_witness :
  GpuScanInfo_wf sample_gs_info /\
  deform_gpuscan_info (form_gpuscan_info makeNode_CustomScan sample_gs_info)
  = Some sample_gs_info.
Proof.
  assert (H : GpuScanInfo_wf sample_gs_info)
    by (unfold GpuScanInfo_wf, is_int32; simpl; lia).
  split; [exact H | exact (deform_form_gpuscan_info makeNode_CustomScan sample_gs_info H)].
Defined.

(* --------------------------------------------------------------------- *)
(** ** create_gpuscan_plan: where the clauses go *)
(* --------------------------------------------------------------------- *)

Section PlannerFacts.
Context {CG : Codegen}.

Lemma distribute_clauses_filter (clauses host dev : list RestrictInfo) :
  distribute_clauses clauses host dev =
  (host ++ filter host_only clauses, dev ++ filter device_capable clauses).
Proof.
  revert host dev.
  induction clauses as [|rinfo rest IH]; intros host dev; simpl.
  - now rewrite !app_nil_r.
  - unfold host_only, device_capable in *.
    destruct (pgstrom_codegen_available_expression (ri_clause rinfo)); simpl;
      rewrite IH; unfold lappend; now rewrite <- app_assoc.
Qed.

Lemma create_gpuscan_plan_quals (relid flags : Z) (tlist : list Node)
                                (clauses : list RestrictInfo) :
  let plan := create_gpuscan_plan relid flags tlist clauses in
  cs_qual plan = extract_actual_clauses (filter host_only clauses) false /\
  plan_dev_quals plan = extract_actual_clauses (filter device_capable clauses) false.
Proof.
  unfold create_gpuscan_plan. rewrite distribute_clauses_filter. simpl.
  destruct (gpuscan_codegen_exec_quals _ _) as [src ctx]. simpl.
  split; reflexivity.
Qed.

End PlannerFacts.

(** C8 (as amended).  create_gpuscan_plan sends every restriction clause
    that is not a pseudoconstant to exactly one of the two qualifier
    lists: to the device qualifiers when
    pgstrom_codegen_available_expression accepts it, to the host
    qualifiers otherwise, each list keeping the order of the clauses; the
    host list is the plan's qual.  A pseudoconstant clause is in neither
    list unless it also comes as a clause that is not pseudoconstant. *)
Theorem create_gpuscan_plan_distributes
    {CG : Codegen} (relid flags : Z) (tlist : list Node)
    (clauses : list RestrictInfo) :
  let plan := create_gpuscan_plan relid flags tlist clauses in
  let kept := filter (fun r => negb (ri_pseudoconstant r)) clauses in
  cs_qual plan = map ri_clause (filter host_only kept) /\
  plan_dev_quals plan = map ri_clause (filter device_capable kept) /\
  (forall rinfo, In rinfo kept ->
     if pgstrom_codegen_available_expression (ri_clause rinfo)
     then In (ri_clause rinfo) (plan_dev_quals plan) /\
          ~ In (ri_clause rinfo) (cs_qual plan)
     else In (ri_clause rinfo) (cs_qual plan) /\
          ~ In (ri_clause rinfo) (plan_dev_quals plan)) /\
  (forall c, In c (cs_qual plan) \/ In c (plan_dev_quals plan) ->
     In c (map ri_clause kept)).
Proof.
  intros plan kept.
  destruct (create_gpuscan_plan_quals relid flags tlist clauses) as [Hq Hd].
  fold plan in Hq, Hd.
  assert (Ex : forall (p : RestrictInfo -> bool),
             extract_actual_clauses (filter p clauses) false
             = map ri_clause (filter p kept)).
  { intros p. unfold extract_actual_clauses, kept. f_equal.
    clear. induction clauses as [|r l IH]; simpl; [reflexivity|].
    destruct (p r) eqn:Hp, (ri_pseudoconstant r) eqn:Hc; simpl;
      rewrite ?Hp, ?Hc; simpl; now rewrite IH. }
  rewrite Ex in Hq, Hd.
  assert (Hhost : forall c, In c (cs_qual plan) ->
             pgstrom_codegen_available_expression c = false /\ In c (map ri_clause kept)).
  { intros c Hc. rewrite Hq in Hc. apply in_map_iff in Hc as (r & <- & Hr).
    apply filter_In in Hr as (Hr & Hh). unfold host_only in Hh.
    split; [now apply negb_true_iff in Hh | now apply in_map]. }
  assert (Hdev : forall c, In c (plan_dev_quals plan) ->
             pgstrom_codegen_available_expression c = true /\ In c (map ri_clause kept)).
  { intros c Hc. rewrite Hd in Hc. apply in_map_iff in Hc as (r & <- & Hr).
    apply filter_In in Hr as (Hr & Hh). unfold device_capable in Hh.
    split; [assumption | now apply in_map]. }
  repeat split; try assumption.
  - intros rinfo Hin.
    destruct (pgstrom_codegen_available_expression (ri_clause rinfo)) eqn:Hav.
    + split.
      * rewrite Hd. apply in_map, filter_In. now split.
      * intros Hc. apply Hhost in Hc as [Hc _]. congruence.
    + split.
      * rewrite Hq. apply in_map, filter_In. split; [assumption|].
        unfold host_only. now rewrite Hav.
      * intros Hc. apply Hdev in Hc as [Hc _]. congruence.
  - intros c [Hc|Hc]; [now apply Hhost | now apply Hdev].
Qed.

(** C8, the claim as stated fails: a pseudoconstant clause handed to
    create_gpuscan_plan is in neither the host nor the device list of the
    plan. *)
Lemma create_gpuscan_plan_drops_pseudoconstant :
  let rinfo := mkRestrictInfo (T_Expr 2) true in
  let plan := create_gpuscan_plan (CG := example_codegen) 1 0 [] [rinfo] in
  In rinfo [rinfo] /\
  ~ In (ri_clause rinfo) (cs_qual plan) /\
  ~ In (ri_clause rinfo) (plan_dev_quals plan).
Proof.
  cbv zeta. split; [now left|]. split; vm_compute; tauto.
Qed.

(* --------------------------------------------------------------------- *)
(** ** Reasoning about runs in the monad [M] *)
(* --------------------------------------------------------------------- *)

Lemma wp_ret {A : Type} (a : A) (Q : result A -> world -> Prop) (w : world) :
  Q (Ok a) w -> wp (ret a) Q w.
Proof. exact (fun H => H). Qed.

Lemma wp_bind {A B : Type} (c : M A) (k : A -> M B)
              (Q : result B -> world -> Prop) (w : world) :
  wp c (fun r w' => match r with
                    | Ok a => wp (k a) Q w'
                    | Raised msg => Q (Raised msg) w'
                    end) w ->
  wp (bind c k) Q w.
Proof.
  unfold wp, bind. destruct (c w) as [[a|msg] w']; simpl; auto.
Qed.

Lemma wp_mono {A : Type} (c : M A) (P Q : result A -> world -> Prop) (w : world) :
  wp c P w -> (forall r w', P r w' -> Q r w') -> wp c Q w.
Proof. unfold wp. auto. Qed.

Lemma wp_gets {A : Type} (f : pgstrom_gpuscan -> A)
              (Q : result A -> world -> Prop) (w : world) :
  Q (Ok (f (w_gpuscan w))) w -> wp (gets f) Q w.
Proof. exact (fun H => H). Qed.

Lemma wp_update (f : pgstrom_gpuscan -> pgstrom_gpuscan)
                (Q : result unit -> world -> Prop) (w : world) :
  Q (Ok tt) (mkWorld (f (w_gpuscan w)) (w_stream w) (w_log w)) -> wp (update f) Q w.
Proof. exact (fun H => H). Qed.

Lemma wp_emit (e : driver_event) (Q : result unit -> world -> Prop) (w : world) :
  Q (Ok tt) (mkWorld (w_gpuscan w) (w_stream w) (w_log w ++ [e])) -> wp (emit e) Q w.
Proof. exact (fun H => H). Qed.

Lemma wp_enqueue (c : stream_cmd) (Q : result unit -> world -> Prop) (w : world) :
  Q (Ok tt) (mkWorld (w_gpuscan w) (w_stream w ++ [c]) (w_log w)) -> wp (enqueue c) Q w.
Proof. exact (fun H => H). Qed.

Lemma wp_elog_ERROR {A : Type} (msg : string)
                    (Q : result A -> world -> Prop) (w : world) :
  Q (Raised msg) w -> wp (elog_ERROR msg) Q w.
Proof. exact (fun H => H). Qed.

(** One step of a run: the head of the computation is taken apart; a test
    on a driver answer that is already decided is rewritten, a new one
    splits the goal. *)
Ltac wp_step :=
  lazymatch goal with
  | |- wp (bind _ _) _ _ => apply wp_bind
  | |- wp (ret _) _ _ => apply wp_ret
  | |- wp (gets _) _ _ => apply wp_gets
  | |- wp (update _) _ _ => apply wp_update
  | |- wp (emit _) _ _ => apply wp_emit
  | |- wp (elog_WARNING _) _ _ => apply wp_emit
  | |- wp (enqueue _) _ _ => apply wp_enqueue
  | |- wp (elog_ERROR _) _ _ => apply wp_elog_ERROR
  | |- wp (check_rc _ _) _ _ => unfold check_rc
  | |- wp (cu_enqueue _ _ _) _ _ => unfold cu_enqueue
  | |- wp (cuEventCreate _ _) _ _ => unfold cuEventCreate
  | |- wp (cuModuleGetFunction _ _ _ _) _ _ => unfold cuModuleGetFunction
  | |- wp (gpuMemAlloc _ _) _ _ => unfold gpuMemAlloc
  | |- wp (gpuMemFree _) _ _ => unfold gpuMemFree
  | |- wp (CUDA_EVENT_RECORD _ _) _ _ => unfold CUDA_EVENT_RECORD
  | |- wp (CUDA_EVENT_DESTROY _ _) _ _ => unfold CUDA_EVENT_DESTROY
  | |- wp (if ?b then _ else _) _ _ =>
      first [ match goal with
              | H : b = true |- _ => rewrite H
              | H : b = false |- _ => rewrite H
              end
            | destruct b eqn:? ]
  | |- wp (let '(_, _) := ?p in _) _ _ => destruct p eqn:?
  end; cbn.

Ltac try_prefix n :=
  exists n; cbn [firstn]; rewrite ?app_nil_r; reflexivity.

(** The stream so far is the old stream followed by a prefix of a list
    that is written out. *)
Ltac prefix_leaf :=
  cbn; repeat rewrite <- app_assoc; cbn;
  first [ try_prefix 0%nat | try_prefix 1%nat | try_prefix 2%nat
        | try_prefix 3%nat | try_prefix 4%nat | try_prefix 5%nat
        | try_prefix 6%nat | try_prefix 7%nat | try_prefix 8%nat
        | try_prefix 9%nat | try_prefix 10%nat | try_prefix 11%nat
        | try_prefix 12%nat ].

(* --------------------------------------------------------------------- *)
(** ** gpuscan_cleanup_cuda_resources *)
(* --------------------------------------------------------------------- *)

Section CleanupFacts.
Context {KL : KernLayout}.

Lemma cleanup_returns (drv : cuda_driver) (w : world) :
  fst (gpuscan_cleanup_cuda_resources drv w) = Ok tt.
Proof.
  destruct w as [g st lg].
  destruct g as [t q p m ms md e1 e2 e3 e4 src dst k al].
  unfold gpuscan_cleanup_cuda_resources, CUDA_EVENT_DESTROY, gpuMemFree,
    elog_WARNING, bind, gets, update, emit, ret; cbn.
  repeat (match goal with
          | |- context [if ?b then _ else _] => destruct b
          end; cbn); reflexivity.
Qed.

Lemma cleanup_releases (drv : cuda_driver) (w : world) :
  let w' := snd (gpuscan_cleanup_cuda_resources drv w) in
  cuda_resources_released (w_gpuscan w') /\
  w_stream w' = w_stream w /\
  task (w_gpuscan w') = task (w_gpuscan w) /\
  pds_src (w_gpuscan w') = pds_src (w_gpuscan w) /\
  pds_dst (w_gpuscan w') = pds_dst (w_gpuscan w) /\
  kern (w_gpuscan w') = kern (w_gpuscan w).
Proof.
  destruct w as [g st lg].
  destruct g as [t q p m ms md e1 e2 e3 e4 src dst k al].
  unfold gpuscan_cleanup_cuda_resources, CUDA_EVENT_DESTROY, gpuMemFree,
    elog_WARNING, bind, gets, update, emit, ret, cuda_resources_released; cbn.
  destruct (e4 =? 0) eqn:E4; cbn;
    [apply Z.eqb_eq in E4 | destruct (drv_rc drv _ =? _); cbn];
    (destruct (e3 =? 0) eqn:E3; cbn;
       [apply Z.eqb_eq in E3 | destruct (drv_rc drv _ =? _); cbn]);
    (destruct (e2 =? 0) eqn:E2; cbn;
       [apply Z.eqb_eq in E2 | destruct (drv_rc drv _ =? _); cbn]);
    (destruct (e1 =? 0) eqn:E1; cbn;
       [apply Z.eqb_eq in E1 | destruct (drv_rc drv _ =? _); cbn]);
    destruct (m =? 0); cbn; subst; repeat split; reflexivity.
Qed.

Lemma cleanup_idle (drv : cuda_driver) (w : world) :
  cuda_resources_released (w_gpuscan w) ->
  gpuscan_cleanup_cuda_resources drv w = (Ok tt, w).
Proof.
  destruct w as [g st lg].
  destruct g as [t q p m ms md e1 e2 e3 e4 src dst k al].
  unfold cuda_resources_released; cbn.
  intros (-> & -> & -> & -> & -> & -> & -> & -> & ->).
  reflexivity.
Qed.

End CleanupFacts.

(** C4.  After one call of gpuscan_cleanup_cuda_resources every event
    handle, kernel function pointer and device memory handle of the task
    is NULL or zero, and a second call on the same task changes nothing:
    it returns with the task, the stream and the driver log as they were,
    so it destroys no event and frees no device memory, whatever the
    driver would answer. *)
Theorem gpuscan_cleanup_twice {KL : KernLayout} (drv drv' : cuda_driver) (w : world) :
  let once := snd (gpuscan_cleanup_cuda_resources drv w) in
  let twice := gpuscan_cleanup_cuda_resources drv' once in
  cuda_resources_released (w_gpuscan once) /\
  twice = (Ok tt, once) /\
  w_log (snd twice) = w_log once /\
  filter releases (w_log (snd twice)) = filter releases (w_log once).
Proof.
  intros once twice.
  pose proof (cleanup_releases drv w) as (Hrel & _).
  fold once in Hrel.
  assert (Ht : twice = (Ok tt, once)) by (apply cleanup_idle; exact Hrel).
  rewrite Ht.
  split; [exact Hrel | split; [reflexivity | split; reflexivity]].
Qed.

(* --------------------------------------------------------------------- *)
(** ** __pgstrom_process_gpuscan: what reaches the stream *)
(* --------------------------------------------------------------------- *)

Section ProcessFacts.
Context {KL : KernLayout}.
Variable drv : cuda_driver.

Lemma wp_cleanup (Q : result unit -> world -> Prop) (w : world) :
  Q (Ok tt) (snd (gpuscan_cleanup_cuda_resources drv w)) ->
  wp (gpuscan_cleanup_cuda_resources drv) Q w.
Proof. unfold wp. now rewrite cleanup_returns. Qed.

Lemma process_gpuscan_enqueue_issues (gss : GpuScanState) (w : world) :
  wp (process_gpuscan_enqueue drv gss) (enqueue_post drv gss w) w.
Proof.
  destruct w as [g st lg].
  destruct g as [t q p m ms md e1 e2 e3 e4 src dst k al].
  destruct t as [ke pf cl cs cd cc cm].
  destruct pf as [en b1 n1 nq b2 n2].
  unfold process_gpuscan_enqueue, enqueue_post, issue_commands, has_dev_quals.
  destruct dst as [dst|], en, (dev_quals gss) as [|dq dqs]; cbn.
  all: repeat wp_step.
  all: split;
    [ prefix_leaf
    | split;
      [ try discriminate; intros _; repeat rewrite <- app_assoc; reflexivity
      | intros b Hb; congruence ] ].
Qed.

Lemma process_gpuscan_issues (gss : GpuScanState) (w : world) :
  wp (__pgstrom_process_gpuscan drv gss) (process_post drv gss w) w.
Proof.
  destruct w as [g st lg].
  destruct g as [t q p m ms md e1 e2 e3 e4 src dst k al].
  unfold __pgstrom_process_gpuscan, process_post, issue_sequence.
  repeat wp_step.
  - (* out of device memory *)
    apply wp_cleanup, wp_ret.
    match goal with
    | |- context [gpuscan_cleanup_cuda_resources drv ?w1] =>
        destruct (cleanup_releases drv w1) as (_ & Hst & _)
    end.
    cbn in Hst. rewrite Hst.
    split; [exists 0%nat; cbn; now rewrite app_nil_r|].
    split; [discriminate|]. intros _.
    split; [|reflexivity].
    apply Z.eqb_eq. assumption.
  - (* the requests are enqueued *)
    eapply wp_mono; [apply process_gpuscan_enqueue_issues|].
    unfold enqueue_post. cbn.
    intros r w' (Hpre & Hall & Htrue).
    split; [exact Hpre|]. split; [exact Hall|].
    intros Hr. specialize (Htrue false Hr). discriminate.
  - split; [exists 0%nat; cbn; now rewrite app_nil_r|].
    split; discriminate.
  - split; [exists 0%nat; cbn; now rewrite app_nil_r|].
    split; discriminate.
Qed.

End ProcessFacts.

(* --------------------------------------------------------------------- *)
(** ** The order of the requests *)
(* --------------------------------------------------------------------- *)

Lemma Sorted_firstn {A : Type} (R : A -> A -> Prop) (l : list A) (n : nat) :
  Sorted R l -> Sorted R (firstn n l).
Proof.
  intros H. revert n. induction H as [|a l Hs IH Hd]; intros [|n]; cbn;
    try constructor.
  - apply IH.
  - destruct Hd as [|b l Hab]; destruct n; cbn; constructor; assumption.
Qed.

Lemma issue_sequence_kinds {KL : KernLayout} (drv : cuda_driver)
                           (gss : GpuScanState) (g : pgstrom_gpuscan) :
  map kind_of (issue_sequence drv gss g) =
  issue_order (pfm_enabled (task_pfm (task g))) (has_dev_quals gss) (is_some (pds_dst g)).
Proof.
  unfold issue_sequence, issue_commands, projection_kernel_name.
  destruct (pfm_enabled _), (has_dev_quals gss), (pds_dst g), (be_row_format _); cbn;
    repeat match goal with
           | |- context [pgstrom_compute_workgroup_size ?a ?b ?c ?d ?e] =>
               destruct (pgstrom_compute_workgroup_size a b c d e)
           end; reflexivity.
Qed.

Lemma issue_sequence_phases {KL : KernLayout} (drv : cuda_driver)
                            (gss : GpuScanState) (g : pgstrom_gpuscan) :
  Sorted le (map phase_of (issue_sequence drv gss g)).
Proof.
  unfold issue_sequence, issue_commands, projection_kernel_name.
  destruct (pfm_enabled _), (has_dev_quals gss), (pds_dst g), (be_row_format _); cbn;
    repeat match goal with
           | |- context [pgstrom_compute_workgroup_size ?a ?b ?c ?d ?e] =>
               destruct (pgstrom_compute_workgroup_size a b c d e)
           end; cbn;
    repeat (constructor; try lia).
Qed.

(** C1 (as amended).  Whatever the driver answers, the commands that
    __pgstrom_process_gpuscan puts on the task's stream are a prefix of
    one fixed sequence, and all of it when the routine returns true:
    (1) copy-in of the control/parameter block, (2) copy-in of the input
    chunk image and, when a destination chunk exists, of the head of the
    destination chunk, (3) the predicate kernel when device qualifiers
    exist, (4) the projection kernel when a destination chunk exists,
    (5) copy-out of the control block and, when it exists, of the
    destination chunk, then the registration of the callback; timing
    events are recorded in between when the performance monitor is on.
    The phases never decrease along the stream. *)
Theorem process_gpuscan_issue_order
    {KL : KernLayout} (drv : cuda_driver) (gss : GpuScanState) (w : world) :
  let run := __pgstrom_process_gpuscan drv gss w in
  let g := w_gpuscan w in
  let expected := issue_sequence drv gss g in
  (exists n, w_stream (snd run) = w_stream w ++ firstn n expected) /\
  (fst run = Ok true -> w_stream (snd run) = w_stream w ++ expected) /\
  map kind_of expected =
    issue_order (pfm_enabled (task_pfm (task g))) (has_dev_quals gss)
                (is_some (pds_dst g)) /\
  (forall n, Sorted le (map phase_of (firstn n expected))).
Proof.
  intros run g expected.
  pose proof (process_gpuscan_issues drv gss w) as H.
  unfold wp, process_post in H. fold run g expected in H.
  destruct H as (Hpre & Hall & _).
  split; [exact Hpre|]. split; [exact Hall|].
  split; [apply issue_sequence_kinds|].
  intros n. rewrite <- firstn_map. apply Sorted_firstn, issue_sequence_phases.
Qed.

(** C1, the claim as stated fails: for a task with a destination chunk
    the stream also carries the copy-in of the head of that chunk, between
    the copy-in of the input chunk and the first kernel, so the sequence
    is not the claimed one. *)
Lemma process_gpuscan_not_claimed_order :
  let run := __pgstrom_process_gpuscan (KL := example_layout) driver_ok example_gss
                                       (mkWorld example_task [] []) in
  fst run = Ok true /\
  map kind_of (w_stream (snd run)) =
    [K_copyin_control; K_copyin_source; K_copyin_dest_head;
     K_launch_quals; K_launch_projection;
     K_copyout_control; K_copyout_dest; K_callback] /\
  map kind_of (w_stream (snd run)) <>
    claimed_order (has_dev_quals example_gss) (is_some (pds_dst example_task)).
Proof.
  cbv zeta. split; [vm_compute; reflexivity|].
  split; [vm_compute; reflexivity|].
  vm_compute. discriminate.
Qed.

(* --------------------------------------------------------------------- *)
(** ** Out of device memory *)
(* --------------------------------------------------------------------- *)

Lemma process_gpuscan_out_of_resource_run
    {KL : KernLayout} (drv : cuda_driver) (gss : GpuScanState) (w : world) :
  drv_rc drv Site_cuModuleGetFunction_exec_quals = CUDA_SUCCESS ->
  drv_rc drv Site_cuModuleGetFunction_dev_proj = CUDA_SUCCESS ->
  drv_mem_alloc drv (device_memory_length (w_gpuscan w)) = 0 ->
  __pgstrom_process_gpuscan drv gss w =
  (Ok false, snd (gpuscan_cleanup_cuda_resources drv (world_out_of_resource gss w))).
Proof.
  intros Hq Hp Hm.
  destruct w as [g st lg].
  unfold __pgstrom_process_gpuscan, cuModuleGetFunction, gpuMemAlloc, check_rc.
  rewrite Hq, Hp. cbn -[gpuscan_cleanup_cuda_resources device_memory_length].
  unfold bind at 1. cbn -[gpuscan_cleanup_cuda_resources device_memory_length].
  unfold device_memory_length in Hm. cbn in Hm.
  unfold bind, emit, update, ret, gets;
    cbn -[gpuscan_cleanup_cuda_resources device_memory_length].
  rewrite Hm. cbn -[gpuscan_cleanup_cuda_resources device_memory_length].
  unfold world_out_of_resource, device_memory_length. cbn [w_gpuscan w_stream w_log].
  rewrite <- !app_assoc. cbn [app].
  match goal with
  | |- context [gpuscan_cleanup_cuda_resources drv ?w1] =>
      pose proof (cleanup_returns drv w1) as Hr;
      destruct (gpuscan_cleanup_cuda_resources drv w1) as [r w1']
  end.
  cbn in Hr. subst r. reflexivity.
Qed.

Lemma out_of_resource_facts
    {KL : KernLayout} (drv : cuda_driver) (gss : GpuScanState) (w : world) :
  drv_rc drv Site_cuModuleGetFunction_exec_quals = CUDA_SUCCESS ->
  drv_rc drv Site_cuModuleGetFunction_dev_proj = CUDA_SUCCESS ->
  drv_mem_alloc drv (device_memory_length (w_gpuscan w)) = 0 ->
  let run := __pgstrom_process_gpuscan drv gss w in
  fst run = Ok false /\
  w_stream (snd run) = w_stream w /\
  cuda_resources_released (w_gpuscan (snd run)) /\
  pds_src (w_gpuscan (snd run)) = pds_src (w_gpuscan w) /\
  pds_dst (w_gpuscan (snd run)) = pds_dst (w_gpuscan w) /\
  kern (w_gpuscan (snd run)) = kern (w_gpuscan w).
Proof.
  intros Hq Hp Hm run.
  pose proof (process_gpuscan_out_of_resource_run drv gss w Hq Hp Hm) as Hrun.
  fold run in Hrun. rewrite Hrun. cbn [fst snd].
  pose proof (cleanup_releases drv (world_out_of_resource gss w))
    as (Hrel & Hst & _ & Hsrc & Hdst & Hkern).
  split; [reflexivity|]. split; [exact Hst|]. split; [exact Hrel|].
  split; [exact Hsrc|]. split; [exact Hdst|]. exact Hkern.
Qed.

(** C6.  When both kernel functions are found and gpuMemAlloc returns the
    null handle, __pgstrom_process_gpuscan raises no error: it runs the
    cleanup routine on the task and returns false.  With the CUDA context
    pushed, pgstrom_process_gpuscan returns false to its caller as well,
    with nothing put on the stream; the task keeps its chunks and its
    control block for a later attempt, and every CUDA handle of it is NULL
    or zero. *)
Theorem process_gpuscan_out_of_device_memory
    {KL : KernLayout} (drv : cuda_driver) (gss : GpuScanState) (w : world) :
  drv_rc drv Site_cuCtxPushCurrent = CUDA_SUCCESS ->
  drv_rc drv Site_cuModuleGetFunction_exec_quals = CUDA_SUCCESS ->
  drv_rc drv Site_cuModuleGetFunction_dev_proj = CUDA_SUCCESS ->
  drv_mem_alloc drv (device_memory_length (w_gpuscan w)) = 0 ->
  let inner := __pgstrom_process_gpuscan drv gss w in
  let outer := pgstrom_process_gpuscan drv gss w in
  (fst inner = Ok false /\
   snd inner = snd (gpuscan_cleanup_cuda_resources drv (world_out_of_resource gss w))) /\
  (fst outer = Ok false /\
   w_stream (snd outer) = w_stream w /\
   cuda_resources_released (w_gpuscan (snd outer)) /\
   pds_src (w_gpuscan (snd outer)) = pds_src (w_gpuscan w) /\
   pds_dst (w_gpuscan (snd outer)) = pds_dst (w_gpuscan w) /\
   kern (w_gpuscan (snd outer)) = kern (w_gpuscan w)).
Proof.
  intros Hpush Hq Hp Hm inner outer.
  split.
  - unfold inner.
    rewrite (process_gpuscan_out_of_resource_run drv gss w Hq Hp Hm).
    split; reflexivity.
  - unfold outer, pgstrom_process_gpuscan, PG_TRY, bind, gets, emit, ret,
      elog_WARNING, emit, elog_ERROR.
    rewrite Hpush.
    cbn -[__pgstrom_process_gpuscan gpuscan_cleanup_cuda_resources].
    match goal with
    | |- context [__pgstrom_process_gpuscan drv gss ?w1] =>
        pose proof (out_of_resource_facts drv gss w1 Hq Hp Hm)
          as (Hr & Hst & Hrel & Hsrc & Hdst & Hkern);
        destruct (__pgstrom_process_gpuscan drv gss w1) as [r w1']
    end.
    cbn in Hr, Hst, Hrel, Hsrc, Hdst, Hkern. subst r.
    destruct (drv_rc drv Site_cuCtxPopCurrent =? CUDA_SUCCESS); cbn;
      (split; [reflexivity|]); (split; [exact Hst|]); (split; [exact Hrel|]);
      (split; [exact Hsrc|]); (split; [exact Hdst|]); exact Hkern.
Qed.

Lemma process_gpuscan_out_of_device_memory_witness :
  let w := mkWorld example_task [] [] in
  fst (pgstrom_process_gpuscan (KL := example_layout) driver_no_memory example_gss w)
  = Ok false /\
  w_stream (snd (pgstrom_process_gpuscan (KL := example_layout) driver_no_memory
                                         example_gss w)) = [].
Proof.
  pose proof (process_gpuscan_out_of_device_memory
                (KL := example_layout) driver_no_memory example_gss
                (mkWorld example_task [] [])
                eq_refl eq_refl eq_refl eq_refl) as (_ & Hr & Hst & _).
  split; [exact Hr | exact Hst].
Defined.

(* --------------------------------------------------------------------- *)
(** ** A scan without device qualifiers *)
(* --------------------------------------------------------------------- *)

Lemma create_gpuscan_plan_info {CG : Codegen} (relid flags : Z) (tlist : list Node)
                               (clauses : list RestrictInfo) :
  let dev := extract_actual_clauses (filter device_capable clauses) false in
  exists gs_info,
    deform_gpuscan_info (create_gpuscan_plan relid flags tlist clauses) = Some gs_info /\
    gs_dev_quals gs_info = dev /\
    gs_kern_source gs_info =
      Some (fst (gpuscan_codegen_exec_quals dev pgstrom_init_codegen_context)).
Proof.
  intros dev. unfold create_gpuscan_plan. rewrite distribute_clauses_filter. cbn [app].
  fold dev.
  destruct (gpuscan_codegen_exec_quals dev pgstrom_init_codegen_context) as [src ctx].
  cbn. eexists. split; [reflexivity|]. split; reflexivity.
Qed.

Lemma In_firstn {A : Type} (x : A) (n : nat) (l : list A) :
  In x (firstn n l) -> In x l.
Proof.
  revert l. induction n as [|n IH]; intros [|a l]; cbn; try tauto.
  intros [H|H]; [now left | right; now apply IH].
Qed.

Lemma issue_order_without_quals (perfmon has_dest : bool) :
  ~ In K_launch_quals (issue_order perfmon false has_dest).
Proof.
  destruct perfmon, has_dest; cbn; intuition discriminate.
Qed.

(** C2.  For a scan without device qualifiers: (a) the text generated for
    gpuscan_quals_eval is the function whose body is [return true;], and
    that is the kernel source of a plan whose device qualifier list is
    empty; (b) create_pgstrom_gpuscan_task sets all_visible in the task's
    kern_resultbuf and leaves nrooms at zero; (c) whatever the driver
    answers, __pgstrom_process_gpuscan adds no launch of the predicate
    kernel to the task's stream. *)
Theorem scan_without_device_qualifiers
    {CG : Codegen} {DS : DataStore} {KL : KernLayout}
    (drv : cuda_driver) (gss : GpuScanState) :
  dev_quals gss = [] ->
  (forall context,
     gpuscan_codegen_exec_quals [] context = (quals_eval_always_true, context)) /\
  (forall relid flags tlist clauses,
     let plan := create_gpuscan_plan relid flags tlist clauses in
     plan_dev_quals plan = [] ->
     exists gs_info,
       deform_gpuscan_info plan = Some gs_info /\
       gs_kern_source gs_info = Some quals_eval_always_true) /\
  (forall pds_src,
     let kresults := kresults (kern (create_pgstrom_gpuscan_task gss pds_src)) in
     all_visible kresults = true /\ nrooms kresults = 0%N) /\
  (forall w c,
     In c (w_stream (snd (__pgstrom_process_gpuscan drv gss w))) ->
     kind_of c = K_launch_quals ->
     In c (w_stream w)).
Proof.
  intros Hnil. split; [|split; [|split]].
  - intros context. reflexivity.
  - intros relid flags tlist clauses plan Hplan.
    destruct (create_gpuscan_plan_info relid flags tlist clauses)
      as (gs_info & Hde & Hdq & Hsrc).
    fold plan in Hde. exists gs_info. split; [exact Hde|].
    unfold plan_dev_quals in Hplan. rewrite Hde, Hdq in Hplan.
    rewrite Hsrc, Hplan. reflexivity.
  - intros pds_src. unfold create_pgstrom_gpuscan_task. rewrite Hnil.
    cbn. split; reflexivity.
  - intros w c Hin Hkind.
    pose proof (process_gpuscan_issues drv gss w) as Hrun.
    unfold wp, process_post in Hrun. destruct Hrun as ((n & Hpre) & _).
    pose proof (issue_sequence_kinds drv gss (w_gpuscan w)) as Hkinds.
    rewrite Hpre in Hin. apply in_app_or in Hin as [Hin|Hin]; [exact Hin|].
    exfalso. apply In_firstn in Hin.
    apply (in_map kind_of) in Hin. rewrite Hkinds, Hkind in Hin.
    unfold has_dev_quals in Hin. rewrite Hnil in Hin.
    revert Hin. apply issue_order_without_quals.
Qed.

Lemma scan_without_device_qualifiers_witness :
  let gss := mkGss (example_gts true) 0%N 10%N [] false 8 8 0 0 in
  dev_quals gss = [] /\
  all_visible (kresults (kern (create_pgstrom_gpuscan_task
                                 (DS := example_datastore) (KL := example_layout)
                                 gss example_source))) = true.
Proof.
  split; [reflexivity|].
  exact (proj1 (proj1 (proj2 (proj2 (scan_without_device_qualifiers
                                       (CG := example_codegen) (DS := example_datastore)
                                       (KL := example_layout) driver_ok
                                       (mkGss (example_gts true) 0%N 10%N [] false 8 8 0 0)
                                       eq_refl)))
                      example_source)).
Defined.

(* --------------------------------------------------------------------- *)
(** ** gpuscan_next_chunk *)
(* --------------------------------------------------------------------- *)

Section NextChunkFacts.
Context {DS : DataStore} {KL : KernLayout}.

Lemma fill_loop_range (n : nat) (pds : pgstrom_data_store) (curr last : N) :
  (curr <= last)%N ->
  (curr <= snd (fill_loop n pds curr last) <= last)%N.
Proof.
  revert pds curr. induction n as [|n IH]; intros pds curr Hle; cbn.
  - lia.
  - destruct (N.ltb_spec curr last) as [Hlt|Hge]; cbn; [|lia].
    destruct (pgstrom_data_store_insert_block pds curr) as [rc pds'].
    destruct (rc >=? 0); cbn; [|lia].
    specialize (IH pds' (curr + 1)%N). lia.
Qed.

(** More fuel than blocks left changes nothing: the fuel of
    [fill_data_store] is enough for the inner loop. *)
Lemma fill_loop_enough (n : nat) (pds : pgstrom_data_store) (curr last : N) :
  (N.to_nat (last - curr) <= n)%nat ->
  fill_loop n pds curr last = fill_data_store pds curr last.
Proof.
  unfold fill_data_store.
  remember (N.to_nat (last - curr)) as k eqn:Hk.
  revert n pds curr Hk. induction k as [|k IH]; intros n pds curr Hk Hn.
  - destruct n; cbn; [reflexivity|].
    destruct (N.ltb_spec curr last); [lia | reflexivity].
  - destruct n as [|n]; [lia|]. cbn.
    destruct (N.ltb_spec curr last); [|reflexivity].
    destruct (pgstrom_data_store_insert_block pds curr) as [rc pds'].
    destruct (rc >=? 0); [|reflexivity].
    apply IH; lia.
Qed.

Lemma fill_data_store_advances (gss : GpuScanState) (curr last : N) :
  first_block_fits -> (curr < last)%N ->
  (curr < snd (fill_data_store (fresh_store gss) curr last))%N.
Proof.
  intros Hfit Hlt. unfold fill_data_store.
  destruct (N.to_nat (last - curr)) as [|n] eqn:Hn; [lia|]. cbn.
  destruct (N.ltb_spec curr last); [|lia].
  specialize (Hfit gss curr).
  destruct (pgstrom_data_store_insert_block (fresh_store gss) curr) as [rc pds'].
  cbn in Hfit.
  destruct (Z.geb_spec rc 0); [|lia].
  pose proof (fill_loop_range n pds' (curr + 1)%N last). lia.
Qed.

Lemma next_chunk_loop_result (fuel : nat) (gss : GpuScanState) (lv : next_chunk_locals) :
  next_chunk_loop fuel gss = Some lv ->
  (lv_gpuscan lv = None <->
   rows_gathered lv = 0%N /\ (last_blknum (lv_gss lv) <= curr_blknum (lv_gss lv))%N).
Proof.
  revert gss. induction fuel as [|fuel IH]; intros gss; cbn; [discriminate|].
  destruct (fill_data_store _ _ _) as [pds curr].
  destruct (N.ltb_spec 0 (kds_nitems (kds pds))) as [Hpos|Hzero].
  - intros [= <-]. cbn. split; [discriminate|]. intros [H _]. lia.
  - cbn. destruct (N.leb_spec (last_blknum gss) curr) as [Hend|Hmore].
    + intros [= <-]. cbn. split; [|reflexivity]. intros _. split; lia.
    + apply IH.
Qed.

Lemma next_chunk_loop_returns (gss : GpuScanState) (fuel : nat) :
  first_block_fits ->
  (N.to_nat (last_blknum gss - curr_blknum gss) < fuel)%nat ->
  exists lv, next_chunk_loop fuel gss = Some lv.
Proof.
  intros Hfit. revert gss.
  induction fuel as [|fuel IH]; intros gss Hfuel; [lia|]. cbn.
  fold (fresh_store gss).
  destruct (fill_data_store _ _ _) as [pds curr] eqn:Hfill.
  destruct (0 <? kds_nitems (kds pds))%N; [eauto|].
  cbn. destruct (N.leb_spec (last_blknum gss) curr) as [Hend|Hmore]; [eauto|].
  apply IH. cbn.
  assert (Hlt : (curr_blknum gss < last_blknum gss)%N).
  { pose proof (fill_loop_range (N.to_nat (last_blknum gss - curr_blknum gss))
                                (fresh_store gss) (curr_blknum gss) (last_blknum gss)) as Hr.
    unfold fill_data_store in Hfill. rewrite Hfill in Hr. cbn in Hr.
    destruct (N.ltb_spec (curr_blknum gss) (last_blknum gss)); [assumption|].
    exfalso.
    assert (N.to_nat (last_blknum gss - curr_blknum gss) = 0%nat) as Hz by lia.
    rewrite Hz in Hfill. cbn in Hfill. injection Hfill as _ Hc. lia. }
  pose proof (fill_data_store_advances gss _ _ Hfit Hlt) as Hadv.
  rewrite Hfill in Hadv. cbn in Hadv. lia.
Qed.

End NextChunkFacts.

(** C5.  gpuscan_next_chunk returns a NULL task exactly when the round it
    stops in gathered no row and the block cursor has reached the end of
    the relation.  On a relation without blocks the first call returns
    NULL.  A round that gathers no row while blocks remain unread is
    followed by another round of the same call, from the advanced cursor.
    Provided the first block offered to a new data store is always taken,
    the call returns within as many rounds as blocks are left, plus one. *)
Theorem gpuscan_next_chunk_null_iff
    {DS : DataStore} {KL : KernLayout} (gss : GpuScanState) :
  (forall fuel lv,
     gpuscan_next_chunk_locals fuel gss = Some lv ->
     gpuscan_next_chunk fuel gss = Some (lv_gpuscan lv, lv_gss lv) /\
     (lv_gpuscan lv = None <->
      rows_gathered lv = 0%N /\
      (last_blknum (lv_gss lv) <= curr_blknum (lv_gss lv))%N)) /\
  (created_empty ->
   curr_blknum gss = 0%N -> last_blknum gss = 0%N ->
   forall fuel, gpuscan_next_chunk (S fuel) gss = Some (None, gss)) /\
  (forall fuel pds curr,
     (curr_blknum gss <= last_blknum gss)%N ->
     fill_data_store (fresh_store gss) (curr_blknum gss) (last_blknum gss) = (pds, curr) ->
     kds_nitems (kds pds) = 0%N -> (curr < last_blknum gss)%N ->
     gpuscan_next_chunk (S fuel) gss =
     gpuscan_next_chunk fuel (set_curr_blknum gss curr)) /\
  (first_block_fits ->
   exists lv,
     gpuscan_next_chunk_locals
       (S (N.to_nat (last_blknum gss - curr_blknum gss))) gss = Some lv).
Proof.
  split; [|split; [|split]].
  - intros fuel lv Hlv. split.
    + unfold gpuscan_next_chunk. now rewrite Hlv.
    + unfold gpuscan_next_chunk_locals in Hlv.
      destruct (N.ltb_spec (last_blknum gss) (curr_blknum gss)) as [Hpast|Hin].
      * injection Hlv as <-. cbn. split; [|reflexivity]. intros _. split; lia.
      * eapply next_chunk_loop_result; eassumption.
  - intros Hempty Hcurr Hlast fuel.
    unfold gpuscan_next_chunk, gpuscan_next_chunk_locals.
    rewrite Hcurr, Hlast. cbn. rewrite Hlast, Hcurr. cbn.
    unfold set_table_oid. cbn. rewrite Hempty. cbn.
    destruct gss as [g c l dq dp bw pw ew nr]. cbn in *. subst. reflexivity.
  - intros fuel pds curr Hle Hfill Hzero Hmore.
    unfold gpuscan_next_chunk, gpuscan_next_chunk_locals.
    destruct (N.ltb_spec (last_blknum gss) (curr_blknum gss)); [lia|].
    cbn [next_chunk_loop]. fold (fresh_store gss). rewrite Hfill, Hzero. cbn.
    destruct (N.leb_spec (last_blknum gss) curr); [lia|].
    destruct (N.ltb_spec (last_blknum gss) curr); [lia|]. reflexivity.
  - intros Hfit. unfold gpuscan_next_chunk_locals.
    destruct (last_blknum gss <? curr_blknum gss)%N; [eauto|].
    apply next_chunk_loop_returns; [assumption | lia].
Qed.

Lemma example_created_empty : created_empty (DS := example_datastore).
Proof. intros length. reflexivity. Qed.

Lemma example_first_block_fits : first_block_fits (DS := example_datastore).
Proof. intros gss blknum. cbn. lia. Qed.

Lemma gpuscan_next_chunk_null_iff_witness :
  created_empty (DS := example_datastore) /\
  gpuscan_next_chunk (DS := example_datastore) (KL := example_layout)
                     1 empty_relation_gss = Some (None, empty_relation_gss).
Proof.
  split; [exact example_created_empty|].
  exact (proj1 (proj2 (gpuscan_next_chunk_null_iff
                         (DS := example_datastore) (KL := example_layout)
                         empty_relation_gss))
               example_created_empty eq_refl eq_refl 0%nat).
Defined.

(** The hole of the example relation takes two rounds that gather nothing;
    the third round returns a task with the six rows of blocks 8 and 9. *)
Example gpuscan_next_chunk_over_hole :
  match gpuscan_next_chunk (DS := example_datastore) (KL := example_layout)
                           3 example_gss with
  | Some (Some gpuscan, gss) =>
      kds_nitems (kds (pds_src gpuscan)) = 6%N /\ curr_blknum gss = 10%N
  | _ => False
  end.
Proof. vm_compute. split; reflexivity. Qed.

Example gpuscan_next_chunk_over_hole_short :
  gpuscan_next_chunk (DS := example_datastore) (KL := example_layout) 2 example_gss = None.
Proof. reflexivity. Qed.

(* --------------------------------------------------------------------- *)
(** ** gpuscan_next_tuple *)
(* --------------------------------------------------------------------- *)

Section NextTupleFacts.
Context {DS : DataStore} {KL : KernLayout}.

(** With a destination chunk, gpuscan_next_tuple walks its rows: below
    nitems it fetches the row at the current index and moves the index on
    by one, at nitems it returns a NULL slot and leaves the index. *)
Lemma gpuscan_next_tuple_with_destination
    (gss : GpuScanState) (gpuscan : pgstrom_gpuscan) (dst : pgstrom_data_store) :
  curr_task (gts gss) = Some gpuscan ->
  pds_dst gpuscan = Some dst ->
  let index := curr_index (gts gss) in
  let '(slot, gss') := gpuscan_next_tuple gss in
  ((index < kds_nitems (kds dst))%N ->
   curr_index (gts gss') = (index + 1)%N /\
   slot = match pgstrom_fetch_data_store dst index with
          | Some tup => SlotTuple tup
          | None => NextElog "failed to fetch a record from pds"
          end) /\
  ((kds_nitems (kds dst) <= index)%N -> slot = SlotNull /\ gss' = gss) /\
  (slot = SlotNull <-> (kds_nitems (kds dst) <= index)%N).
Proof.
  intros Htask Hdst index. unfold gpuscan_next_tuple. rewrite Htask, Hdst.
  fold index.
  destruct (N.ltb_spec index (kds_nitems (kds dst))) as [Hlt|Hge].
  - destruct (pgstrom_fetch_data_store dst index) as [tup|]; cbn;
      (split; [intros _; split; reflexivity|]);
      (split; [intros; lia|]); (split; [discriminate | intros; lia]).
  - split; [intros; lia|]. split; [intros _; split; reflexivity|].
    split; [intros _; exact Hge | reflexivity].
Qed.

(** A task made for a row-format scan without device projection has no
    destination chunk, and gpuscan_next_tuple reads through the NULL
    pointer. *)
Lemma gpuscan_next_tuple_without_destination
    (gss : GpuScanState) (src : pgstrom_data_store) :
  be_row_format (gts gss) = true ->
  dev_projection gss = false ->
  pds_dst (create_pgstrom_gpuscan_task gss src) = None /\
  fst (gpuscan_next_tuple
         (set_curr_task gss (Some (create_pgstrom_gpuscan_task gss src))))
  = NullDereference.
Proof.
  intros Hrow Hproj.
  assert (H : pds_dst (create_pgstrom_gpuscan_task gss src) = None).
  { unfold create_pgstrom_gpuscan_task. rewrite Hrow, Hproj. reflexivity. }
  split; [exact H|].
  unfold gpuscan_next_tuple. cbn [set_curr_task gts curr_task]. now rewrite H.
Qed.

End NextTupleFacts.

(** C9, the failing input.  For the task that create_pgstrom_gpuscan_task
    makes for a row-format scan without device projection, over a source
    chunk of three rows, gpuscan_next_tuple does not return the first
    row: the task has no destination chunk and the routine reads
    [pds_dst->kds->nitems] through the NULL pointer. *)
Theorem gpuscan_next_tuple_null_destination :
  let gpuscan := create_pgstrom_gpuscan_task (DS := example_datastore)
                                             (KL := example_layout)
                                             row_scan_gss example_source in
  kds_nitems (kds (pds_src gpuscan)) = 3%N /\
  pds_dst gpuscan = None /\
  fst (gpuscan_next_tuple (DS := example_datastore)
                          (set_curr_task row_scan_gss (Some gpuscan)))
  = NullDereference.
Proof. cbv zeta. repeat split; reflexivity. Qed.

(* --------------------------------------------------------------------- *)
(** ** pgstrom_respond_gpuscan *)
(* --------------------------------------------------------------------- *)



(* --------------------------------------------------------------------- *)
(** ** The sizing pass and the write pass of the projection *)
(* --------------------------------------------------------------------- *)

Lemma land_lnot_pow2 (y k : Z) :
  0 <= k -> Z.land y (Z.lnot (2 ^ k - 1)) = y / 2 ^ k * 2 ^ k.
Proof.
  intros Hk. rewrite <- Z.ldiff_land.
  replace (2 ^ k - 1) with (Z.ones k) by (rewrite Z.ones_equiv; lia).
  rewrite Z.ldiff_ones_r by assumption.
  now rewrite Z.shiftr_div_pow2, Z.shiftl_mul_pow2.
Qed.

Lemma TYPEALIGN_round_up (a x : Z) :
  is_typalign a -> TYPEALIGN a x = x + (- x) mod a.
Proof.
  unfold TYPEALIGN.
  intros [-> | [-> | [-> | ->]]].
  - change (1 - 1) with (2 ^ 0 - 1). rewrite land_lnot_pow2 by lia.
    change (2 ^ 0) with 1. rewrite Z.mod_1_r, Z.div_1_r. lia.
  - change (2 - 1) with (2 ^ 1 - 1) at 2. rewrite land_lnot_pow2 by lia.
    change (2 ^ 1) with 2. Z.div_mod_to_equations. lia.
  - change (4 - 1) with (2 ^ 2 - 1) at 2. rewrite land_lnot_pow2 by lia.
    change (2 ^ 2) with 4. Z.div_mod_to_equations. lia.
  - change (8 - 1) with (2 ^ 3 - 1) at 2. rewrite land_lnot_pow2 by lia.
    change (2 ^ 3) with 8. Z.div_mod_to_equations. lia.
Qed.

Lemma MAXALIGN_bounds (x : Z) :
  x <= MAXALIGN x < x + 8 /\ MAXALIGN x mod 8 = 0.
Proof.
  unfold MAXALIGN, MAXIMUM_ALIGNOF.
  rewrite TYPEALIGN_round_up by (unfold is_typalign; auto).
  Z.div_mod_to_equations. lia.
Qed.

(** One aligned step seen from both passes: [d] is how far the write pass
    has come from its 8-byte aligned start, and the cl_uint of the sizing
    pass holds [d] modulo 2^32. *)
Lemma aligned_step (a start d len : Z) :
  is_typalign a -> start mod 8 = 0 ->
  to_uint32 (TYPEALIGN a (to_uint32 d) + len) =
  to_uint32 (TYPEALIGN a (start + d) + len - start).
Proof.
  intros Ha Hs. unfold to_uint32.
  rewrite !TYPEALIGN_round_up by assumption.
  change (2 ^ 32) with 4294967296.
  destruct Ha as [-> | [-> | [-> | ->]]]; Z.div_mod_to_equations; lia.
Qed.

Section ProjectionFacts.
Context {CG : Codegen} {DR : DeviceRuntime}.

(** The statements of the two passes run one after another, each template
    on its own: the sizing total and the distance vl_buf has come stay
    equal as cl_uint. *)
Lemma passes_agree (temp_v : Z -> temp_var) (start : Z)
                   (scan_tlist : list TargetEntry) :
  start mod 8 = 0 ->
  indirect_alignments_ok scan_tlist ->
  forall sizing writes vl_len st,
    codegen_sizing scan_tlist = Ok sizing ->
    codegen_write scan_tlist = Ok writes ->
    vl_len = to_uint32 (vl_buf st - start) ->
    fold_left (exec_sizing temp_v) sizing vl_len =
    to_uint32 (vl_buf (fold_left (exec_write temp_v) writes st) - start).
Proof.
  intros Hstart.
  induction scan_tlist as [|tle rest IH]; intros Hal sizing writes vl_len st Hs Hw Hinv.
  - cbn in Hs, Hw. injection Hs as <-. injection Hw as <-. exact Hinv.
  - assert (Hal' : indirect_alignments_ok rest).
    { intros t d Hin. apply Hal. now right. }
    cbn in Hs, Hw.
    destruct (IsA_Var (tle_expr tle)) eqn:Hvar; [now apply IH|].
    destruct (pgstrom_devtype_lookup (exprType (tle_expr tle))) as [dtype|] eqn:Hdt;
      [|discriminate].
    assert (Ha : is_typalign (type_align dtype)).
    { apply (Hal tle dtype); [now left | assumption | assumption]. }
    destruct (codegen_sizing rest) as [more_s|] eqn:Hms; [|discriminate].
    destruct (codegen_write rest) as [more_w|] eqn:Hmw; [|discriminate].
    injection Hs as <-. injection Hw as <-.
    cbn [fold_left app]. rewrite !fold_left_app.
    apply (IH Hal' more_s more_w); [reflexivity | reflexivity |].
    subst vl_len.
    set (d := vl_buf st - start).
    assert (Hbuf : vl_buf st = start + d) by (unfold d; lia).
    destruct (exprType (tle_expr tle) =? NUMERICOID).
    + cbn. destruct (tv_isnull (temp_v (tle_resno tle))); cbn; [reflexivity|].
      rewrite Hbuf. apply aligned_step; [unfold is_typalign, sizeof_cl_uint; auto | assumption].
    + destruct (type_byval dtype); cbn.
      * destruct (tv_isnull (temp_v (tle_resno tle))); reflexivity.
      * destruct (tv_isnull (temp_v (tle_resno tle))); cbn; [reflexivity|].
        rewrite Hbuf. now apply aligned_step.
Qed.

(** The text of steps 4 and 5 that reaches the kernel source: [needs_vlbuf]
    is never set, so the sizing pass built in [temp] is left out. *)
Lemma sizing_pass_not_emitted (scan_tlist : list TargetEntry)
                              (sizing : list sizing_stmt) (writes : list write_stmt) :
  codegen_sizing scan_tlist = Ok sizing ->
  codegen_write scan_tlist = Ok writes ->
  codegen_projection_slot scan_tlist =
  Ok (("  if (format == KDS_FORMAT_SLOT)" +++ nl +++ "  {" +++ nl)
      +++ ("    if (htup)" +++ nl +++ "    {" +++ nl)
      +++ concat_text (map render_write writes)
      +++ "    }" +++ nl +++ "  }" +++ nl).
Proof.
  intros Hs Hw. unfold codegen_projection_slot. rewrite Hs, Hw.
  unfold needs_vlbuf. reflexivity.
Qed.

End ProjectionFacts.

Section WritePassFacts.
Context {DR : DeviceRuntime}.
Variable temp_v : Z -> temp_var.

(** Control does not get past a numeric entry that is null: the
    statements printed after it are not run. *)
Lemma write_pass_stops_at_null_numeric
    (before after : list write_stmt) (resno : Z) (st : write_state) :
  tv_isnull (temp_v resno) = true ->
  write_pass temp_v (before ++ WrNumeric resno :: after) st
  = write_pass temp_v before st.
Proof.
  intros Hnull. revert st.
  induction before as [|s before IH]; intros st; cbn [app write_pass].
  - now rewrite Hnull.
  - destruct s as [r|r|r n|r a l]; try apply IH.
    destruct (tv_isnull (temp_v r)); [reflexivity | apply IH].
Qed.

(** When no numeric entry is null the unclosed blocks change nothing. *)
Lemma write_pass_without_null_numeric (stmts : list write_stmt) (st : write_state) :
  (forall resno, In (WrNumeric resno) stmts -> tv_isnull (temp_v resno) = false) ->
  write_pass temp_v stmts st = fold_left (exec_write temp_v) stmts st.
Proof.
  revert st. induction stmts as [|s stmts IH]; intros st Hnn; [reflexivity|].
  assert (Hrest : forall resno, In (WrNumeric resno) stmts ->
                                tv_isnull (temp_v resno) = false)
    by (intros r Hr; apply Hnn; now right).
  cbn [write_pass fold_left].
  destruct s as [r|r|r n|r a l]; try (apply IH; exact Hrest).
  rewrite (Hnn r) by now left. apply IH. exact Hrest.
Qed.

End WritePassFacts.

Section SlotPassFacts.
Context {CG : Codegen} {DR : DeviceRuntime}.

Lemma codegen_write_numeric (scan_tlist : list TargetEntry)
                            (writes : list write_stmt) (resno : Z) :
  codegen_write scan_tlist = Ok writes ->
  In (WrNumeric resno) writes ->
  exists tle, In tle scan_tlist /\ IsA_Var (tle_expr tle) = false /\
              exprType (tle_expr tle) = NUMERICOID /\ tle_resno tle = resno.
Proof.
  revert writes. induction scan_tlist as [|tle rest IH]; intros writes Hw Hin.
  - cbn in Hw. injection Hw as <-. destruct Hin.
  - cbn in Hw.
    destruct (IsA_Var (tle_expr tle)) eqn:Hvar.
    { destruct (IH writes Hw Hin) as (t & Ht & H). exists t. split; [now right | exact H]. }
    destruct (pgstrom_devtype_lookup (exprType (tle_expr tle))) as [dtype|];
      [|discriminate].
    destruct (codegen_write rest) as [more|]; [|discriminate].
    injection Hw as <-.
    destruct Hin as [Hin|Hin]; [discriminate|].
    apply in_app_or in Hin. destruct Hin as [Hin|Hin].
    + destruct (Z.eqb_spec (exprType (tle_expr tle)) NUMERICOID) as [Hnum|Hnum].
      * destruct Hin as [[= <-]|[]]. exists tle. split; [now left | auto].
      * destruct (type_byval dtype); destruct Hin as [Hin|[]]; discriminate.
    + destruct (IH more eq_refl Hin) as (t & Ht & H).
      exists t. split; [now right | exact H].
Qed.

(** What the builder is after: for a row in which no computed numeric is
    null, the byte total the sizing statements accumulate before the
    final MAXALIGN equals, as a cl_uint, the number of bytes by which the
    write statements advance vl_buf, when vl_buf starts 8-byte aligned
    and the indirect types are aligned to 1, 2, 4 or 8 bytes; the amount
    reserved is that total rounded up to a multiple of 8. *)
Lemma passes_agree_without_null_numeric
    (temp_v : Z -> temp_var) (scan_tlist : list TargetEntry)
    (sizing : list sizing_stmt) (writes : list write_stmt) (start : Z) :
  codegen_sizing scan_tlist = Ok sizing ->
  codegen_write scan_tlist = Ok writes ->
  indirect_alignments_ok scan_tlist ->
  numerics_not_null temp_v scan_tlist ->
  start mod 8 = 0 ->
  let accum := sizing_pass_accum temp_v sizing in
  accum = to_uint32 (write_pass_advance temp_v writes start) /\
  sizing_pass_reserved temp_v sizing = to_uint32 (MAXALIGN accum) /\
  accum <= MAXALIGN accum < accum + 8 /\
  MAXALIGN accum mod 8 = 0.
Proof.
  intros Hs Hw Hal Hnn Hstart accum.
  split.
  - unfold accum, sizing_pass_accum, write_pass_advance.
    rewrite write_pass_without_null_numeric.
    + apply (passes_agree temp_v start scan_tlist Hstart Hal); try assumption.
      cbn. now rewrite Z.sub_diag.
    + intros resno Hin.
      destruct (codegen_write_numeric scan_tlist writes resno Hw Hin)
        as (tle & Ht & Hvar & Hnum & <-).
      now apply Hnn.
  - split; [reflexivity|]. apply MAXALIGN_bounds.
Qed.

End SlotPassFacts.

(** C3, the failing input.  For a target list of two computed numeric
    columns and a row in which the first is NULL and the second is zero,
    the sizing statements accumulate the six bytes of the second column
    and reserve eight, while the write statements as printed advance
    vl_buf by nothing and do not store the null flag of the second
    column: the block that the null check of the first column opens is
    never closed, so the statements of the second column are inside it.
    The text that reaches the kernel source holds the write statements
    only, with four opening and two closing braces: needs_vlbuf is never
    set, so the sizing statements, with the declaration and the
    allocation of vl_buf, are left out. *)
Theorem sizing_and_write_passes_diverge :
  codegen_sizing (CG := example_codegen) two_numeric_tlist
  = Ok [SzNumeric 1; SzNumeric 2] /\
  codegen_write (CG := example_codegen) two_numeric_tlist
  = Ok [WrIsnull 1; WrNumeric 1; WrIsnull 2; WrNumeric 2] /\
  sizing_pass_accum (DR := example_runtime) first_null_row
                    [SzNumeric 1; SzNumeric 2] = 6 /\
  sizing_pass_reserved (DR := example_runtime) first_null_row
                       [SzNumeric 1; SzNumeric 2] = 8 /\
  write_pass (DR := example_runtime) first_null_row
             [WrIsnull 1; WrNumeric 1; WrIsnull 2; WrNumeric 2]
             (mkWriteState 4096 [] [] [])
  = mkWriteState 4096 [(0, true)] [] [] /\
  write_pass_advance (DR := example_runtime) first_null_row
                     [WrIsnull 1; WrNumeric 1; WrIsnull 2; WrNumeric 2] 4096 = 0 /\
  exists text,
    codegen_projection_slot (CG := example_codegen) two_numeric_tlist = Ok text /\
    text = ("  if (format == KDS_FORMAT_SLOT)" +++ nl +++ "  {" +++ nl)
           +++ ("    if (htup)" +++ nl +++ "    {" +++ nl)
           +++ concat_text (map render_write
                                [WrIsnull 1; WrNumeric 1; WrIsnull 2; WrNumeric 2])
           +++ "    }" +++ nl +++ "  }" +++ nl /\
    count_char "{" text = 4%nat /\
    count_char "}" text = 2%nat.
Proof.
  repeat (split; [reflexivity|]).
  eexists. split; [reflexivity|]. repeat split; vm_compute; reflexivity.
Qed.

(* --------------------------------------------------------------------- *)
(** ** Runs on the example instances *)
(* --------------------------------------------------------------------- *)

Example TYPEALIGN_rounds_up :
  TYPEALIGN 4 5 = 8 /\ TYPEALIGN 8 16 = 16 /\ MAXALIGN 6 = 8.
Proof. repeat split; reflexivity. Qed.

(** A task with a destination chunk, all driver calls granted: the three
    copies in, the two kernels, the two copies out, the callback. *)
Example process_gpuscan_example_stream :
  w_stream (snd (__pgstrom_process_gpuscan (KL := example_layout) driver_ok example_gss
                                           (mkWorld example_task [] []))) =
  [CmdMemcpyHtoD 65536 (Host_kern 0) 80;
   CmdMemcpyHtoD 66560 Host_kds_src 2048;
   CmdMemcpyHtoD 68608 Host_kds_dst 64;
   CmdLaunchKernel (Some "gpuscan_exec_quals"%string) 1 256 3072 [65536; 66560];
   CmdLaunchKernel (Some "gpuscan_projection_slot"%string) 1 256 3072
                   [65536; 66560; 68608];
   CmdMemcpyDtoH (Host_kern 56) 65592 24;
   CmdMemcpyDtoH Host_kds_dst 68608 112;
   CmdAddCallback Callback_respond_gpuscan].
Proof. vm_compute. reflexivity. Qed.

(** The callback in a running transaction: a task that failed in the CUDA
    runtime goes to the head of the completed list, a task that succeeded
    to its tail. *)
Example respond_gpuscan_failed_first :
  completed_tasks
    (be_gts (pgstrom_respond_gpuscan
               (KL := example_layout) 700
               (mkBackend 4096 (set_chain_linked true example_task)
                          (mkGts false 40 16384 false None 0%N [4096; 8192] 2 [12288] 1)
                          true false [])))
  = [4096; 12288].
Proof. reflexivity. Qed.

Example respond_gpuscan_succeeded_last :
  completed_tasks
    (be_gts (pgstrom_respond_gpuscan
               (KL := example_layout) CUDA_SUCCESS
               (mkBackend 4096 (set_chain_linked true example_task)
                          (mkGts false 40 16384 false None 0%N [4096; 8192] 2 [12288] 1)
                          true false [])))
  = [12288; 4096].
Proof. reflexivity. Qed.

(** The text of the slot branch for a computed numeric column followed by
    a computed int4 column: the write pass alone. *)
Example codegen_projection_slot_example :
  codegen_projection_slot (CG := example_codegen)
                          (numeric_tlist ++ [mkTargetEntry (T_Expr 4) 2]) =
  Ok ("  if (format == KDS_FORMAT_SLOT)" +++ nl +++
      "  {" +++ nl +++
      "    if (htup)" +++ nl +++
      "    {" +++ nl +++
      "    tup_isnull[0] = temp_1_v.isnull;" +++ nl +++
      "    if (!temp_1_v.isnull)" +++ nl +++
      "    {" +++ nl +++
      "      vl_buf = (char *)TYPEALIGN(sizeof(cl_int), vl_buf);" +++ nl +++
      "      tup_values[0] = devptr_to_host(kds_dst, vl_buf);" +++ nl +++
      "      vl_buf += pg_numeric_to_varlena(kcxt, vl_buf," +++ nl +++
      "                                      temp_1_v.value," +++ nl +++
      "                                      temp_1_v.isnull);" +++ nl +++
      "    tup_isnull[1] = temp_2_v.isnull;" +++ nl +++
      "    if (!temp_2_v.isnull)" +++ nl +++
      "      tup_values[1] = pg_int4_to_datum(temp_2_v.value);" +++ nl +++
      "    }" +++ nl +++
      "  }" +++ nl).
Proof. vm_compute. reflexivity. Qed.

(* --------------------------------------------------------------------- *)
(** ** pgstrom_process_gpuscan: what a run leaves behind *)
(* --------------------------------------------------------------------- *)

Ltac log_leaf :=
  unfold log_keeps_context; cbn;
  eexists; split;
  [ repeat rewrite <- app_assoc; first [ reflexivity | symmetry; apply app_nil_r ]
  | repeat constructor ].

Lemma log_keeps_context_trans (w1 w2 w3 : world) :
  log_keeps_context w1 w2 -> log_keeps_context w2 w3 -> log_keeps_context w1 w3.
Proof.
  intros (a & Ha & Fa) (b & Hb & Fb). exists (a ++ b). split.
  - now rewrite Hb, Ha, app_assoc.
  - apply Forall_app. now split.
Qed.

Section ProcessFrameFacts.
Context {KL : KernLayout}.
Variable drv : cuda_driver.

Lemma process_gpuscan_enqueue_frame (gss : GpuScanState) (w : world) :
  wp (process_gpuscan_enqueue drv gss) (enqueue_frame w) w.
Proof.
  destruct w as [g st lg].
  destruct g as [t q p m ms md e1 e2 e3 e4 src dst k al].
  destruct t as [ke pf cl cs cd cc cm].
  destruct pf as [en b1 n1 nq b2 n2].
  unfold process_gpuscan_enqueue, enqueue_frame, device_layout.
  destruct dst as [dst|], en, (dev_quals gss) as [|dq dqs]; cbn.
  all: repeat wp_step.
  all: (split; [intros b Hb; congruence|]).
  all: repeat (split; [reflexivity|]).
  all: log_leaf.
Qed.

Lemma cleanup_log (w : world) :
  log_keeps_context w (snd (gpuscan_cleanup_cuda_resources drv w)).
Proof.
  destruct w as [g st lg].
  destruct g as [t q p m ms md e1 e2 e3 e4 src dst k al].
  unfold gpuscan_cleanup_cuda_resources, CUDA_EVENT_DESTROY, gpuMemFree,
    elog_WARNING, bind, gets, update, emit, ret; cbn.
  destruct (e4 =? 0); cbn; [| destruct (drv_rc drv _ =? _); cbn];
    (destruct (e3 =? 0); cbn; [| destruct (drv_rc drv _ =? _); cbn]);
    (destruct (e2 =? 0); cbn; [| destruct (drv_rc drv _ =? _); cbn]);
    (destruct (e1 =? 0); cbn; [| destruct (drv_rc drv _ =? _); cbn]);
    destruct (m =? 0); cbn; log_leaf.
Qed.

Lemma process_gpuscan_frame (gss : GpuScanState) (w : world) :
  wp (__pgstrom_process_gpuscan drv gss) (process_frame drv gss w) w.
Proof.
  destruct w as [g st lg].
  destruct g as [t q p m ms md e1 e2 e3 e4 src dst k al].
  unfold __pgstrom_process_gpuscan, process_frame.
  repeat wp_step.
  - (* out of device memory *)
    apply wp_cleanup, wp_ret.
    match goal with
    | |- context [gpuscan_cleanup_cuda_resources drv ?w1] =>
        destruct (cleanup_releases drv w1) as (Hrel & _ & _ & Hsrc & Hdst & Hk);
        pose proof (cleanup_log w1) as Hlog
    end.
    cbn in Hsrc, Hdst, Hk.
    split; [discriminate|]. split; [intros _; exact Hrel|].
    split; [exact Hsrc|]. split; [exact Hdst|]. split; [exact Hk|].
    eapply log_keeps_context_trans; [|exact Hlog]. log_leaf.
  - (* the requests are enqueued *)
    eapply wp_mono; [apply process_gpuscan_enqueue_frame|].
    unfold enqueue_frame. cbn.
    intros r w' (Htrue & Hm & Hlay & Hq & Hp & Hsrc & Hdst & Hk & Hlog).
    split.
    { intros _. split; [apply Z.eqb_neq; assumption|].
      split; [exact Hm|]. split; [exact Hlay|]. split; assumption. }
    split.
    { intros Hr. specialize (Htrue false Hr). discriminate. }
    split; [exact Hsrc|]. split; [exact Hdst|]. split; [exact Hk|].
    eapply log_keeps_context_trans; [|exact Hlog]. log_leaf.
  - split; [discriminate|]. split; [discriminate|].
    repeat (split; [reflexivity|]). log_leaf.
  - split; [discriminate|]. split; [discriminate|].
    repeat (split; [reflexivity|]). log_leaf.
Qed.

End ProcessFrameFacts.

Ltac accounted_leaf :=
  unfold stream_accounted; cbn;
  eexists; split;
  [ repeat rewrite <- app_assoc; first [ reflexivity | symmetry; apply app_nil_r ]
  | split;
    [ unfold perfmon_counts; cbn; repeat split; lia
    | reflexivity ] ].

Section ProcessAccountFacts.
Context {KL : KernLayout}.
Variable drv : cuda_driver.

Lemma process_gpuscan_enqueue_accounted (gss : GpuScanState) (w : world) :
  kern_exec_quals (w_gpuscan w) = Some "gpuscan_exec_quals"%string ->
  kern_dev_proj (w_gpuscan w) = Some (projection_kernel_name gss) ->
  wp (process_gpuscan_enqueue drv gss) (stream_accounted w) w.
Proof.
  destruct w as [g st lg].
  destruct g as [t q p m ms md e1 e2 e3 e4 src dst k al].
  destruct t as [ke pf cl cs cd cc cm].
  destruct pf as [en b1 n1 nq b2 n2].
  cbn. intros -> ->.
  unfold process_gpuscan_enqueue, projection_kernel_name.
  destruct dst as [dst|], en, (dev_quals gss) as [|dq dqs],
    (be_row_format (gts gss)); cbn.
  all: repeat wp_step.
  all: accounted_leaf.
Qed.

Lemma cleanup_accounted (w : world) :
  stream_accounted w (Ok false) (snd (gpuscan_cleanup_cuda_resources drv w)).
Proof.
  destruct (cleanup_releases drv w) as (_ & Hst & Htask & _).
  exists []. rewrite Hst, Htask, app_nil_r.
  split; [reflexivity|]. split; [|reflexivity].
  unfold perfmon_counts. cbn. repeat split; lia.
Qed.

Lemma process_gpuscan_accounted (gss : GpuScanState) (w : world) :
  wp (__pgstrom_process_gpuscan drv gss) (stream_accounted w) w.
Proof.
  destruct w as [g st lg].
  destruct g as [t q p m ms md e1 e2 e3 e4 src dst k al].
  destruct t as [ke pf cl cs cd cc cm].
  destruct pf as [en b1 n1 nq b2 n2].
  unfold __pgstrom_process_gpuscan.
  repeat wp_step.
  - (* out of device memory *)
    apply wp_cleanup, wp_ret.
    match goal with
    | |- context [gpuscan_cleanup_cuda_resources drv ?w1] =>
        pose proof (cleanup_accounted w1) as Hacc
    end.
    exact Hacc.
  - (* the requests are enqueued *)
    eapply wp_mono;
      [apply process_gpuscan_enqueue_accounted; reflexivity|].
    intros r w' H. exact H.
  - accounted_leaf.
  - accounted_leaf.
Qed.

End ProcessAccountFacts.

Section ProcessEntryFacts.
Context {KL : KernLayout}.
Variable drv : cuda_driver.

(** pgstrom_process_gpuscan in terms of the run of __pgstrom_process_gpuscan
    it wraps, once the context is pushed. *)
Lemma pgstrom_process_gpuscan_run (gss : GpuScanState) (w : world) :
  drv_rc drv Site_cuCtxPushCurrent = CUDA_SUCCESS ->
  let w1 := log_entry (DrvCtxPush (cuda_context (task (w_gpuscan w)))) w in
  let inner := __pgstrom_process_gpuscan drv gss w1 in
  pgstrom_process_gpuscan drv gss w =
  match fst inner with
  | Ok status => (Ok status, log_entry (ctx_closing drv) (snd inner))
  | Raised msg =>
      (Raised msg,
       log_entry (ctx_closing drv)
                 (snd (gpuscan_cleanup_cuda_resources drv (snd inner))))
  end.
Proof.
  intros Hpush w1 inner.
  unfold pgstrom_process_gpuscan, PG_TRY, bind, gets, emit, ret,
    elog_WARNING, emit, elog_ERROR.
  rewrite Hpush.
  cbn -[__pgstrom_process_gpuscan gpuscan_cleanup_cuda_resources].
  fold w1. fold (log_entry (DrvCtxPush (cuda_context (task (w_gpuscan w)))) w).
  fold w1. fold inner.
  destruct inner as [[status|msg] w2];
    cbn -[__pgstrom_process_gpuscan gpuscan_cleanup_cuda_resources].
  - unfold ctx_closing, log_entry.
    destruct (drv_rc drv Site_cuCtxPopCurrent =? CUDA_SUCCESS); reflexivity.
  - pose proof (cleanup_returns drv w2) as Hr.
    destruct (gpuscan_cleanup_cuda_resources drv w2) as [r w3].
    cbn in Hr. subst r. cbn.
    unfold ctx_closing, log_entry.
    destruct (drv_rc drv Site_cuCtxPopCurrent =? CUDA_SUCCESS); reflexivity.
Qed.

Lemma pgstrom_process_gpuscan_push_refused (gss : GpuScanState) (w : world) :
  (drv_rc drv Site_cuCtxPushCurrent =? CUDA_SUCCESS) = false ->
  pgstrom_process_gpuscan drv gss w = (Raised "failed on cuCtxPushCurrent", w).
Proof.
  intros Hpush.
  unfold pgstrom_process_gpuscan, PG_TRY, bind, gets, emit, ret, elog_ERROR.
  rewrite Hpush. reflexivity.
Qed.

End ProcessEntryFacts.


(** X2.  pgstrom_process_gpuscan pairs the push of the CUDA context with
    one call of cuCtxPopCurrent on every way out: once the context is
    pushed, the log gains the push, then entries that are no switch of the
    context, then as its last entry the pop (or the warning, when the
    driver refuses it), whether the routine returns true, returns false
    or raises an error.  When the push is refused the log is unchanged. *)
Theorem pgstrom_process_gpuscan_context_balance
    {KL : KernLayout} (drv : cuda_driver) (gss : GpuScanState) (w : world) :
  let run := pgstrom_process_gpuscan drv gss w in
  if drv_rc drv Site_cuCtxPushCurrent =? CUDA_SUCCESS
  then
    exists middle,
      w_log (snd run) =
        w_log w ++ [DrvCtxPush (cuda_context (task (w_gpuscan w)))]
                ++ middle ++ [ctx_closing drv] /\
      Forall (fun e => ctx_switch e = false) middle
  else w_log (snd run) = w_log w.
Proof.
  intros run.
  destruct (drv_rc drv Site_cuCtxPushCurrent =? CUDA_SUCCESS) eqn:Hpush;
    [|unfold run; now rewrite pgstrom_process_gpuscan_push_refused].
  apply Z.eqb_eq in Hpush.
  pose proof (pgstrom_process_gpuscan_run drv gss w Hpush) as Hrun.
  cbv zeta in Hrun. fold run in Hrun.
  set (w1 := log_entry (DrvCtxPush (cuda_context (task (w_gpuscan w)))) w) in *.
  pose proof (process_gpuscan_frame drv gss w1) as Hf.
  unfold wp, process_frame in Hf.
  destruct (__pgstrom_process_gpuscan drv gss w1) as [r w2].
  cbn [fst snd] in Hf, Hrun.
  destruct Hf as (_ & _ & _ & _ & _ & (added & Hlog & Hall)).
  destruct r as [status|msg]; rewrite Hrun; cbn [fst snd log_entry w_log].
  - exists added. split; [|exact Hall].
    rewrite Hlog. unfold w1. cbn. now rewrite <- !app_assoc.
  - destruct (cleanup_log drv w2) as (added' & Hlog' & Hall').
    exists (added ++ added'). split; [|apply Forall_app; now split].
    rewrite Hlog', Hlog. unfold w1. cbn. now rewrite <- !app_assoc.
Qed.

(** X3.  When __pgstrom_process_gpuscan returns true the three device
    buffers of the task lie one after the other inside the allocation
    gpuMemAlloc returned: the control block at its start, then the source
    chunk, then the destination chunk when there is one, none reaching
    into the next and the last ending within the length asked for,
    provided GPUMEMALIGN never rounds down. *)
Theorem process_gpuscan_device_layout
    {KL : KernLayout} (drv : cuda_driver) (gss : GpuScanState) (w : world) :
  (forall x, x <= GPUMEMALIGN x) ->
  let run := __pgstrom_process_gpuscan drv gss w in
  let g := w_gpuscan w in
  let g' := w_gpuscan (snd run) in
  let m := m_gpuscan g' in
  let length := device_memory_length g in
  fst run = Ok true ->
  m = drv_mem_alloc drv length /\ m <> 0 /\
  m + KERN_GPUSCAN_LENGTH (kern g) <= m_kds_src g' /\
  match pds_dst g with
  | Some pds_dst =>
      m_kds_src g' + KERN_DATA_STORE_LENGTH (kds (pds_src g)) <= m_kds_dst g' /\
      m_kds_dst g' + KERN_DATA_STORE_LENGTH (kds pds_dst) <= m + length
  | None =>
      m_kds_src g' + KERN_DATA_STORE_LENGTH (kds (pds_src g)) <= m + length /\
      m_kds_dst g' = 0
  end.
Proof.
  intros Halign run g g' m length Hok.
  pose proof (process_gpuscan_frame drv gss w) as Hf.
  unfold wp, process_frame in Hf. fold run g g' in Hf.
  destruct Hf as (Htrue & _).
  destruct (Htrue Hok) as (Hm & Hmg & Hlay & _).
  unfold device_layout in Hlay. injection Hlay as Hsrc Hdst.
  subst m length. rewrite Hmg.
  split; [reflexivity|]. split; [exact Hm|].
  rewrite Hsrc, Hdst.
  generalize (drv_mem_alloc drv (device_memory_length g)). intros m0.
  pose proof (Halign (KERN_GPUSCAN_LENGTH (kern g))) as H1.
  pose proof (Halign (KERN_DATA_STORE_LENGTH (kds (pds_src g)))) as H2.
  unfold device_memory_length.
  destruct (pds_dst g) as [d|]; cbn [is_some].
  - pose proof (Halign (KERN_DATA_STORE_LENGTH (kds d))) as H3. lia.
  - lia.
Qed.

Lemma process_gpuscan_device_layout_witness :
  let run := __pgstrom_process_gpuscan (KL := example_layout) driver_ok example_gss
                                       (mkWorld example_task [] []) in
  m_gpuscan (w_gpuscan (snd run)) = 65536 /\
  m_gpuscan (w_gpuscan (snd run)) <> 0.
Proof.
  assert (Halign : forall x, x <= GPUMEMALIGN (KernLayout := example_layout) x).
  { intros x. cbn. Z.div_mod_to_equations. lia. }
  pose proof (process_gpuscan_device_layout
                (KL := example_layout) driver_ok example_gss
                (mkWorld example_task [] []) Halign eq_refl) as (Hm & Hne & _).
  split; [exact Hm | exact Hne].
Defined.

(** X4.  The counters of the task's performance monitor follow its
    stream: however a run of pgstrom_process_gpuscan ends, bytes_dma_send
    and num_dma_send have grown by the bytes and the number of the copies
    to the device that the run put on the stream, bytes_dma_recv and
    num_dma_recv by those of the copies back, and num_kern_qual by the
    number of launches of gpuscan_exec_quals. *)
Theorem pgstrom_process_gpuscan_counters
    {KL : KernLayout} (drv : cuda_driver) (gss : GpuScanState) (w : world) :
  let run := pgstrom_process_gpuscan drv gss w in
  exists added,
    w_stream (snd run) = w_stream w ++ added /\
    perfmon_counts (task_pfm (task (w_gpuscan w)))
                   (task_pfm (task (w_gpuscan (snd run)))) added.
Proof.
  intros run.
  destruct (drv_rc drv Site_cuCtxPushCurrent =? CUDA_SUCCESS) eqn:Hpush.
  2:{ unfold run. rewrite pgstrom_process_gpuscan_push_refused by assumption.
      exists []. cbn. rewrite app_nil_r. split; [reflexivity|].
      unfold perfmon_counts. cbn. repeat split; lia. }
  apply Z.eqb_eq in Hpush.
  pose proof (pgstrom_process_gpuscan_run drv gss w Hpush) as Hrun.
  cbv zeta in Hrun. fold run in Hrun.
  set (w1 := log_entry (DrvCtxPush (cuda_context (task (w_gpuscan w)))) w) in *.
  pose proof (process_gpuscan_accounted drv gss w1) as Hf.
  unfold wp, stream_accounted in Hf.
  destruct (__pgstrom_process_gpuscan drv gss w1) as [r w2].
  cbn [fst snd] in Hf, Hrun.
  destruct Hf as (added & Hst & Hcnt & _).
  exists added.
  destruct r as [status|msg]; rewrite Hrun; cbn [fst snd log_entry w_stream w_gpuscan].
  - split; [exact Hst | exact Hcnt].
  - destruct (cleanup_releases drv w2) as (_ & Hst' & Htask & _).
    rewrite Hst', Htask. split; [exact Hst | exact Hcnt].
Qed.

(** X5.  The completion callback pgstrom_respond_gpuscan is on the task's
    stream after a run of pgstrom_process_gpuscan exactly when the run
    returned true: a run that returns false or raises an error has
    registered no callback. *)
Theorem pgstrom_process_gpuscan_callback_iff
    {KL : KernLayout} (drv : cuda_driver) (gss : GpuScanState) (w : world) :
  let run := pgstrom_process_gpuscan drv gss w in
  exists added,
    w_stream (snd run) = w_stream w ++ added /\
    (callback_registered added = true <-> fst run = Ok true).
Proof.
  intros run.
  destruct (drv_rc drv Site_cuCtxPushCurrent =? CUDA_SUCCESS) eqn:Hpush.
  2:{ unfold run. rewrite pgstrom_process_gpuscan_push_refused by assumption.
      exists []. cbn. rewrite app_nil_r. split; [reflexivity|].
      split; discriminate. }
  apply Z.eqb_eq in Hpush.
  pose proof (pgstrom_process_gpuscan_run drv gss w Hpush) as Hrun.
  cbv zeta in Hrun. fold run in Hrun.
  set (w1 := log_entry (DrvCtxPush (cuda_context (task (w_gpuscan w)))) w) in *.
  pose proof (process_gpuscan_accounted drv gss w1) as Hf.
  unfold wp, stream_accounted in Hf.
  destruct (__pgstrom_process_gpuscan drv gss w1) as [r w2].
  cbn [fst snd] in Hf, Hrun.
  destruct Hf as (added & Hst & _ & Hcb).
  exists added.
  destruct r as [status|msg]; rewrite Hrun; cbn [fst snd log_entry w_stream w_gpuscan].
  - split; [exact Hst|]. rewrite Hcb.
    destruct status; split; congruence.
  - destruct (cleanup_releases drv w2) as (_ & Hst' & _).
    rewrite Hst'. split; [exact Hst|]. rewrite Hcb. split; discriminate.
Qed.

(* --------------------------------------------------------------------- *)
(** ** pgstrom_respond_gpuscan and the task lists *)
(* --------------------------------------------------------------------- *)

Lemma remove_length_NoDup (x : Z) (l : list Z) :
  NoDup l -> In x l ->
  Z.of_nat (List.length (remove Z.eq_dec x l)) = Z.of_nat (List.length l) - 1.
Proof.
  induction 1 as [|a l Hna Hnd IH]; intros Hin; [contradiction|].
  cbn [remove]. destruct (Z.eq_dec x a) as [->|Hne].
  - rewrite notin_remove by assumption. cbn [List.length]. lia.
  - destruct Hin as [->|Hin]; [contradiction|].
    cbn [List.length]. specialize (IH Hin). lia.
Qed.

Lemma NoDup_remove_Z (x : Z) (l : list Z) :
  NoDup l -> NoDup (remove Z.eq_dec x l).
Proof.
  induction 1 as [|a l Hna Hnd IH]; cbn [remove]; [constructor|].
  destruct (Z.eq_dec x a); [assumption|].
  constructor; [|assumption].
  intros Hin. apply in_remove in Hin. tauto.
Qed.

Lemma NoDup_app_parts (l1 l2 : list Z) :
  NoDup (l1 ++ l2) ->
  NoDup l1 /\ NoDup l2 /\ (forall x, In x l1 -> ~ In x l2).
Proof.
  induction l1 as [|a l1 IH]; cbn [app]; intros H.
  - split; [constructor|]. split; [assumption|]. intros x [].
  - inversion H as [|? ? Hna Hnd]; subst.
    destruct (IH Hnd) as (H1 & H2 & H3).
    split; [constructor; [|assumption]; intros Hin; apply Hna, in_or_app; now left|].
    split; [assumption|].
    intros x [<-|Hin]; [intros Hin2; apply Hna, in_or_app; now right | now apply H3].
Qed.

Lemma NoDup_app_intro (l1 l2 : list Z) :
  NoDup l1 -> NoDup l2 -> (forall x, In x l1 -> ~ In x l2) -> NoDup (l1 ++ l2).
Proof.
  induction 1 as [|a l1 Hna Hnd IH]; cbn [app]; intros H2 Hdis; [assumption|].
  constructor.
  - intros Hin. apply in_app_or in Hin. destruct Hin as [Hin|Hin]; [contradiction|].
    apply (Hdis a); [now left | assumption].
  - apply IH; [assumption|]. intros x Hin. apply Hdis. now right.
Qed.

(** X6.  Outside its bail-out path pgstrom_respond_gpuscan keeps the task
    lists of the GpuTaskState consistent: if the two counters agree with
    the lengths of the running and the completed list, no task is linked
    twice, and the task is on the running list (chain node linked) or
    not yet on any list (not linked), then afterwards the counters still
    agree with the lengths, no task is linked twice, the task is on the
    completed list and not on the running list, its chain node is
    linked, and every other task is on the list it was on. *)
Theorem pgstrom_respond_gpuscan_keeps_lists
    {KL : KernLayout} (status : CUresult) (be : backend) :
  status <> CUDA_ERROR_INVALID_CONTEXT ->
  be_in_transaction be = true ->
  task_lists_consistent (be_gts be) ->
  task_is_running be ->
  let be' := pgstrom_respond_gpuscan status be in
  task_lists_consistent (be_gts be') /\
  In (be_self be) (completed_tasks (be_gts be')) /\
  ~ In (be_self be) (running_tasks (be_gts be')) /\
  chain_linked (task (be_gpuscan be')) = true /\
  (forall x, x <> be_self be ->
     (In x (running_tasks (be_gts be')) <-> In x (running_tasks (be_gts be))) /\
     (In x (completed_tasks (be_gts be')) <-> In x (completed_tasks (be_gts be)))).
Proof.
  intros Hst Htx.
  destruct be as [self g gt intx latch tr].
  destruct g as [t q p m ms md e1 e2 e3 e4 src dst k al].
  destruct t as [ke pf cl cs cd cc cm].
  destruct gt as [rf kl oid pa ct ci run nrun comp ncomp].
  cbn in Htx. subst intx.
  unfold task_lists_consistent, task_is_running. cbn.
  intros (Hnr & Hnc & Hnd) Hrun.
  destruct (NoDup_app_parts run comp Hnd) as (Hndr & Hndc & Hdis).
  unfold pgstrom_respond_gpuscan. cbn -[Z.of_nat].
  apply Z.eqb_neq in Hst. rewrite Hst. cbn -[Z.of_nat].
  assert (Hmoved :
    forall run' comp' : list Z,
      NoDup run' -> NoDup comp' -> ~ In self run' -> ~ In self comp' ->
      (forall x, In x run' -> ~ In x comp') ->
      NoDup (run' ++ comp' ++ [self]) /\ NoDup (run' ++ self :: comp')).
  { intros run' comp' Hr' Hc' Hsr Hsc Hd. split.
    - apply NoDup_app_intro; [assumption | |].
      + apply NoDup_app_intro; [assumption | repeat constructor; intros [] |].
        intros x Hx [<-|[]]. contradiction.
      + intros x Hx Hin. apply in_app_or in Hin.
        destruct Hin as [Hin|[<-|[]]]; [now apply (Hd x) | contradiction].
    - apply NoDup_app_intro; [assumption | now constructor |].
      intros x Hx [<-|Hin]; [contradiction | now apply (Hd x)]. }
  unfold task_addr in *.
  destruct cl; cbn -[Z.of_nat].
  - (* linked: on the running list *)
    assert (Hsc : ~ In self comp) by now apply Hdis.
    pose proof (remove_length_NoDup self run Hndr Hrun) as Hlen.
    assert (Hrc : remove Z.eq_dec self comp = comp) by now apply notin_remove.
    assert (Hd' : forall x, In x (remove Z.eq_dec self run) -> ~ In x comp).
    { intros x Hx. apply in_remove in Hx. now apply Hdis. }
    destruct (Hmoved (remove Z.eq_dec self run) comp
                (NoDup_remove_Z self run Hndr) Hndc
                (remove_In Z.eq_dec run self) Hsc Hd') as (Htail & Hhead).
    assert (Hother : forall x, x <> self ->
              (In x (remove Z.eq_dec self run) <-> In x run)).
    { intros x Hx. split; [intros Hin; now apply in_remove in Hin|].
      intros Hin. now apply in_in_remove. }
    destruct (status =? CUDA_SUCCESS); cbn -[Z.of_nat];
      match goal with
      | |- context [?e =? StromError_Success] => destruct (e =? StromError_Success)
      end; cbn -[Z.of_nat]; unfold task_addr in *; rewrite ?Hrc;
      (split; [split; [lia | split; [rewrite ?length_app; cbn [List.length]; lia
                                    | assumption]]|]);
      (split; [rewrite ?in_app_iff; cbn; tauto|]);
      (split; [apply remove_In|]);
      (split; [reflexivity|]);
      intros x Hx; (split; [now apply Hother|]);
      rewrite ?in_app_iff; cbn; intuition congruence.
  - (* not linked yet: on no list *)
    assert (Hsr : ~ In self run) by (intros H; apply Hrun, in_or_app; now left).
    assert (Hsc : ~ In self comp) by (intros H; apply Hrun, in_or_app; now right).
    destruct (Hmoved run comp Hndr Hndc Hsr Hsc Hdis) as (Htail & Hhead).
    destruct (status =? CUDA_SUCCESS); cbn -[Z.of_nat];
      match goal with
      | |- context [?e =? StromError_Success] => destruct (e =? StromError_Success)
      end; cbn -[Z.of_nat]; unfold task_addr in *;
      (split; [split; [lia | split; [rewrite ?length_app; cbn [List.length]; lia
                                    | assumption]]|]);
      (split; [rewrite ?in_app_iff; cbn; tauto|]);
      (split; [assumption|]);
      (split; [reflexivity|]);
      intros x Hx; (split; [reflexivity|]);
      rewrite ?in_app_iff; cbn; intuition congruence.
Qed.

Lemma pgstrom_respond_gpuscan_keeps_lists_witness :
  task_lists_consistent
    (be_gts (pgstrom_respond_gpuscan (KL := example_layout) CUDA_SUCCESS
                                     example_backend_running)).
Proof.
  refine (proj1 (pgstrom_respond_gpuscan_keeps_lists
                   (KL := example_layout) CUDA_SUCCESS example_backend_running
                   _ eq_refl _ _)).
  - discriminate.
  - unfold task_lists_consistent. cbn.
    split; [reflexivity|]. split; [reflexivity|].
    repeat constructor; cbn; intuition discriminate.
  - unfold task_is_running. cbn. now left.
Defined.

(* --------------------------------------------------------------------- *)
(** ** The scan cursor: gpuscan_next_chunk and gpuscan_exec_bulk *)
(* --------------------------------------------------------------------- *)

Section CursorFacts.
Context {DS : DataStore} {KL : KernLayout}.

Lemma fill_loop_rows (n : nat) (pds : pgstrom_data_store) (curr last : N) :
  refused_block_adds_nothing ->
  snd (fill_loop n pds curr last) = curr ->
  kds_nitems (kds (fst (fill_loop n pds curr last))) = kds_nitems (kds pds).
Proof.
  intros Href.
  destruct n as [|n]; cbn; [reflexivity|].
  destruct (N.ltb_spec curr last) as [Hlt|Hge]; cbn; [|reflexivity].
  pose proof (Href pds curr) as Hr.
  destruct (pgstrom_data_store_insert_block pds curr) as [rc pds'].
  cbn in Hr.
  destruct (Z.geb_spec rc 0) as [Hrc|Hrc]; cbn.
  - intros Hback. exfalso.
    pose proof (fill_loop_range n pds' (curr + 1)%N last). lia.
  - intros _. apply Hr. lia.
Qed.

Lemma fill_data_store_rows (pds : pgstrom_data_store) (curr last : N) :
  refused_block_adds_nothing ->
  snd (fill_data_store pds curr last) = curr ->
  kds_nitems (kds (fst (fill_data_store pds curr last))) = kds_nitems (kds pds).
Proof. apply fill_loop_rows. Qed.

Lemma fill_data_store_first (pds : pgstrom_data_store) (curr last : N) :
  0 <= fst (pgstrom_data_store_insert_block pds curr) -> (curr < last)%N ->
  (curr < snd (fill_data_store pds curr last))%N.
Proof.
  intros Hfit Hlt. unfold fill_data_store.
  destruct (N.to_nat (last - curr)) as [|n] eqn:Hn; [lia|]. cbn.
  destruct (N.ltb_spec curr last); [|lia].
  destruct (pgstrom_data_store_insert_block pds curr) as [rc pds'].
  cbn in Hfit.
  destruct (Z.geb_spec rc 0); [|lia].
  pose proof (fill_loop_range n pds' (curr + 1)%N last). lia.
Qed.

Lemma fill_data_store_range (pds : pgstrom_data_store) (curr last : N) :
  (curr <= last)%N ->
  (curr <= snd (fill_data_store pds curr last) <= last)%N.
Proof. intros H. now apply fill_loop_range. Qed.

Lemma next_chunk_loop_cursor (fuel : nat) (gss : GpuScanState) (lv : next_chunk_locals) :
  (curr_blknum gss <= last_blknum gss)%N ->
  next_chunk_loop fuel gss = Some lv ->
  lv_gss lv = set_curr_blknum gss (curr_blknum (lv_gss lv)) /\
  (curr_blknum gss <= curr_blknum (lv_gss lv) <= last_blknum gss)%N /\
  match lv_gpuscan lv with
  | Some gpuscan =>
      (0 < kds_nitems (kds (pds_src gpuscan)))%N /\
      (created_empty -> refused_block_adds_nothing ->
       (curr_blknum gss < curr_blknum (lv_gss lv))%N)
  | None => curr_blknum (lv_gss lv) = last_blknum gss
  end.
Proof.
  revert gss. induction fuel as [|fuel IH]; intros gss Hle; cbn; [discriminate|].
  pose proof (fill_data_store_range (fresh_store gss)
                (curr_blknum gss) (last_blknum gss) Hle) as Hr.
  pose proof (fill_data_store_rows (fresh_store gss)
                (curr_blknum gss) (last_blknum gss)) as Hrows.
  unfold fresh_store in Hr, Hrows.
  destruct (fill_data_store _ _ _) as [pds curr]. cbn in Hr, Hrows.
  destruct (N.ltb_spec 0 (kds_nitems (kds pds))) as [Hpos|Hzero].
  - intros [= <-]. cbn. split; [reflexivity|]. split; [lia|].
    split; [exact Hpos|].
    intros Hempty Href.
    destruct (N.eq_dec curr (curr_blknum gss)) as [Heq|Hne]; [|lia].
    specialize (Hrows Href Heq). rewrite Hempty in Hrows. lia.
  - cbn. destruct (N.leb_spec (last_blknum gss) curr) as [Hend|Hmore].
    + intros [= <-]. cbn. split; [reflexivity|]. split; lia.
    + intros Hlv.
      destruct (IH (set_curr_blknum gss curr)) with (2 := Hlv) as (Hg & Hc & Ht);
        [cbn; lia|].
      cbn in Hg, Hc, Ht. split; [exact Hg|]. split; [lia|].
      destruct (lv_gpuscan lv); [|exact Ht].
      split; [exact (proj1 Ht)|]. intros He Hf. pose proof (proj2 Ht He Hf). lia.
Qed.

Lemma exec_bulk_loop_cursor (fuel : nat) (gss gss' : GpuScanState)
                            (pds : option pgstrom_data_store) :
  (curr_blknum gss <= last_blknum gss)%N ->
  exec_bulk_loop fuel gss = Some (pds, gss') ->
  gss' = set_curr_blknum gss (curr_blknum gss') /\
  (curr_blknum gss <= curr_blknum gss' <= last_blknum gss)%N /\
  match pds with
  | Some p =>
      (0 < kds_nitems (kds p))%N /\
      (created_empty -> refused_block_adds_nothing ->
       (curr_blknum gss < curr_blknum gss')%N)
  | None => curr_blknum gss' = last_blknum gss
  end.
Proof.
  revert gss. induction fuel as [|fuel IH]; intros gss Hle; cbn; [discriminate|].
  destruct (N.ltb_spec (curr_blknum gss) (last_blknum gss)) as [Hlt|Hge].
  - pose proof (fill_data_store_range
                  (pgstrom_create_data_store_row pgstrom_chunk_size)
                  (curr_blknum gss) (last_blknum gss) Hle) as Hr.
    pose proof (fill_data_store_rows
                  (pgstrom_create_data_store_row pgstrom_chunk_size)
                  (curr_blknum gss) (last_blknum gss)) as Hrows.
    destruct (fill_data_store _ _ _) as [p curr]. cbn in Hr, Hrows.
    destruct (N.ltb_spec 0 (kds_nitems (kds p))) as [Hpos|Hzero].
    + intros [= <- <-]. cbn. split; [reflexivity|]. split; [lia|].
      split; [exact Hpos|].
      intros Hempty Href.
      destruct (N.eq_dec curr (curr_blknum gss)) as [Heq|Hne]; [|lia].
      specialize (Hrows Href Heq). rewrite Hempty in Hrows. lia.
    + intros Hlv.
      destruct (IH (set_curr_blknum gss curr)) with (2 := Hlv) as (Hg & Hc & Ht);
        [cbn; lia|].
      cbn in Hg, Hc, Ht. split; [exact Hg|]. split; [lia|].
      destruct pds; [|exact Ht].
      split; [exact (proj1 Ht)|]. intros He Hf. pose proof (proj2 Ht He Hf). lia.
  - intros [= <- <-]. split; [now destruct gss|]. split; lia.
Qed.

Lemma exec_bulk_loop_returns (gss : GpuScanState) (fuel : nat) :
  bulk_first_block_fits ->
  (N.to_nat (last_blknum gss - curr_blknum gss) < fuel)%nat ->
  exists r, exec_bulk_loop fuel gss = Some r.
Proof.
  intros Hfit. revert gss.
  induction fuel as [|fuel IH]; intros gss Hfuel; [lia|]. cbn.
  destruct (N.ltb_spec (curr_blknum gss) (last_blknum gss)) as [Hlt|Hge]; [|eauto].
  pose proof (fill_data_store_first
                (pgstrom_create_data_store_row pgstrom_chunk_size)
                (curr_blknum gss) (last_blknum gss) (Hfit _) Hlt) as Hadv.
  destruct (fill_data_store _ _ _) as [p curr]. cbn in Hadv.
  destruct (0 <? kds_nitems (kds p))%N; [eauto|].
  apply IH. cbn. lia.
Qed.

End CursorFacts.

(** X7.  gpuscan_next_chunk moves the block cursor forward only and never
    past the end of the relation, and changes nothing else of the scan
    state.  A task it returns is over a source chunk that holds at least
    one row, and the call has moved the cursor by at least one block when
    data stores are created empty and a refused block adds no row.  When
    it returns NULL the cursor is at the end of the relation, and, data
    stores being created empty, every later call returns NULL again and
    leaves the scan state as it is. *)
Theorem gpuscan_next_chunk_cursor
    {DS : DataStore} {KL : KernLayout} (gss gss' : GpuScanState) (fuel : nat)
    (gpuscan : option pgstrom_gpuscan) :
  (curr_blknum gss <= last_blknum gss)%N ->
  gpuscan_next_chunk fuel gss = Some (gpuscan, gss') ->
  gss' = set_curr_blknum gss (curr_blknum gss') /\
  (curr_blknum gss <= curr_blknum gss' <= last_blknum gss)%N /\
  match gpuscan with
  | Some g =>
      (0 < kds_nitems (kds (pds_src g)))%N /\
      (created_empty -> refused_block_adds_nothing ->
       (curr_blknum gss < curr_blknum gss')%N)
  | None =>
      curr_blknum gss' = last_blknum gss /\
      (created_empty ->
       forall fuel', gpuscan_next_chunk (S fuel') gss' = Some (None, gss'))
  end.
Proof.
  intros Hle Hrun.
  unfold gpuscan_next_chunk, gpuscan_next_chunk_locals in Hrun.
  destruct (N.ltb_spec (last_blknum gss) (curr_blknum gss)) as [Hpast|_]; [lia|].
  destruct (next_chunk_loop fuel gss) as [lv|] eqn:Hloop; [|discriminate].
  injection Hrun as <- <-.
  destruct (next_chunk_loop_cursor fuel gss lv Hle Hloop) as (Hg & Hc & Ht).
  split; [exact Hg|]. split; [exact Hc|].
  destruct (lv_gpuscan lv) as [g|] eqn:Hg0; [exact Ht|].
  split; [exact Ht|].
  intros Hempty fuel'.
  assert (Hlast : last_blknum (lv_gss lv) = last_blknum gss) by (rewrite Hg; reflexivity).
  unfold gpuscan_next_chunk, gpuscan_next_chunk_locals.
  rewrite Hlast, Ht, N.ltb_irrefl. cbn [next_chunk_loop].
  unfold fill_data_store. rewrite Hlast, Ht, N.sub_diag. cbn [N.to_nat fill_loop].
  unfold set_table_oid at 1. cbn [kds kds_nitems]. rewrite Hempty. cbn.
  rewrite Hlast, N.leb_refl.
  destruct (lv_gss lv) as [g c l dq dp bw pw ew nr]. cbn in *. subst. reflexivity.
Qed.

Lemma gpuscan_next_chunk_cursor_witness :
  match gpuscan_next_chunk (DS := example_datastore) (KL := example_layout)
                           3 example_gss with
  | Some (_, gss') =>
      (curr_blknum example_gss <= curr_blknum gss' <= last_blknum example_gss)%N
  | None => False
  end.
Proof.
  destruct (gpuscan_next_chunk (DS := example_datastore) (KL := example_layout)
                               3 example_gss) as [[gpuscan gss']|] eqn:Hrun.
  - refine (proj1 (proj2 (gpuscan_next_chunk_cursor
                            (DS := example_datastore) (KL := example_layout)
                            example_gss gss' 3 gpuscan _ Hrun))).
    cbn. lia.
  - vm_compute in Hrun. discriminate.
Defined.

(** X8.  gpuscan_exec_bulk moves the block cursor forward only and never
    past the end of the relation, and changes nothing else of the scan
    state.  A data store it returns holds at least one row, and the call
    has moved the cursor by at least one block when data stores are
    created empty and a refused block adds no row; when it returns NULL
    the cursor is at the end of the relation.  Provided the first
    block offered to a new store is always taken, the call returns within
    as many rounds as blocks are left, plus one. *)
Theorem gpuscan_exec_bulk_cursor
    {DS : DataStore} (gss : GpuScanState) :
  (curr_blknum gss <= last_blknum gss)%N ->
  (forall fuel pds gss',
     gpuscan_exec_bulk fuel gss = Some (pds, gss') ->
     gss' = set_curr_blknum gss (curr_blknum gss') /\
     (curr_blknum gss <= curr_blknum gss' <= last_blknum gss)%N /\
     match pds with
     | Some p =>
         (0 < kds_nitems (kds p))%N /\
         (created_empty -> refused_block_adds_nothing ->
          (curr_blknum gss < curr_blknum gss')%N)
     | None => curr_blknum gss' = last_blknum gss
     end) /\
  (bulk_first_block_fits ->
   exists r,
     gpuscan_exec_bulk (S (N.to_nat (last_blknum gss - curr_blknum gss))) gss = Some r).
Proof.
  intros Hle. split.
  - intros fuel pds gss' Hrun. now apply (exec_bulk_loop_cursor fuel).
  - intros Hfit. apply exec_bulk_loop_returns; [assumption | lia].
Qed.

Lemma gpuscan_exec_bulk_cursor_witness :
  exists r, gpuscan_exec_bulk (DS := example_datastore) 11 example_gss = Some r.
Proof.
  refine (proj2 (gpuscan_exec_bulk_cursor (DS := example_datastore) example_gss _) _).
  - cbn. lia.
  - intros blknum. cbn. lia.
Defined.

(* --------------------------------------------------------------------- *)
(** ** gpuscan_next_tuple over a destination chunk *)
(* --------------------------------------------------------------------- *)

Section DrainFacts.
Context {DS : DataStore}.

Lemma set_curr_index_same (gss : GpuScanState) :
  set_curr_index gss (curr_index (gts gss)) = gss.
Proof. destruct gss as [g c l dq dp bw pw ew nr]. now destruct g. Qed.

Lemma set_curr_index_twice (gss : GpuScanState) (i j : N) :
  set_curr_index (set_curr_index gss i) j = set_curr_index gss j.
Proof. reflexivity. Qed.

Lemma next_tuples_from (k : nat) (gss : GpuScanState)
                       (gpuscan : pgstrom_gpuscan) (dst : pgstrom_data_store) :
  curr_task (gts gss) = Some gpuscan ->
  pds_dst gpuscan = Some dst ->
  (curr_index (gts gss) + N.of_nat k = kds_nitems (kds dst))%N ->
  next_tuples k gss =
  (map (fetched dst) (seq (N.to_nat (curr_index (gts gss))) k),
   set_curr_index gss (kds_nitems (kds dst))).
Proof.
  revert gss. induction k as [|k IH]; intros gss Htask Hdst Hidx.
  - cbn. rewrite N.add_0_r in Hidx. rewrite <- Hidx.
    now rewrite set_curr_index_same.
  - cbn [next_tuples]. unfold gpuscan_next_tuple at 1. rewrite Htask, Hdst.
    destruct (N.ltb_spec (curr_index (gts gss)) (kds_nitems (kds dst))); [|lia].
    set (gss1 := set_curr_index gss (curr_index (gts gss) + 1)%N).
    assert (Hrest : next_tuples k gss1 =
                    (map (fetched dst) (seq (N.to_nat (curr_index (gts gss1))) k),
                     set_curr_index gss1 (kds_nitems (kds dst)))).
    { apply (IH gss1); [exact Htask | exact Hdst |]. cbn. lia. }
    unfold gss1 in Hrest at 2 3. cbn [set_curr_index gts curr_index] in Hrest.
    rewrite set_curr_index_twice in Hrest.
    replace (N.to_nat (curr_index (gts gss) + 1)) with (S (N.to_nat (curr_index (gts gss))))
      in Hrest by lia.
    cbn [seq map]. unfold fetched at 1. rewrite N2Nat.id.
    destruct (pgstrom_fetch_data_store dst (curr_index (gts gss)));
      fold gss1; rewrite Hrest; reflexivity.
Qed.

Lemma next_tuples_end (k : nat) (gss : GpuScanState)
                      (gpuscan : pgstrom_gpuscan) (dst : pgstrom_data_store) :
  curr_task (gts gss) = Some gpuscan ->
  pds_dst gpuscan = Some dst ->
  (kds_nitems (kds dst) <= curr_index (gts gss))%N ->
  next_tuples k gss = (repeat SlotNull k, gss).
Proof.
  intros Htask Hdst Hidx. induction k as [|k IH]; [reflexivity|].
  cbn [next_tuples]. unfold gpuscan_next_tuple at 1. rewrite Htask, Hdst.
  destruct (N.ltb_spec (curr_index (gts gss)) (kds_nitems (kds dst))); [lia|].
  now rewrite IH.
Qed.

End DrainFacts.

(** X9.  Over a task with a destination chunk, successive calls of
    gpuscan_next_tuple hand out the rows of that chunk one by one in
    index order, each call fetching the row at the current index (an
    error is raised for a row the data store cannot fetch) and moving the
    index on by one; once the index has reached the number of rows every
    further call returns a NULL slot and leaves the scan state as it
    is. *)
Theorem gpuscan_next_tuple_drains
    {DS : DataStore} (gss : GpuScanState)
    (gpuscan : pgstrom_gpuscan) (dst : pgstrom_data_store) :
  curr_task (gts gss) = Some gpuscan ->
  pds_dst gpuscan = Some dst ->
  (curr_index (gts gss) <= kds_nitems (kds dst))%N ->
  let first := N.to_nat (curr_index (gts gss)) in
  let left := (N.to_nat (kds_nitems (kds dst)) - first)%nat in
  let drained := set_curr_index gss (kds_nitems (kds dst)) in
  next_tuples left gss = (map (fetched dst) (seq first left), drained) /\
  forall k, next_tuples k drained = (repeat SlotNull k, drained).
Proof.
  intros Htask Hdst Hidx first left drained. split.
  - apply (next_tuples_from left gss gpuscan dst Htask Hdst). unfold left, first. lia.
  - intros k. apply (next_tuples_end k drained gpuscan dst); [exact Htask | exact Hdst|].
    cbn. lia.
Qed.

Lemma gpuscan_next_tuple_drains_witness :
  fst (next_tuples (DS := example_datastore) 3 example_drain_gss) =
  [SlotTuple 1000; SlotTuple 1001; SlotTuple 1002].
Proof.
  pose proof (gpuscan_next_tuple_drains (DS := example_datastore)
                example_drain_gss _ example_dest eq_refl eq_refl) as H.
  cbn in H. specialize (H ltac:(lia)).
  exact (f_equal fst (proj1 H)).
Defined.

(* --------------------------------------------------------------------- *)
(** ** The planner entry points *)
(* --------------------------------------------------------------------- *)

Lemma Min_le_one (x : double) : (Min x 1 <=? 1)%float = true.
Proof.
  unfold Min. destruct (x <? 1)%float eqn:Hlt; [|reflexivity].
  rewrite FloatAxioms.ltb_spec in Hlt. rewrite FloatAxioms.leb_spec.
  unfold SFltb in Hlt. unfold SFleb.
  destruct (SFcompare (Prim2SF x) (Prim2SF 1)) as [[| |]|];
    first [reflexivity | discriminate].
Qed.

Section PlannerEntryFacts.
Context {CG : Codegen} {PB : PlannerBackend}.

Lemma classify_restrictinfo_filter (clauses dev host : list RestrictInfo) :
  classify_restrictinfo clauses dev host =
  (dev ++ filter device_capable clauses, host ++ filter host_only clauses).
Proof.
  revert dev host. induction clauses as [|rinfo rest IH]; intros dev host; cbn.
  - now rewrite !app_nil_r.
  - unfold device_capable, host_only.
    destruct (pgstrom_codegen_available_expression (ri_clause rinfo)); cbn;
      rewrite IH; unfold lappend; now rewrite <- !app_assoc.
Qed.

Lemma filter_nil_existsb {A : Type} (f : A -> bool) (l : list A) :
  filter f l = [] <-> existsb f l = false.
Proof.
  induction l as [|a l IH]; cbn; [tauto|].
  destruct (f a); cbn; [split; discriminate | exact IH].
Qed.

Lemma filter_negb_nil_forallb {A : Type} (f : A -> bool) (l : list A) :
  filter (fun a => negb (f a)) l = [] <-> forallb f l = true.
Proof.
  induction l as [|a l IH]; cbn; [tauto|].
  destruct (f a); cbn; [exact IH | split; discriminate].
Qed.

Lemma reltargetlist_support_bulkload_forallb (l : list Node) :
  reltargetlist_support_bulkload l =
  forallb (fun expr => IsA_Var expr || pgstrom_codegen_available_expression expr) l.
Proof.
  induction l as [|e l IH]; cbn; [reflexivity|].
  destruct (IsA_Var e), (pgstrom_codegen_available_expression e); cbn; auto.
Qed.

End PlannerEntryFacts.

(** X10.  gpuscan_add_scan_path first calls the secondary hook when one
    is installed, and then adds at most one path.  It adds one exactly
    when PG-Strom and GpuScan are enabled, the relation is a base
    relation with a nonzero relid outside the system catalog, and at
    least one of its restrictions is device executable.  The path added
    is one pgstrom_path_is_gpuscan accepts, is unsorted, and is flagged
    for bulk-load exactly when every restriction is device executable and
    every expression of the relation's target list is a Var or device
    executable. *)
Theorem gpuscan_add_scan_path_adds
    {CG : Codegen} {PB : PlannerBackend}
    (baserel : RelOptInfo) (rtindex : Z) (rte : RangeTblEntry) :
  let considered :=
    pgstrom_enabled && enable_gpuscan &&
    RTEKind_eqb (rel_rtekind baserel) RTE_RELATION &&
    negb (rel_relid baserel =? 0) &&
    negb (get_rel_namespace (rte_relid rte) =? PG_CATALOG_NAMESPACE) &&
    existsb device_capable (rel_baserestrictinfo baserel) in
  let bulkload :=
    forallb device_capable (rel_baserestrictinfo baserel) &&
    forallb (fun expr => IsA_Var expr || pgstrom_codegen_available_expression expr)
            (rel_reltargetlist baserel) in
  exists added,
    gpuscan_add_scan_path baserel rtindex rte =
      (if set_rel_pathlist_next then [CallNextHook] else []) ++ added /\
    if considered
    then exists cpath,
           added = [AddPath cpath] /\
           pgstrom_path_is_gpuscan (Path_CustomPath cpath) = true /\
           path_parent cpath = baserel /\
           path_pathkeys cpath = [] /\
           cpath_flags cpath =
             (if bulkload then Z.lor 0 CUSTOMPATH_SUPPORT_BULKLOAD else 0)
    else added = [].
Proof.
  intros considered bulkload. subst considered bulkload.
  unfold gpuscan_add_scan_path.
  destruct pgstrom_enabled; cbn [negb andb orb];
    [|eexists; split; [symmetry; apply app_nil_r | reflexivity]].
  destruct enable_gpuscan; cbn [negb andb orb];
    [|eexists; split; [symmetry; apply app_nil_r | reflexivity]].
  destruct (RTEKind_eqb (rel_rtekind baserel) RTE_RELATION); cbn [negb andb orb];
    [|eexists; split; [symmetry; apply app_nil_r | reflexivity]].
  destruct (rel_relid baserel =? 0); cbn [negb andb orb];
    [eexists; split; [symmetry; apply app_nil_r | reflexivity]|].
  destruct (get_rel_namespace (rte_relid rte) =? PG_CATALOG_NAMESPACE);
    cbn [negb andb orb];
    [eexists; split; [symmetry; apply app_nil_r | reflexivity]|].
  rewrite classify_restrictinfo_filter. cbn [app].
  pose proof (filter_nil_existsb device_capable (rel_baserestrictinfo baserel)) as Hdev.
  pose proof (filter_negb_nil_forallb device_capable (rel_baserestrictinfo baserel)) as Hhost.
  change (fun a => negb (device_capable a)) with host_only in Hhost.
  destruct (filter device_capable (rel_baserestrictinfo baserel)) as [|d ds].
  - rewrite (proj1 Hdev eq_refl).
    eexists; split; [symmetry; apply app_nil_r | reflexivity].
  - destruct (existsb device_capable (rel_baserestrictinfo baserel));
      [|now specialize (proj2 Hdev eq_refl)].
    destruct (cost_gpuscan _ _ _ _ _) as [[rows startup_cost] total_cost].
    eexists; split; [reflexivity|].
    eexists; split; [reflexivity|]. cbn.
    repeat (split; [reflexivity|]).
    rewrite reltargetlist_support_bulkload_forallb.
    destruct (filter host_only (rel_baserestrictinfo baserel)) as [|h hs].
    + now rewrite (proj1 Hhost eq_refl).
    + destruct (forallb device_capable (rel_baserestrictinfo baserel));
        [now specialize (proj2 Hhost eq_refl) | reflexivity].
Qed.

(** X11.  gpuscan_create_scan_state makes a scan state exactly for the
    plans pgstrom_plan_is_gpuscan accepts and raises an error for any
    other CustomScan; the state takes over the flags of the plan and is
    zero elsewhere.  pgstrom_gpuscan_setup_bulkslot accepts such a state,
    whatever projection and slot the executor has given it since, only
    when the plan had the GpuScan methods: for a state made from a
    BulkScan plan it raises an error. *)
Theorem gpuscan_create_scan_state_methods (cscan : CustomScan) :
  ((exists node, gpuscan_create_scan_state cscan = Ok node) <->
   pgstrom_plan_is_gpuscan (Plan_CustomScan cscan) = true) /\
  (pgstrom_plan_is_gpuscan (Plan_CustomScan cscan) = false ->
   gpuscan_create_scan_state cscan = Raised "Bug? unexpected CustomPlanMethods") /\
  (forall css gss,
     gpuscan_create_scan_state cscan = Ok (css, gss) ->
     css_flags css = cs_flags cscan /\
     gss = GpuScanState_zero /\
     forall proj slot,
       pgstrom_gpuscan_setup_bulkslot
         (PlanState_CustomScanState
            (mkCustomScanState (css_flags css) (css_methods css) proj slot)) =
       match cs_methods cscan with
       | gpuscan_plan_methods => Ok (proj, slot)
       | _ => Raised "Bug? PlanState node is not GpuScanState"
       end).
Proof.
  unfold gpuscan_create_scan_state, pgstrom_plan_is_gpuscan.
  destruct (cs_methods cscan); cbn.
  - split; [split; [intros [node H]; discriminate | discriminate]|].
    split; [reflexivity | discriminate].
  - split; [split; [reflexivity | eauto]|].
    split; [discriminate|].
    intros css gss [= <- <-]. cbn. repeat split; reflexivity.
  - split; [split; [reflexivity | eauto]|].
    split; [discriminate|].
    intros css gss [= <- <-]. cbn. repeat split; reflexivity.
Qed.

(** X12.  When gpuscan_try_replace_seqscan replaces a SeqScan, the
    qualifiers of the SeqScan are handed to the caller as outer
    qualifiers and the new plan evaluates none: its qual is empty, its
    private fields deform to an all-zero GpuScanInfo (no kernel source,
    no device qualifier), it has the BulkScan methods and the target list
    and scanrelid of the SeqScan.  The outer ratio is at most 1.0, and so
    is never a NaN.  gpuscan_pullup_devquals leaves such a plan as it
    is, with no outer qualifier and ratio 1.0. *)
Theorem gpuscan_try_replace_seqscan_plan
    {CG : Codegen} {PB : PlannerBackend}
    (seqscan : SeqScan) (range_tables : list RangeTblEntry) (bulk : bulk_plan) :
  gpuscan_try_replace_seqscan seqscan range_tables = Some (Some bulk) ->
  let cscan := csp_cscan (bulk_node bulk) in
  bulk_outer_quals bulk = seq_qual seqscan /\
  cs_qual cscan = [] /\
  deform_gpuscan_info cscan = Some GpuScanInfo_zero /\
  cs_methods cscan = bulkscan_plan_methods /\
  pgstrom_plan_is_gpuscan (Plan_CustomScan cscan) = true /\
  cs_targetlist cscan = seq_targetlist seqscan /\
  cs_scanrelid cscan = seq_scanrelid seqscan /\
  (bulk_outer_ratio bulk <=? 1)%float = true /\
  gpuscan_pullup_devquals (bulk_node bulk) range_tables =
    Some (mkBulkPlan (bulk_node bulk) [] 1%float).
Proof.
  unfold gpuscan_try_replace_seqscan.
  destruct (negb enable_gpuscan || negb pgstrom_bulkload_enabled); [discriminate|].
  destruct (rt_fetch (seq_scanrelid seqscan) range_tables) as [rte|] eqn:Hrte;
    [|discriminate].
  cbn [obind].
  destruct (negb (RTEKind_eqb (rte_rtekind rte) RTE_RELATION)); [discriminate|].
  destruct (negb (Ascii.eqb (rte_relkind rte) RELKIND_RELATION)
            && negb (Ascii.eqb (rte_relkind rte) RELKIND_TOASTVALUE)
            && negb (Ascii.eqb (rte_relkind rte) RELKIND_MATVIEW)); [discriminate|].
  destruct (negb (targetlist_device_executable (seq_targetlist seqscan)));
    [discriminate|].
  destruct (negb (pgstrom_codegen_available_expression (T_List (seq_qual seqscan))));
    [discriminate|].
  intros [= <-]. cbn -[Min].
  repeat (split; [reflexivity|]).
  split; [apply Min_le_one|].
  unfold gpuscan_pullup_devquals. cbn -[Min]. rewrite Hrte. reflexivity.
Qed.

Lemma gpuscan_try_replace_seqscan_plan_witness :
  exists bulk,
    gpuscan_try_replace_seqscan (CG := example_codegen_lists) (PB := example_planner)
                                example_seqscan example_rtable = Some (Some bulk) /\
    bulk_outer_quals bulk = [T_Expr 2] /\
    cs_qual (csp_cscan (bulk_node bulk)) = [].
Proof.
  eexists. split; [reflexivity|].
  pose proof (gpuscan_try_replace_seqscan_plan
                (CG := example_codegen_lists) (PB := example_planner)
                example_seqscan example_rtable _ eq_refl) as (H1 & H2 & _).
  split; [exact H1 | exact H2].
Defined.

(** X13.  gpuscan_pullup_devquals hands the device qualifiers of the plan
    to the caller and leaves none behind: the outer qualifiers are the
    device qualifiers the old plan carried, and the plan returned carries
    none.  With device qualifiers to pull up, the new plan has the
    BulkScan methods and all-zero private fields (no kernel source), and
    keeps the target list, the host qualifiers, the scanrelid and the
    flags of the old plan; without, the old plan is returned with ratio
    1.0.  The outer ratio is at most 1.0, and so never a NaN, and a
    second call on the plan returned changes nothing. *)
Theorem gpuscan_pullup_devquals_plan
    {PB : PlannerBackend}
    (plannode : CustomScanPlan) (range_tables : list RangeTblEntry)
    (gs_info : GpuScanInfo) (bulk : bulk_plan) :
  deform_gpuscan_info (csp_cscan plannode) = Some gs_info ->
  gpuscan_pullup_devquals plannode range_tables = Some bulk ->
  let cscan_old := csp_cscan plannode in
  let cscan := csp_cscan (bulk_node bulk) in
  bulk_outer_quals bulk = gs_dev_quals gs_info /\
  plan_dev_quals cscan = [] /\
  (gs_dev_quals gs_info <> [] ->
   cs_methods cscan = bulkscan_plan_methods /\
   deform_gpuscan_info cscan = Some GpuScanInfo_zero) /\
  (gs_dev_quals gs_info = [] ->
   bulk_node bulk = plannode /\ bulk_outer_ratio bulk = 1%float) /\
  cs_targetlist cscan = cs_targetlist cscan_old /\
  cs_qual cscan = cs_qual cscan_old /\
  cs_scanrelid cscan = cs_scanrelid cscan_old /\
  cs_flags cscan = cs_flags cscan_old /\
  (bulk_outer_ratio bulk <=? 1)%float = true /\
  gpuscan_pullup_devquals (bulk_node bulk) range_tables =
    Some (mkBulkPlan (bulk_node bulk) [] 1%float).
Proof.
  intros Hdeform. unfold gpuscan_pullup_devquals. rewrite Hdeform.
  destruct (rt_fetch (cs_scanrelid (csp_cscan plannode)) range_tables) as [rte|] eqn:Hrte;
    [|discriminate].
  cbn [obind].
  destruct (gs_dev_quals gs_info) as [|q qs] eqn:Hq.
  - intros [= <-]. cbn -[Min].
    split; [reflexivity|].
    split; [unfold plan_dev_quals; now rewrite Hdeform, Hq|].
    split; [intros H; now elim H|].
    split; [intros _; split; reflexivity|].
    repeat (split; [reflexivity|]).
    rewrite Hrte, Hdeform. cbn [obind]. now rewrite Hq.
  - intros [= <-]. cbn -[Min].
    split; [reflexivity|].
    split; [reflexivity|].
    split; [intros _; split; reflexivity|].
    split; [discriminate|].
    repeat (split; [reflexivity|]).
    split; [apply Min_le_one|].
    rewrite Hrte. reflexivity.
Qed.

Lemma gpuscan_pullup_devquals_plan_witness :
  exists bulk,
    gpuscan_pullup_devquals (PB := example_planner)
                            example_gpuscan_plan example_rtable = Some bulk /\
    bulk_outer_quals bulk = [T_Expr 2] /\
    plan_dev_quals (csp_cscan (bulk_node bulk)) = [].
Proof.
  eexists. split; [reflexivity|].
  pose proof (gpuscan_pullup_devquals_plan
                (PB := example_planner) example_gpuscan_plan example_rtable
                _ _ eq_refl eq_refl) as (H1 & H2 & _).
  split; [exact H1 | exact H2].
Defined.

(* --------------------------------------------------------------------- *)
(** ** The projection builder *)
(* --------------------------------------------------------------------- *)

Lemma NoDup_app_intro_gen {A : Type} (l1 l2 : list A) :
  NoDup l1 -> NoDup l2 -> (forall x, In x l1 -> ~ In x l2) -> NoDup (l1 ++ l2).
Proof.
  induction 1 as [|a l1 Hna Hnd IH]; cbn [app]; intros H2 Hdis; [assumption|].
  constructor.
  - intros Hin. apply in_app_or in Hin. destruct Hin as [Hin|Hin]; [contradiction|].
    apply (Hdis a); [now left | assumption].
  - apply IH; [assumption|]. intros x Hin. apply Hdis. now right.
Qed.

Section ProjectionFacts1.
Import Projection.

Lemma Expr_induction (P : Expr -> Prop) :
  P E_Null ->
  (forall var, P (E_Var var)) ->
  (forall tag args, Forall P args -> P (E_Node tag args)) ->
  forall e, P e.
Proof.
  intros Hnull Hvar Hnode.
  fix IH 1. intros [|var|tag args].
  - exact Hnull.
  - apply Hvar.
  - apply Hnode. induction args as [|a args IHargs]; constructor.
    + apply IH.
    + exact IHargs.
Qed.

Lemma Var_eqb_eq (a b : Var) : Var_eqb a b = true <-> a = b.
Proof.
  unfold Var_eqb. destruct a, b; cbn.
  rewrite !andb_true_iff, !Z.eqb_eq.
  split; [intros (((((((-> & ->) & ->) & ->) & ->) & ->) & ->) & ->); reflexivity|].
  intros [= -> -> -> -> -> -> -> ->]. repeat split.
Qed.

Lemma equal_eq (a b : Expr) : equal a b = true <-> a = b.
Proof.
  revert b. induction a as [|x|ta la IH] using Expr_induction; intros [|y|tb lb]; cbn;
    try (split; [discriminate | intros [=]]); try tauto.
  - rewrite Var_eqb_eq. split; [now intros -> | now intros [= ->]].
  - rewrite andb_true_iff, Z.eqb_eq.
    assert (Hl : (fix equal_list (la lb : list Expr) : bool :=
                    match la, lb with
                    | [], [] => true
                    | x :: la', y :: lb' => equal x y && equal_list la' lb'
                    | _, _ => false
                    end) la lb = true <-> la = lb).
    { revert lb. induction IH as [|a la Ha Hla IHla]; intros [|b lb];
        try (split; [discriminate | intros [=]]); try tauto.
      rewrite andb_true_iff, Ha, IHla.
      split; [now intros [-> ->] | now intros [= -> ->]]. }
    rewrite Hl. split; [now intros [-> ->] | now intros [= -> ->]].
Qed.

Lemma equal_refl (a : Expr) : equal a a = true.
Proof. now apply equal_eq. Qed.

Lemma to_int16_id (z : Z) : - 2 ^ 15 <= z < 2 ^ 15 -> to_int16 z = z.
Proof.
  intros H. unfold to_int16. change (2 ^ 15) with 32768 in *.
  change (2 ^ 16) with 65536. rewrite Z.mod_small; lia.
Qed.

Lemma numbered_app (l : list TargetEntry) (tle : TargetEntry) :
  numbered l -> resno tle = list_length l + 1 -> numbered (l ++ [tle]).
Proof.
  intros Hn Hr i t Hi.
  destruct (Nat.lt_ge_cases i (List.length l)) as [Hlt|Hge].
  - rewrite nth_error_app1 in Hi by assumption. now apply Hn.
  - rewrite nth_error_app2 in Hi by assumption.
    destruct (i - List.length l)%nat as [|k] eqn:Hk; cbn in Hi.
    + injection Hi as <-. rewrite Hr. unfold list_length. lia.
    + now destruct k.
Qed.

Lemma find_equal_expression_Some (e : Expr) (l : list TargetEntry) (r : Z) :
  find_equal_expression e l = Some r ->
  exists i tle, nth_error l i = Some tle /\ expr tle = e /\ resno tle = r /\
                forall j t, (j < i)%nat -> nth_error l j = Some t -> expr t <> e.
Proof.
  induction l as [|t l IH]; cbn; [discriminate|].
  destruct (equal e (expr t)) eqn:He.
  - intros [= <-]. apply equal_eq in He. exists 0%nat, t.
    repeat split; auto. intros j t' Hj. lia.
  - intros Hf. destruct (IH Hf) as (i & tle & Hi & Hexp & Hres & Hfirst).
    exists (S i), tle. repeat split; auto.
    intros [|j] t' Hj; cbn.
    + intros [= <-] Heq. rewrite <- Heq, equal_refl in He. discriminate.
    + apply Hfirst. lia.
Qed.

Lemma find_equal_expression_None (e : Expr) (l : list TargetEntry) :
  find_equal_expression e l = None <-> (forall tle, In tle l -> expr tle <> e).
Proof.
  induction l as [|t l IH]; cbn; [split; [intros _ tle [] | reflexivity]|].
  destruct (equal e (expr t)) eqn:He.
  - apply equal_eq in He. split; [discriminate|].
    intros H. exfalso. apply (H t); [now left | now symmetry].
  - rewrite IH. split.
    + intros H tle [<-|Hin]; [|now apply H].
      intros Heq. rewrite <- Heq, equal_refl in He. discriminate.
    + intros H tle Hin. apply H. now right.
Qed.

Lemma find_equal_expression_app (e : Expr) (l : list TargetEntry) (tle : TargetEntry) :
  find_equal_expression e l = None ->
  find_equal_expression e (l ++ [tle]) =
  if equal e (expr tle) then Some (resno tle) else None.
Proof.
  induction l as [|t l IH]; cbn; [reflexivity|].
  destruct (equal e (expr t)); [discriminate | exact IH].
Qed.

End ProjectionFacts1.

(** X14.  insert_unique_expression keeps a target list duplicate-free
    and numbered: on a list of fewer than 32767 entries whose resno is
    their position, it returns the list as it is when an entry holds an
    expression equal to the one given, and otherwise the list with one
    entry for the expression appended; either way the result is numbered
    by position, the number returned is the position of the entry that
    holds the expression, no expression occurs twice if none did, and
    inserting the same expression once more changes nothing and returns
    the same number. *)
Theorem insert_unique_expression_keeps
    (e : Projection.Expr) (l : list Projection.TargetEntry) :
  Projection.numbered l -> Projection.list_length l < 32767 ->
  let r := fst (Projection.insert_unique_expression e l) in
  let l' := snd (Projection.insert_unique_expression e l) in
  (if existsb (fun tle => Projection.equal e (Projection.expr tle)) l
   then l' = l
   else l' = l ++ [Projection.mkTargetEntry e (Projection.list_length l + 1) None false]) /\
  Projection.numbered l' /\
  (exists tle, nth_error l' (Z.to_nat (r - 1)) = Some tle /\
               Projection.expr tle = e) /\
  1 <= r <= Projection.list_length l' /\
  (NoDup (map Projection.expr l) -> NoDup (map Projection.expr l')) /\
  Projection.insert_unique_expression e l' = (r, l').
Proof.
  intros Hnum Hlen r l'. subst r l'.
  unfold Projection.insert_unique_expression.
  destruct (Projection.find_equal_expression e l) as [r|] eqn:Hfind; cbn [fst snd].
  - destruct (find_equal_expression_Some e l r Hfind) as (i & tle & Hi & Hexp & Hres & _).
    assert (Hex : existsb (fun t => Projection.equal e (Projection.expr t)) l = true).
    { apply existsb_exists. exists tle. split; [eapply nth_error_In; eassumption|].
      rewrite Hexp. apply equal_refl. }
    rewrite Hex. split; [reflexivity|]. split; [assumption|].
    pose proof (Hnum i tle Hi) as Hri.
    assert (Hil : (i < List.length l)%nat) by (apply nth_error_Some; congruence).
    unfold Projection.list_length in Hlen.
    split.
    { exists tle. split; [|assumption].
      rewrite <- Hres, Hri. replace (Z.to_nat (Z.of_nat i + 1 - 1)) with i by lia.
      assumption. }
    split; [unfold Projection.list_length; lia|].
    split; [auto|]. now rewrite Hfind.
  - assert (Hex : existsb (fun t => Projection.equal e (Projection.expr t)) l = false).
    { apply not_true_is_false. intros H. apply existsb_exists in H.
      destruct H as (t & Hin & Heq). apply equal_eq in Heq.
      apply (proj1 (find_equal_expression_None e l) Hfind t Hin). now symmetry. }
    rewrite Hex. unfold lappend, Projection.makeTargetEntry.
    assert (Hr16 : Projection.to_int16 (Projection.list_length l + 1)
                   = Projection.list_length l + 1).
    { apply to_int16_id. unfold Projection.list_length in *.
      change (2 ^ 15) with 32768. lia. }
    assert (Hl16 : Projection.list_length
                     (l ++ [Projection.mkTargetEntry e (Projection.list_length l + 1)
                                                     None false])
                   = Projection.list_length l + 1).
    { unfold Projection.list_length. rewrite length_app. cbn. lia. }
    rewrite Hr16, Hl16, Hr16.
    split; [reflexivity|].
    split; [apply numbered_app; [assumption | reflexivity]|].
    split.
    { exists (Projection.mkTargetEntry e (Projection.list_length l + 1) None false).
      split; [|reflexivity].
      unfold Projection.list_length.
      replace (Z.to_nat (Z.of_nat (List.length l) + 1 - 1)) with (List.length l) by lia.
      rewrite nth_error_app2 by lia. now rewrite Nat.sub_diag. }
    split; [unfold Projection.list_length; lia|].
    split.
    { intros Hnd. rewrite map_app. cbn.
      apply NoDup_app_intro_gen; [assumption | repeat constructor; intros [] |].
      intros x Hx [<-|[]]. apply in_map_iff in Hx. destruct Hx as (t & Ht & Hin).
      apply (proj1 (find_equal_expression_None e l) Hfind t Hin). assumption. }
    rewrite find_equal_expression_app by assumption.
    cbn [Projection.expr Projection.resno]. now rewrite equal_refl.
Qed.

Lemma insert_unique_expression_keeps_witness :
  Projection.numbered
    (snd (Projection.insert_unique_expression Projection.example_column_b
                                              Projection.example_scan_tlist)) /\
  Projection.insert_unique_expression Projection.example_column_b
    (snd (Projection.insert_unique_expression Projection.example_column_b
                                              Projection.example_scan_tlist))
  = (2, [Projection.mkTargetEntry Projection.example_column_a 1 None false;
         Projection.mkTargetEntry Projection.example_column_b 2 None false]).
Proof.
  assert (Hnum : Projection.numbered Projection.example_scan_tlist).
  { intros [|[|i]] tle; cbn; intros [= <-]. reflexivity. }
  pose proof (insert_unique_expression_keeps Projection.example_column_b
                Projection.example_scan_tlist Hnum eq_refl)
    as (_ & Hn & _ & _ & _ & Hagain).
  split; [exact Hn | exact Hagain].
Defined.

Section ProjectionFacts2.
Import Projection.
Context {TB : TreeBackend}.

Lemma find_scan_var_Some (var : Var) (l : list TargetEntry) (r : Z) :
  find_scan_var var l = Some r ->
  exists tle scan_var,
    In tle l /\ expr tle = E_Var scan_var /\
    varattno scan_var = varattno var /\ resno tle = r.
Proof.
  induction l as [|t l IH]; cbn; [discriminate|].
  destruct (expr t) as [|sv|tag args] eqn:He.
  - intros H. destruct (IH H) as (tle & sv' & Hin & H1 & H2 & H3).
    exists tle, sv'. auto.
  - destruct (Z.eqb_spec (varattno sv) (varattno var)) as [Heq|Hne].
    + intros [= <-]. exists t, sv. auto.
    + intros H. destruct (IH H) as (tle & sv' & Hin & H1 & H2 & H3).
      exists tle, sv'. auto.
  - intros H. destruct (IH H) as (tle & sv' & Hin & H1 & H2 & H3).
    exists tle, sv'. auto.
Qed.

Lemma find_scan_var_None (var : Var) (l : list TargetEntry) :
  find_scan_var var l = None <-> var_missing l var.
Proof.
  unfold var_missing. induction l as [|t l IH]; cbn.
  - split; [intros _ tle sv [] | reflexivity].
  - destruct (expr t) as [|sv|tag args] eqn:He.
    + rewrite IH. split.
      * intros H tle sv' [<-|Hin] Hexp; [congruence | eauto].
      * intros H tle sv' Hin. apply H. now right.
    + destruct (Z.eqb_spec (varattno sv) (varattno var)) as [Heq|Hne].
      * split; [discriminate|]. intros H. exfalso.
        apply (H t sv); auto.
      * rewrite IH. split.
        -- intros H tle sv' [<-|Hin] Hexp; [congruence | eauto].
        -- intros H tle sv' Hin. apply H. now right.
    + rewrite IH. split.
      * intros H tle sv' [<-|Hin] Hexp; [congruence | eauto].
      * intros H tle sv' Hin. apply H. now right.
Qed.

Lemma replace_varnode_Ok (scan_tlist : list TargetEntry) (node node' : Expr) :
  replace_varnode_with_scan_tlist node scan_tlist = Ok node' ->
  Forall2 (refers_to scan_tlist) (vars_of node) (vars_of node') /\
  skeleton node' = skeleton node.
Proof.
  revert node'.
  induction node as [|var|tag args IH] using Expr_induction; intros node'; cbn.
  - intros [= <-]. split; [constructor | reflexivity].
  - destruct (find_scan_var var scan_tlist) as [r|] eqn:Hf; [|discriminate].
    intros [= <-]. cbn. split; [|reflexivity].
    constructor; [|constructor].
    destruct (find_scan_var_Some var scan_tlist r Hf) as (tle & sv & Hin & H1 & H2 & H3).
    exists tle, sv. rewrite H3. auto.
  - match goal with
    | |- match ?m args with Ok _ => _ | Raised _ => _ end = _ -> _ =>
        set (mutate := m)
    end.
    assert (Hm : forall args',
               mutate args = Ok args' ->
               Forall2 (refers_to scan_tlist)
                       (flat_map vars_of args) (flat_map vars_of args') /\
               map skeleton args' = map skeleton args).
    { induction IH as [|a args Ha Hargs IHargs]; intros args'; cbn.
      - intros [= <-]. split; [constructor | reflexivity].
      - destruct (replace_varnode_with_scan_tlist a scan_tlist) as [a'|] eqn:Hra;
          [|discriminate].
        fold mutate.
        destruct (mutate args) as [rest'|] eqn:Hrest; [|discriminate].
        intros [= <-]. cbn.
        destruct (Ha a' eq_refl) as (Hv & Hs).
        destruct (IHargs rest' eq_refl) as (Hvs & Hss).
        split; [now apply Forall2_app | now rewrite Hs, Hss]. }
    destruct (mutate args) as [args'|]; [|discriminate].
    intros [= <-]. cbn. destruct (Hm args' eq_refl) as (Hv & Hs).
    split; [exact Hv | now rewrite Hs].
Qed.

Lemma replace_varnode_Raised (scan_tlist : list TargetEntry) (node : Expr) (msg : string) :
  replace_varnode_with_scan_tlist node scan_tlist = Raised msg ->
  msg = "Bug? referenced Var-node not in scan_tlist"%string /\
  exists var, In var (vars_of node) /\ var_missing scan_tlist var.
Proof.
  induction node as [|var|tag args IH] using Expr_induction; cbn.
  - discriminate.
  - destruct (find_scan_var var scan_tlist) as [r|] eqn:Hf; [discriminate|].
    intros [= <-]. split; [reflexivity|].
    exists var. split; [now left | now apply find_scan_var_None].
  - match goal with
    | |- match ?m args with Ok _ => _ | Raised _ => _ end = _ -> _ =>
        set (mutate := m)
    end.
    assert (Hm : mutate args = Raised msg ->
                 msg = "Bug? referenced Var-node not in scan_tlist"%string /\
                 exists var, In var (flat_map vars_of args) /\
                             var_missing scan_tlist var).
    { induction IH as [|a args Ha Hargs IHargs]; cbn; [discriminate|].
      destruct (replace_varnode_with_scan_tlist a scan_tlist) as [a'|m] eqn:Hra.
      - fold mutate. destruct (mutate args) as [rest'|m]; [discriminate|].
        intros [= ->]. destruct (IHargs eq_refl) as (Hmsg & var & Hin & Hmiss).
        split; [exact Hmsg|]. exists var. split; [|exact Hmiss].
        apply in_or_app. now right.
      - intros [= ->]. destruct (Ha eq_refl) as (Hmsg & var & Hin & Hmiss).
        split; [exact Hmsg|]. exists var. split; [|exact Hmiss].
        apply in_or_app. now left. }
    destruct (mutate args) as [args'|m]; [discriminate|].
    intros [= ->]. now apply Hm.
Qed.

End ProjectionFacts2.

(** X15.  replace_varnode_with_scan_tlist either resolves every Var of
    the expression or raises its error.  When it returns, the expression
    returned is the one given with each Var replaced, in place, by a Var
    that refers by INDEX_VAR and resno to an entry of scan_tlist which is
    a Var of the same attribute, with the type, typmod and collation of
    the Var replaced; nothing else of the expression changes.  It raises
    'Bug? referenced Var-node not in scan_tlist' exactly when the
    expression holds a Var whose attribute no Var entry of scan_tlist
    has. *)
Theorem replace_varnode_with_scan_tlist_resolves
    (scan_tlist : list Projection.TargetEntry) (node : Projection.Expr) :
  match Projection.replace_varnode_with_scan_tlist node scan_tlist with
  | Ok node' =>
      Forall2 (Projection.refers_to scan_tlist)
              (Projection.vars_of node) (Projection.vars_of node') /\
      Projection.skeleton node' = Projection.skeleton node /\
      Forall (fun var => ~ Projection.var_missing scan_tlist var)
             (Projection.vars_of node)
  | Raised msg =>
      msg = "Bug? referenced Var-node not in scan_tlist"%string /\
      exists var, In var (Projection.vars_of node) /\
                  Projection.var_missing scan_tlist var
  end.
Proof.
  destruct (Projection.replace_varnode_with_scan_tlist node scan_tlist)
    as [node'|msg] eqn:Hrun.
  - destruct (replace_varnode_Ok scan_tlist node node' Hrun) as (Hrefs & Hskel).
    split; [exact Hrefs|]. split; [exact Hskel|].
    clear Hrun Hskel. induction Hrefs as [|v v' vs vs' Hr Hrs IH]; constructor.
    + destruct Hr as (tle & sv & Hin & Hexp & Hatt & _).
      intros Hmiss. exact (Hmiss tle sv Hin Hexp Hatt).
    + exact IH.
  - now apply replace_varnode_Raised.
Qed.

Section ProjectionFacts3.
Import Projection.
Context {TB : TreeBackend}.

Lemma array_ref_Some {A : Type} (a : list A) (i : Z) :
  0 <= i < list_length a -> exists x, array_ref a i = Some x.
Proof.
  unfold array_ref, list_length. intros H.
  destruct (Z.ltb_spec i 0); [lia|].
  destruct (nth_error a (Z.to_nat i)) as [x|] eqn:Hn; [eauto|].
  apply nth_error_None in Hn. lia.
Qed.

Lemma array_ref_None {A : Type} (a : list A) (i : Z) :
  list_length a <= i -> array_ref a i = None.
Proof.
  unfold array_ref, list_length. intros H.
  destruct (Z.ltb_spec i 0); [reflexivity|].
  apply nth_error_None. lia.
Qed.

(** The two ways insert_unique_expression ends. *)
Lemma insert_unique_expression_cases (e : Expr) (l : list TargetEntry) :
  numbered l -> list_length l < 32767 ->
  (exists tle, In tle l /\ expr tle = e /\
               insert_unique_expression e l = (resno tle, l)) \/
  ((forall tle, In tle l -> expr tle <> e) /\
   insert_unique_expression e l =
   (list_length l + 1, l ++ [mkTargetEntry e (list_length l + 1) None false])).
Proof.
  intros Hnum Hlen. unfold insert_unique_expression.
  destruct (find_equal_expression e l) as [r|] eqn:Hfind.
  - left. destruct (find_equal_expression_Some e l r Hfind)
      as (i & tle & Hi & Hexp & Hres & _).
    exists tle. split; [eapply nth_error_In; eassumption|].
    split; [assumption | now rewrite Hres].
  - right. split; [now apply find_equal_expression_None|].
    unfold lappend, makeTargetEntry.
    assert (Hr16 : to_int16 (list_length l + 1) = list_length l + 1).
    { apply to_int16_id. unfold list_length in *. change (2 ^ 15) with 32768. lia. }
    assert (Hl16 : list_length (l ++ [mkTargetEntry e (list_length l + 1) None false])
                   = list_length l + 1).
    { unfold list_length. rewrite length_app. cbn. lia. }
    now rewrite Hr16, Hl16, Hr16.
Qed.

(** What one insertion does to a scan_tlist that is numbered and free of
    duplicates. *)
Lemma insert_unique_expression_step (e : Expr) (l : list TargetEntry) :
  numbered l -> list_length l < 32767 -> NoDup (map expr l) ->
  let r := fst (insert_unique_expression e l) in
  let l' := snd (insert_unique_expression e l) in
  (exists added, l' = l ++ added /\ (List.length added <= 1)%nat /\
                 forall t, In t added -> expr t = e) /\
  numbered l' /\ NoDup (map expr l') /\
  exists tle, In tle l' /\ expr tle = e /\ resno tle = r.
Proof.
  intros Hnum Hlen Hnd r l'. subst r l'.
  destruct (insert_unique_expression_cases e l Hnum Hlen)
    as [(tle & Hin & Hexp & Hrun) | (Hnone & Hrun)]; rewrite Hrun; cbn [fst snd].
  - split; [exists []; rewrite app_nil_r; repeat split; [cbn; lia | intros t []]|].
    split; [assumption|]. split; [assumption|]. exists tle. auto.
  - split.
    { eexists. split; [reflexivity|]. split; [cbn; lia|].
      intros t [<-|[]]. reflexivity. }
    split; [apply numbered_app; [assumption | reflexivity]|].
    split.
    { rewrite map_app. cbn.
      apply NoDup_app_intro_gen; [assumption | repeat constructor; intros [] |].
      intros x Hx [<-|[]]. apply in_map_iff in Hx. destruct Hx as (t & Ht & Hin).
      now apply (Hnone t Hin). }
    eexists. split; [apply in_or_app; right; now left|]. split; reflexivity.
Qed.

Lemma stands_for_grows (l added : list TargetEntry) (old new : TargetEntry) :
  stands_for l old new -> stands_for (l ++ added) old new.
Proof.
  intros (Hn & Hj & tle & Hin & He & Hnew).
  split; [assumption|]. split; [assumption|].
  exists tle. split; [apply in_or_app; now left | auto].
Qed.

(** The foreach loop over a target list of Vars and device executable
    expressions. *)
Lemma build_target_list_evaluable
    (tupdesc : TupleDesc) (varno_ : Z) (rest : list TargetEntry) (lv : build_locals) :
  forallb device_evaluable rest = true ->
  numbered (bl_tlist_new lv) -> numbered (bl_scan_tlist lv) ->
  NoDup (map expr (bl_scan_tlist lv)) ->
  1 <= bl_attnum lv -> bl_attnum lv + list_length rest <= 32767 ->
  list_length (bl_tlist_new lv) + list_length rest < 32767 ->
  list_length (bl_scan_tlist lv) + list_length rest < 32767 ->
  exists lv',
    build_target_list tupdesc varno_ rest lv = Built lv' /\
    (exists added_new,
       bl_tlist_new lv' = bl_tlist_new lv ++ added_new /\
       Forall2 (stands_for (bl_scan_tlist lv')) rest added_new) /\
    (exists added_scan,
       bl_scan_tlist lv' = bl_scan_tlist lv ++ added_scan /\
       forall t, In t added_scan -> exists old, In old rest /\ expr old = expr t) /\
    numbered (bl_tlist_new lv') /\ numbered (bl_scan_tlist lv') /\
    NoDup (map expr (bl_scan_tlist lv')) /\
    bl_with_gpu_projection lv' =
      bl_with_gpu_projection lv
      || negb (matches_layout_from tupdesc (bl_attnum lv) rest).
Proof.
  revert lv. induction rest as [|tle rest IH];
    intros lv Hev Hnn Hns Hnd Hat Hab Hlb Hsb.
  - exists lv. cbn. split; [reflexivity|].
    split; [exists []; rewrite app_nil_r; split; [reflexivity | constructor]|].
    split; [exists []; rewrite app_nil_r; split; [reflexivity | intros t []]|].
    repeat (split; [assumption|]). now rewrite orb_false_r.
  - cbn [forallb] in Hev. apply andb_true_iff in Hev. destruct Hev as (Hev1 & Hev).
    assert (Hlen : list_length (tle :: rest) = list_length rest + 1)
      by (unfold list_length; cbn [List.length]; lia).
    rewrite Hlen in Hab, Hlb, Hsb.
    assert (Hrest0 : 0 <= list_length rest) by (unfold list_length; lia).
    (* the entry itself *)
    assert (Hstep :
      exists lv1,
        build_target_entry tupdesc varno_ lv tle = Built lv1 /\
        bl_attnum lv1 = bl_attnum lv /\
        (exists new, bl_tlist_new lv1 = bl_tlist_new lv ++ [new] /\
                     stands_for (bl_scan_tlist lv1) tle new /\
                     resno new = list_length (bl_tlist_new lv) + 1) /\
        (exists added, bl_scan_tlist lv1 = bl_scan_tlist lv ++ added /\
                       (List.length added <= 1)%nat /\
                       forall t, In t added -> expr t = expr tle) /\
        numbered (bl_scan_tlist lv1) /\ NoDup (map expr (bl_scan_tlist lv1)) /\
        bl_with_gpu_projection lv1 =
          bl_with_gpu_projection lv
          || negb (entry_matches_layout tupdesc (bl_attnum lv) tle)).
    { assert (Hsl : list_length (bl_scan_tlist lv) < 32767) by lia.
      assert (Hr16 : to_int16 (list_length (bl_tlist_new lv) + 1)
                     = list_length (bl_tlist_new lv) + 1).
      { apply to_int16_id. unfold list_length in *. change (2 ^ 15) with 32768. lia. }
      unfold build_target_entry, device_evaluable, entry_matches_layout in *.
      destruct (expr tle) as [|var|tag args] eqn:Hexp; [discriminate| |].
      - (* a Var *)
        apply negb_true_iff in Hev1. rewrite Hev1.
        pose proof (insert_unique_expression_step (E_Var var) (bl_scan_tlist lv)
                      Hns Hsl Hnd) as (Hgrow & Hns' & Hnd' & t & Hin & Ht & Hr).
        destruct (insert_unique_expression (E_Var var) (bl_scan_tlist lv))
          as [r l'] eqn:Hins. cbn [fst snd] in Hgrow, Hns', Hnd', Hin, Hr.
        set (new := makeTargetEntry
                      (E_Var (makeVar INDEX_VAR r (vartype var) (vartypmod var)
                                      (varcollid var) 0))
                      (list_length (bl_tlist_new lv) + 1) (resname tle) (resjunk tle)).
        assert (Hstands : stands_for l' tle new).
        { split; [reflexivity|]. split; [reflexivity|].
          exists t. split; [assumption|]. split; [congruence|].
          rewrite Hexp, Hr. reflexivity. }
        assert (Hnew : resno new = list_length (bl_tlist_new lv) + 1)
          by (unfold new, makeTargetEntry; cbn; exact Hr16).
        destruct (Z.eqb_spec (varattno var) (bl_attnum lv)) as [Hva|Hva];
          cbn [negb orb andb].
        + destruct (Z.gtb_spec (bl_attnum lv) (natts tupdesc)) as [Hgt|Hle].
          * rewrite (array_ref_None tupdesc (bl_attnum lv - 1))
              by (unfold natts in Hgt; lia).
            eexists. split; [reflexivity|]. cbn.
            split; [reflexivity|]. split; [exists new; auto|].
            split; [exact Hgrow|]. repeat (split; [assumption|]).
            now rewrite orb_true_r.
          * destruct (array_ref_Some tupdesc (bl_attnum lv - 1)) as (attr & Hattr);
              [unfold natts in Hle; lia|].
            rewrite Hattr.
            destruct (vartype var =? atttypid attr); cbn [negb orb andb].
            -- destruct (vartypmod var =? atttypmod attr); cbn [negb orb andb].
               ++ eexists. split; [reflexivity|]. cbn.
                  split; [reflexivity|]. split; [exists new; auto|].
                  split; [exact Hgrow|]. repeat (split; [assumption|]).
                  now rewrite orb_false_r.
               ++ destruct (vartypmod var =? -1); cbn [negb orb andb];
                    (eexists; split; [reflexivity|]; cbn;
                     split; [reflexivity|]; split; [exists new; auto|];
                     split; [exact Hgrow|]; repeat (split; [assumption|]);
                     now rewrite ?orb_false_r, ?orb_true_r).
            -- eexists. split; [reflexivity|]. cbn.
               split; [reflexivity|]. split; [exists new; auto|].
               split; [exact Hgrow|]. repeat (split; [assumption|]).
               now rewrite orb_true_r.
        + eexists. split; [reflexivity|]. cbn.
          split; [reflexivity|]. split; [exists new; auto|].
          split; [exact Hgrow|]. repeat (split; [assumption|]).
          now rewrite orb_true_r.
      - (* a device executable expression *)
        rewrite Hev1.
        pose proof (insert_unique_expression_step (E_Node tag args) (bl_scan_tlist lv)
                      Hns Hsl Hnd) as (Hgrow & Hns' & Hnd' & t & Hin & Ht & Hr).
        destruct (insert_unique_expression (E_Node tag args) (bl_scan_tlist lv))
          as [r l'] eqn:Hins. cbn [fst snd] in Hgrow, Hns', Hnd', Hin, Hr.
        eexists. split; [reflexivity|]. cbn.
        split; [reflexivity|].
        split.
        { eexists. split; [reflexivity|]. split; [|exact Hr16].
          split; [reflexivity|]. split; [reflexivity|].
          exists t. split; [assumption|]. split; [congruence|].
          rewrite Hexp, Hr. reflexivity. }
        split; [exact Hgrow|]. repeat (split; [assumption|]).
        now rewrite orb_true_r. }
    destruct Hstep as (lv1 & Hrun1 & Hat1 & (new & Hnew & Hst & Hrn)
                       & (added & Hscan & Hadd1 & Hadde) & Hns1 & Hnd1 & Hwg1).
    cbn [build_target_list]. rewrite Hrun1.
    set (lv2 := mkBuildLocals (to_int16 (bl_attnum lv1 + 1)) (bl_tlist_new lv1)
                              (bl_scan_tlist lv1) (bl_with_gpu_projection lv1)).
    assert (Ha16 : to_int16 (bl_attnum lv1 + 1) = bl_attnum lv + 1).
    { rewrite Hat1. apply to_int16_id. change (2 ^ 15) with 32768. lia. }
    assert (Hnn1 : numbered (bl_tlist_new lv1)).
    { rewrite Hnew. apply numbered_app; assumption. }
    assert (Hl1 : list_length (bl_tlist_new lv1) = list_length (bl_tlist_new lv) + 1).
    { rewrite Hnew. unfold list_length. rewrite length_app. cbn. lia. }
    assert (Hs1 : list_length (bl_scan_tlist lv1) <= list_length (bl_scan_tlist lv) + 1).
    { rewrite Hscan. unfold list_length. rewrite length_app. lia. }
    destruct (IH lv2) as (lv' & Hrun & (added_new & Hn' & Hf2)
                          & (added_scan & Hs' & Hfrom) & Hnn' & Hns' & Hnd' & Hwg');
      try assumption; cbn [lv2 bl_attnum bl_tlist_new bl_scan_tlist]; try lia.
    exists lv'. split; [exact Hrun|].
    cbn [lv2 bl_attnum bl_tlist_new bl_scan_tlist bl_with_gpu_projection] in *.
    split.
    { exists (new :: added_new). split; [rewrite Hn', Hnew, <- app_assoc; reflexivity|].
      constructor; [|exact Hf2]. rewrite Hs'. now apply stands_for_grows. }
    split.
    { exists (added ++ added_scan).
      split; [rewrite Hs', Hscan, <- app_assoc; reflexivity|].
      intros t Hin. apply in_app_or in Hin. destruct Hin as [Hin|Hin].
      - exists tle. split; [now left | symmetry; now apply Hadde].
      - destruct (Hfrom t Hin) as (old & Hold & He). exists old. split; [now right | exact He]. }
    repeat (split; [assumption|]).
    rewrite Hwg', Hwg1, Ha16. cbn [matches_layout_from].
    rewrite negb_andb, orb_assoc. reflexivity.
Qed.

(** build_device_projection on such a target list: the loop ends on its
    way, and the flag it leaves decides between [return false] and the
    new lists. *)
Lemma build_device_projection_evaluable
    (tupdesc : TupleDesc) (tlist_old : list TargetEntry) (varno_ : Z) :
  list_length tlist_old < 32767 ->
  forallb device_evaluable tlist_old = true ->
  exists tlist_new scan_tlist,
    Forall2 (stands_for scan_tlist) tlist_old tlist_new /\
    (forall t, In t scan_tlist -> exists old, In old tlist_old /\ expr old = expr t) /\
    numbered tlist_new /\ numbered scan_tlist /\ NoDup (map expr scan_tlist) /\
    build_device_projection tupdesc tlist_old varno_ =
      if matches_layout_from tupdesc 1 tlist_old then ReturnFalse
      else Built (mkDeviceProjection tlist_new scan_tlist
                                     (base_fixed_width_of tupdesc)
                                     (fst (proj_widths_of scan_tlist))
                                     (snd (proj_widths_of scan_tlist))).
Proof.
  intros Hlen Hev.
  assert (H0 : 0 <= list_length tlist_old) by (unfold list_length; lia).
  destruct (build_target_list_evaluable tupdesc varno_ tlist_old
              (mkBuildLocals 1 [] [] false) Hev)
    as (lv' & Hrun & (added_new & Hn & Hf2) & (added_scan & Hs & Hfrom)
        & Hnn & Hns & Hnd & Hwg);
    cbn [bl_attnum bl_tlist_new bl_scan_tlist map];
    try (intros [|i] t; cbn; discriminate);
    try constructor; try (unfold list_length in *; cbn [List.length]; lia).
  cbn [bl_attnum bl_tlist_new bl_scan_tlist bl_with_gpu_projection app orb] in *.
  exists (bl_tlist_new lv'), (bl_scan_tlist lv').
  split; [rewrite Hn; exact Hf2|].
  split; [rewrite Hs; exact Hfrom|].
  repeat (split; [assumption|]).
  unfold build_device_projection. rewrite Hrun, Hwg, negb_involutive.
  destruct (matches_layout_from tupdesc 1 tlist_old); [reflexivity|].
  destruct (proj_widths_of (bl_scan_tlist lv')); reflexivity.
Qed.

End ProjectionFacts3.

(** X16.  build_device_projection on a target list of fewer than 32767
    entries, each a Var that is no whole-row reference or a device
    executable expression, never fails, and it returns false, leaving
    the plan as it is, exactly when the list is the physical layout of
    the relation or a prefix of it: entry i is the Var of column i, with
    the type of the column and its typmod or -1.  An empty target list
    is such a prefix. *)
Theorem build_device_projection_needed
    {TB : Projection.TreeBackend} (tupdesc : Projection.TupleDesc)
    (tlist_old : list Projection.TargetEntry) (varno_ : Z) :
  Projection.list_length tlist_old < 32767 ->
  forallb Projection.device_evaluable tlist_old = true ->
  (if Projection.matches_layout_from tupdesc 1 tlist_old
   then Projection.build_device_projection tupdesc tlist_old varno_
        = Projection.ReturnFalse
   else exists dp, Projection.build_device_projection tupdesc tlist_old varno_
                   = Projection.Built dp) /\
  Projection.build_device_projection tupdesc [] varno_ = Projection.ReturnFalse.
Proof.
  intros Hlen Hev. split; [|reflexivity].
  destruct (build_device_projection_evaluable tupdesc tlist_old varno_ Hlen Hev)
    as (tlist_new & scan_tlist & _ & _ & _ & _ & _ & Hrun).
  rewrite Hrun. destruct (Projection.matches_layout_from tupdesc 1 tlist_old);
    [reflexivity | eexists; reflexivity].
Qed.

Lemma build_device_projection_needed_witness :
  Projection.build_device_projection (TB := Projection.example_tree)
    Projection.example_tupdesc Projection.example_tlist_layout 1
  = Projection.ReturnFalse /\
  exists dp,
    Projection.build_device_projection (TB := Projection.example_tree)
      Projection.example_tupdesc Projection.example_tlist_device 1
    = Projection.Built dp.
Proof.
  split.
  - exact (proj1 (build_device_projection_needed
                    (TB := Projection.example_tree) Projection.example_tupdesc
                    Projection.example_tlist_layout 1 eq_refl eq_refl)).
  - exact (proj1 (build_device_projection_needed
                    (TB := Projection.example_tree) Projection.example_tupdesc
                    Projection.example_tlist_device 1 eq_refl eq_refl)).
Defined.

(** X17.  When build_device_projection returns true on such a target
    list, the new target list has one entry for each entry of the old
    one, in order, with its name and junk flag: a Var that refers, by
    INDEX_VAR and resno, to the entry of custom_scan_tlist that holds
    the expression of the old entry, with its type, typmod and
    collation.  Both lists are numbered by position, custom_scan_tlist
    holds no expression twice and nothing but expressions of the old
    target list. *)
Theorem build_device_projection_resolves
    {TB : Projection.TreeBackend} (tupdesc : Projection.TupleDesc)
    (tlist_old : list Projection.TargetEntry) (varno_ : Z)
    (dp : Projection.device_projection) :
  Projection.list_length tlist_old < 32767 ->
  forallb Projection.device_evaluable tlist_old = true ->
  Projection.build_device_projection tupdesc tlist_old varno_ = Projection.Built dp ->
  Forall2 (Projection.stands_for (Projection.dp_custom_scan_tlist dp))
          tlist_old (Projection.dp_targetlist dp) /\
  Projection.numbered (Projection.dp_targetlist dp) /\
  Projection.numbered (Projection.dp_custom_scan_tlist dp) /\
  NoDup (map Projection.expr (Projection.dp_custom_scan_tlist dp)) /\
  (forall t, In t (Projection.dp_custom_scan_tlist dp) ->
             exists old, In old tlist_old /\ Projection.expr old = Projection.expr t).
Proof.
  intros Hlen Hev Hrun.
  destruct (build_device_projection_evaluable tupdesc tlist_old varno_ Hlen Hev)
    as (tlist_new & scan_tlist & Hf2 & Hfrom & Hnn & Hns & Hnd & Hrun').
  rewrite Hrun in Hrun'.
  destruct (Projection.matches_layout_from tupdesc 1 tlist_old); [discriminate|].
  injection Hrun' as ->. cbn. auto.
Qed.

Lemma build_device_projection_resolves_witness :
  match Projection.build_device_projection (TB := Projection.example_tree)
          Projection.example_tupdesc Projection.example_tlist_device 1 with
  | Projection.Built dp =>
      Forall2 (Projection.stands_for (TB := Projection.example_tree)
                 (Projection.dp_custom_scan_tlist dp))
              Projection.example_tlist_device (Projection.dp_targetlist dp) /\
      map Projection.expr (Projection.dp_custom_scan_tlist dp)
      = [Projection.E_Node 1 [Projection.example_column_a; Projection.example_column_a];
         Projection.example_column_a; Projection.example_column_b]
  | _ => False
  end.
Proof.
  destruct (Projection.build_device_projection (TB := Projection.example_tree)
              Projection.example_tupdesc Projection.example_tlist_device 1)
    as [dp| | | |] eqn:Hrun; try (vm_compute in Hrun; discriminate).
  split.
  - exact (proj1 (build_device_projection_resolves
                    (TB := Projection.example_tree) Projection.example_tupdesc
                    Projection.example_tlist_device 1 dp eq_refl eq_refl Hrun)).
  - vm_compute in Hrun. injection Hrun as <-. reflexivity.
Defined.

Section ProjectionFacts4.
Import Projection.
Context {TB : TreeBackend}.

Lemma bms_add_member_In (a : Bitmapset) (x m : Z) :
  In m (bms_add_member a x) <-> m = x \/ In m a.
Proof.
  induction a as [|y a IH]; cbn.
  - intuition.
  - destruct (Z.ltb_spec x y).
    + cbn. intuition.
    + destruct (Z.eqb_spec x y).
      * subst. cbn. intuition.
      * cbn. rewrite IH. intuition.
Qed.

Lemma pull_varattnos_In (node : Expr) (varno_ : Z) (acc : Bitmapset) (m : Z) :
  In m (pull_varattnos node varno_ acc) <->
  In m acc \/
  exists var, In var (vars_of node) /\ reads_column varno_ var = true /\
              m = varattno var - FirstLowInvalidHeapAttributeNumber.
Proof.
  revert acc.
  induction node as [|var|tag args IH] using Expr_induction; intros acc;
    cbn [pull_varattnos vars_of].
  - split; [auto | intros [H|(v & [] & _)]; exact H].
  - unfold reads_column.
    destruct ((varno var =? varno_) && (varlevelsup var =? 0)) eqn:Hc.
    + rewrite bms_add_member_In. split.
      * intros [->|H]; [right; exists var; cbn; auto | auto].
      * intros [H|(v & [<-|[]] & _ & ->)]; auto.
    + split; [auto|]. intros [H|(v & [<-|[]] & Hr & _)]; [auto | congruence].
  - revert acc. induction IH as [|a args Ha Hargs IHargs]; intros acc;
      cbn [fold_left flat_map].
    + split; [auto | intros [H|(v & [] & _)]; exact H].
    + rewrite IHargs, Ha. split.
      * intros [[H|(v & Hin & Hr & Hm)]|(v & Hin & Hr & Hm)]; [auto| |];
          right; exists v; (split; [apply in_or_app; auto | auto]).
      * intros [H|(v & Hin & Hr & Hm)]; [auto|].
        apply in_app_or in Hin. destruct Hin; [left; right | right]; eauto.
Qed.

Lemma insert_unique_expression_In (e : Expr) (l : list TargetEntry) (t : TargetEntry) :
  In t (snd (insert_unique_expression e l)) -> In t l \/ expr t = e.
Proof.
  unfold insert_unique_expression.
  destruct (find_equal_expression e l); cbn [snd]; [auto|].
  unfold lappend. intros H. apply in_app_or in H.
  destruct H as [H|[<-|[]]]; [auto | right; reflexivity].
Qed.

(** The while loop over varattnos when each member, less
    FirstLowInvalidHeapAttributeNumber, is a positive number. *)
Lemma add_varnodes_outcome (tupdesc : TupleDesc) (varno_ : Z) (ms : Bitmapset)
                           (s : list TargetEntry) :
  tupdesc_in_order tupdesc ->
  (forall m, In m ms -> 0 < m - FirstLowInvalidHeapAttributeNumber) ->
  if existsb (fun m => natts tupdesc <? m - FirstLowInvalidHeapAttributeNumber) ms
  then add_varnodes tupdesc varno_ ms s = AttrsOutOfBounds
  else exists s',
      add_varnodes tupdesc varno_ ms s = Built s' /\
      forall t, In t s' ->
                In t s \/
                exists sv m, expr t = E_Var sv /\ In m ms /\
                             varattno sv = m - FirstLowInvalidHeapAttributeNumber.
Proof.
  intros Hord. revert s. induction ms as [|m ms IH]; intros s Hpos.
  - cbn. exists s. split; [reflexivity | auto].
  - cbn [existsb add_varnodes].
    assert (Hm : 0 < m - FirstLowInvalidHeapAttributeNumber) by (apply Hpos; now left).
    unfold InvalidAttrNumber.
    destruct (Z.eqb_spec (m - FirstLowInvalidHeapAttributeNumber) 0) as [H0|_]; [lia|].
    destruct (Z.gtb_spec (m - FirstLowInvalidHeapAttributeNumber) 0) as [_|H0]; [|lia].
    destruct (Z.ltb_spec (natts tupdesc) (m - FirstLowInvalidHeapAttributeNumber))
      as [Hout|Hin]; cbn [orb].
    + rewrite array_ref_None by (unfold natts in Hout; lia). reflexivity.
    + destruct (array_ref_Some tupdesc (m - FirstLowInvalidHeapAttributeNumber - 1))
        as (attr & Hattr); [unfold natts in Hin; lia|].
      rewrite Hattr.
      assert (Hnum : attnum attr = m - FirstLowInvalidHeapAttributeNumber).
      { unfold array_ref in Hattr.
        destruct (m - FirstLowInvalidHeapAttributeNumber - 1 <? 0); [discriminate|].
        rewrite (Hord _ _ Hattr). lia. }
      pose proof (insert_unique_expression_In
                    (E_Var (makeVar varno_ (attnum attr) (atttypid attr)
                                    (atttypmod attr) (attcollation attr) 0)) s) as Hins.
      destruct (insert_unique_expression _ s) as [r s1]. cbn [snd] in Hins.
      specialize (IH s1 (fun x Hx => Hpos x (or_intror Hx))).
      destruct (existsb _ ms); [exact IH|].
      destruct IH as (s' & Hrun & Hs'). exists s'. split; [exact Hrun|].
      intros t Ht. destruct (Hs' t Ht) as [H1|(sv & x & He & Hx & Hv)].
      * destruct (Hins t H1) as [H2|H2]; [now left|].
        right. eexists. exists m. split; [exact H2|]. split; [now left|].
        cbn. exact Hnum.
      * right. exists sv, x. split; [exact He|]. split; [now right | exact Hv].
Qed.

Lemma lowest_var (l : list Var) :
  l <> [] -> exists v, In v l /\ forall w, In w l -> varattno v <= varattno w.
Proof.
  induction l as [|a l IH]; [congruence|]. intros _.
  destruct l as [|b l].
  - exists a. split; [now left|]. intros w [<-|[]]. lia.
  - destruct IH as (v & Hin & Hlow); [discriminate|].
    destruct (Z.leb_spec (varattno a) (varattno v)).
    + exists a. split; [now left|]. intros w [<-|Hw]; [lia|].
      specialize (Hlow w Hw). lia.
    + exists v. split; [now right|]. intros w [<-|Hw]; [lia | auto].
Qed.

Lemma replace_varnode_missing (s : list TargetEntry) (node : Expr) (var : Var) :
  In var (vars_of node) -> var_missing s var ->
  replace_varnode_with_scan_tlist node s
  = Raised "Bug? referenced Var-node not in scan_tlist".
Proof.
  intros Hin Hmiss.
  destruct (replace_varnode_with_scan_tlist node s) as [node'|msg] eqn:Hrun.
  - exfalso. destruct (replace_varnode_Ok s node node' Hrun) as (Hrefs & _).
    clear Hrun. induction Hrefs as [|v v' vs vs' Hr Hrs IH]; [destruct Hin|].
    destruct Hin as [->|Hin]; [|auto].
    destruct Hr as (tle & sv & Ht & He & Ha & _). exact (Hmiss tle sv Ht He Ha).
  - now destruct (replace_varnode_Raised s node msg Hrun) as (-> & _).
Qed.

(** The foreach loop when the first target entry is an expression that
    is not device executable and reads a column of the relation. *)
Lemma build_target_entry_host_only
    (tupdesc : TupleDesc) (varno_ : Z) (tle : TargetEntry) :
  FirstLowInvalidHeapAttributeNumber < 0 ->
  tupdesc_in_order tupdesc ->
  host_only tle = true ->
  (forall var, In var (vars_of (expr tle)) -> reads_column varno_ var = true ->
               FirstLowInvalidHeapAttributeNumber < varattno var) ->
  (exists var, In var (vars_of (expr tle)) /\ reads_column varno_ var = true) ->
  build_target_entry tupdesc varno_ (mkBuildLocals 1 [] [] false) tle =
  if existsb (fun var => reads_column varno_ var &&
                         (natts tupdesc
                          <? varattno var - 2 * FirstLowInvalidHeapAttributeNumber))
             (vars_of (expr tle))
  then AttrsOutOfBounds
  else BuildElog "Bug? referenced Var-node not in scan_tlist".
Proof.
  intros Hneg Hord Hhost Hvalid (var0 & Hin0 & Hr0).
  unfold host_only in Hhost. unfold build_target_entry.
  destruct (expr tle) as [|var|tag args] eqn:Hexp; try discriminate.
  apply negb_true_iff in Hhost. rewrite Hhost.
  cbn [bl_scan_tlist bl_tlist_new bl_attnum].
  set (e := E_Node tag args) in *.
  set (ms := pull_varattnos e varno_ []).
  assert (Hms : forall m, In m ms <->
                          exists var, In var (vars_of e) /\ reads_column varno_ var = true /\
                                      m = varattno var - FirstLowInvalidHeapAttributeNumber).
  { intros m. unfold ms. rewrite pull_varattnos_In. split; [intros [[]|H]; exact H | auto]. }
  assert (Hpos : forall m, In m ms -> 0 < m - FirstLowInvalidHeapAttributeNumber).
  { intros m Hm. apply Hms in Hm. destruct Hm as (v & Hv & Hr & ->).
    specialize (Hvalid v Hv Hr). lia. }
  pose proof (add_varnodes_outcome tupdesc varno_ ms [] Hord Hpos) as Hadd.
  assert (Hex : existsb (fun m => natts tupdesc <? m - FirstLowInvalidHeapAttributeNumber) ms
                = existsb (fun var => reads_column varno_ var &&
                                      (natts tupdesc
                                       <? varattno var - 2 * FirstLowInvalidHeapAttributeNumber))
                          (vars_of e)).
  { apply eq_true_iff_eq. rewrite !existsb_exists. split.
    - intros (m & Hm & Hlt). apply Hms in Hm. destruct Hm as (v & Hv & Hr & ->).
      exists v. split; [exact Hv|]. rewrite Hr. cbn [andb].
      apply Z.ltb_lt in Hlt. apply Z.ltb_lt. lia.
    - intros (v & Hv & Hc). apply andb_true_iff in Hc. destruct Hc as (Hr & Hlt).
      exists (varattno v - FirstLowInvalidHeapAttributeNumber).
      split; [apply Hms; eauto|]. apply Z.ltb_lt in Hlt. apply Z.ltb_lt. lia. }
  rewrite <- Hex.
  destruct (existsb _ ms); [now rewrite Hadd|].
  destruct Hadd as (s' & Hrun & Hs'). rewrite Hrun.
  (* the lowest column the expression reads is not in scan_tlist *)
  destruct (lowest_var (filter (reads_column varno_) (vars_of e)))
    as (v & Hv & Hlow).
  { intros Hnil. assert (H : In var0 (filter (reads_column varno_) (vars_of e)))
      by (apply filter_In; auto).
    rewrite Hnil in H. destruct H. }
  apply filter_In in Hv. destruct Hv as (Hv & Hr).
  rewrite (replace_varnode_missing s' e v Hv); [reflexivity|].
  intros t sv Ht He Ha. destruct (Hs' t Ht) as [[]|(sv' & m & He' & Hm & Hsv)].
  apply Hms in Hm. destruct Hm as (w & Hw & Hrw & ->).
  assert (Hle : varattno v <= varattno w) by (apply Hlow, filter_In; auto).
  assert (sv' = sv) by congruence. subst sv'. lia.
Qed.

End ProjectionFacts4.

(** X18.  build_device_projection never returns, true or false, on a
    target list whose first entry is an expression that is not device
    executable and reads a column of the scanned relation.  For each
    column a the expression reads it looks up attribute
    a - 2 * FirstLowInvalidHeapAttributeNumber, not a, so with a tuple
    descriptor in order and attribute numbers above
    FirstLowInvalidHeapAttributeNumber, which is negative: when one of
    these numbers is above natts it reads tupdesc->attrs outside its
    bounds, and otherwise replace_varnode_with_scan_tlist raises
    'Bug? referenced Var-node not in scan_tlist', the lowest column of
    the expression not being in scan_tlist. *)
Theorem build_device_projection_host_only
    {TB : Projection.TreeBackend} (tupdesc : Projection.TupleDesc)
    (tle : Projection.TargetEntry) (rest : list Projection.TargetEntry) (varno_ : Z) :
  Projection.FirstLowInvalidHeapAttributeNumber < 0 ->
  Projection.tupdesc_in_order tupdesc ->
  Projection.host_only tle = true ->
  (forall var, In var (Projection.vars_of (Projection.expr tle)) ->
               Projection.reads_column varno_ var = true ->
               Projection.FirstLowInvalidHeapAttributeNumber < Projection.varattno var) ->
  (exists var, In var (Projection.vars_of (Projection.expr tle)) /\
               Projection.reads_column varno_ var = true) ->
  Projection.build_device_projection tupdesc (tle :: rest) varno_ =
  if existsb (fun var =>
                Projection.reads_column varno_ var &&
                (Projection.natts tupdesc
                 <? Projection.varattno var
                    - 2 * Projection.FirstLowInvalidHeapAttributeNumber))
             (Projection.vars_of (Projection.expr tle))
  then Projection.AttrsOutOfBounds
  else Projection.BuildElog "Bug? referenced Var-node not in scan_tlist".
Proof.
  intros Hneg Hord Hhost Hvalid Hreads.
  unfold Projection.build_device_projection. cbn [Projection.build_target_list].
  rewrite (build_target_entry_host_only tupdesc varno_ tle Hneg Hord Hhost Hvalid Hreads).
  destruct (existsb _ _); reflexivity.
Qed.

Lemma build_device_projection_host_only_witness :
  Projection.build_device_projection (TB := Projection.example_tree)
    Projection.example_tupdesc Projection.example_tlist_host 1
  = Projection.AttrsOutOfBounds /\
  Projection.build_device_projection (TB := Projection.example_tree)
    Projection.example_wide_tupdesc Projection.example_tlist_host 1
  = Projection.BuildElog "Bug? referenced Var-node not in scan_tlist".
Proof.
  assert (Hvalid : forall var,
             In var (Projection.vars_of (Projection.E_Node 200 [Projection.example_column_a])) ->
             Projection.reads_column 1 var = true ->
             Projection.FirstLowInvalidHeapAttributeNumber (TreeBackend := Projection.example_tree)
             < Projection.varattno var).
  { intros var [<-|[]] _. reflexivity. }
  assert (Hreads : exists var,
             In var (Projection.vars_of (Projection.E_Node 200 [Projection.example_column_a])) /\
             Projection.reads_column 1 var = true).
  { eexists. split; [now left | reflexivity]. }
  split.
  - refine (build_device_projection_host_only
              (TB := Projection.example_tree) Projection.example_tupdesc
              Projection.example_host_entry [] 1 eq_refl _ eq_refl Hvalid Hreads).
    intros [|[|[|i]]] attr; cbn; intros H; try discriminate;
      injection H as <-; reflexivity.
  - refine (build_device_projection_host_only
              (TB := Projection.example_tree) Projection.example_wide_tupdesc
              Projection.example_host_entry [] 1 eq_refl _ eq_refl Hvalid Hreads).
    intros i attr Hi.
    do 17 (destruct i as [|i]; [cbn in Hi; injection Hi as <-; reflexivity|]).
    destruct i; discriminate.
Defined.

Section ProjectionFacts5.
Import Projection.

(** The loop over the attributes adds up the attlen of the fixed-length
    ones as long as the sum stays an int. *)
Lemma fixed_width_loop (attrs : list Form_pg_attribute) (width : Z) :
  Forall (fun attr => attlen attr < 2 ^ 15) attrs ->
  0 <= width -> width + 2 ^ 15 * list_length attrs < 2 ^ 31 ->
  fold_left (fun width attr =>
               if attlen attr <? 0 then width
               else to_int32 (width + attlen attr)) attrs width
  = width + fold_right Z.add 0
                       (map attlen (filter (fun attr => 0 <=? attlen attr) attrs)).
Proof.
  intros Hall. revert width.
  induction Hall as [|attr attrs Hattr Hall IH]; intros width H0 Hsum; cbn.
  - lia.
  - assert (Hlen : list_length (attr :: attrs) = list_length attrs + 1)
      by (unfold list_length; cbn [List.length]; lia).
    rewrite Hlen in Hsum.
    assert (Hl0 : 0 <= list_length attrs) by (unfold list_length; lia).
    destruct (Z.ltb_spec (attlen attr) 0) as [Hneg|Hpos].
    + destruct (Z.leb_spec 0 (attlen attr)); [lia|].
      apply IH; lia.
    + destruct (Z.leb_spec 0 (attlen attr)); [|lia].
      rewrite to_int32_id by (unfold is_int32; lia). cbn. rewrite IH by lia. lia.
Qed.

End ProjectionFacts5.

(** X19.  base_fixed_width leaves out the last attribute of the
    relation: the loop runs while attnum < natts, so for a relation of
    fewer than 32768 attributes, each with an int16 attlen, the width is
    the sum of the attlen of the fixed-length attributes before the
    last, whatever the last one is; for a relation of one attribute it
    is 0. *)
Theorem base_fixed_width_skips_last
    (attrs : Projection.TupleDesc) (last : Projection.Form_pg_attribute) :
  Forall (fun attr => Projection.attlen attr < 2 ^ 15) attrs ->
  Projection.natts attrs < 2 ^ 15 ->
  Projection.base_fixed_width_of (attrs ++ [last]) =
  fold_right Z.add 0
             (map Projection.attlen
                  (filter (fun attr => 0 <=? Projection.attlen attr) attrs)) /\
  Projection.base_fixed_width_of [last] = 0.
Proof.
  intros Hall Hn. split; [|reflexivity].
  unfold Projection.base_fixed_width_of.
  replace (List.length (attrs ++ [last]) - 1)%nat with (List.length attrs + 0)%nat
    by (rewrite length_app; cbn; lia).
  rewrite firstn_app_2. cbn [firstn]. rewrite app_nil_r.
  rewrite fixed_width_loop; [lia | assumption | lia |].
  unfold Projection.natts in Hn.
  assert (H0 : 0 <= Projection.list_length attrs)
    by (unfold Projection.list_length; lia).
  nia.
Qed.

Lemma base_fixed_width_skips_last_witness :
  Projection.base_fixed_width_of Projection.example_fixed_tupdesc = 12.
Proof.
  refine (proj1 (base_fixed_width_skips_last
                   [Projection.mkAttribute 1 23 (-1) 0 4 true;
                    Projection.mkAttribute 2 25 (-1) 100 (-1) false;
                    Projection.mkAttribute 3 20 (-1) 0 8 true]
                   (Projection.mkAttribute 4 20 (-1) 0 8 true) _ eq_refl)).
  repeat constructor.
Defined.

Section ProjectionFacts6.
Import Projection.
Context {TB : TreeBackend}.

(** The foreach loop over a target list in two parts. *)
Lemma build_target_list_app (tupdesc : TupleDesc) (varno_ : Z)
                            (pre rest : list TargetEntry) (lv : build_locals) :
  build_target_list tupdesc varno_ (pre ++ rest) lv =
  match build_target_list tupdesc varno_ pre lv with
  | Built lv' => build_target_list tupdesc varno_ rest lv'
  | other => other
  end.
Proof.
  revert lv. induction pre as [|tle pre IH]; intros lv; cbn [app build_target_list].
  - reflexivity.
  - destruct (build_target_entry tupdesc varno_ lv tle); try reflexivity.
    apply IH.
Qed.

End ProjectionFacts6.

(** X20.  A whole-row reference in the target list makes
    build_device_projection return false, whatever comes after it, when
    the entries before it are Vars that are no whole-row reference or
    device executable expressions: the plan keeps its target list even
    where those entries alone would have asked for a device
    projection. *)
Theorem build_device_projection_whole_row
    {TB : Projection.TreeBackend} (tupdesc : Projection.TupleDesc)
    (pre : list Projection.TargetEntry) (tle : Projection.TargetEntry)
    (rest : list Projection.TargetEntry) (varno_ : Z) :
  Projection.list_length pre < 32767 ->
  forallb Projection.device_evaluable pre = true ->
  Projection.whole_row tle = true ->
  Projection.build_device_projection tupdesc (pre ++ tle :: rest) varno_
  = Projection.ReturnFalse.
Proof.
  intros Hlen Hev Hwhole.
  assert (H0 : 0 <= Projection.list_length pre)
    by (unfold Projection.list_length; lia).
  unfold Projection.build_device_projection.
  rewrite build_target_list_app.
  destruct (build_target_list_evaluable tupdesc varno_ pre
              (Projection.mkBuildLocals 1 [] [] false) Hev)
    as (lv' & Hrun & _);
    cbn [Projection.bl_attnum Projection.bl_tlist_new Projection.bl_scan_tlist map];
    try (intros [|i] t; cbn; discriminate);
    try constructor; try (unfold Projection.list_length in *; cbn [List.length]; lia).
  rewrite Hrun. cbn [Projection.build_target_list].
  unfold Projection.build_target_entry, Projection.whole_row in *.
  destruct (Projection.expr tle) as [|var|tag args]; try discriminate.
  now rewrite Hwhole.
Qed.

Lemma build_device_projection_whole_row_witness :
  Projection.build_device_projection (TB := Projection.example_tree)
    Projection.example_tupdesc
    (Projection.example_tlist_device
     ++ Projection.example_whole_row_entry :: Projection.example_tlist_host) 1
  = Projection.ReturnFalse.
Proof.
  exact (build_device_projection_whole_row
           (TB := Projection.example_tree) Projection.example_tupdesc
           Projection.example_tlist_device Projection.example_whole_row_entry
           Projection.example_tlist_host 1 eq_refl eq_refl eq_refl).
Defined.

(* --------------------------------------------------------------------- *)
(** ** From the plan to the first task *)
(* --------------------------------------------------------------------- *)

Section BeginFacts.
Context {DS : DataStore} {KL : KernLayout}.

(** The outer loop of gpuscan_next_chunk changes nothing of the scan
    state but curr_blknum, and the task it makes is made from the state
    it leaves. *)
Lemma next_chunk_loop_task (fuel : nat) (gss : GpuScanState) (lv : next_chunk_locals) :
  next_chunk_loop fuel gss = Some lv ->
  lv_gss lv = set_curr_blknum gss (curr_blknum (lv_gss lv)) /\
  forall task, lv_gpuscan lv = Some task ->
               exists pds, task = create_pgstrom_gpuscan_task (lv_gss lv) pds.
Proof.
  revert gss. induction fuel as [|fuel IH]; intros gss; cbn [next_chunk_loop];
    [discriminate|].
  destruct (fill_data_store _ (curr_blknum gss) (last_blknum gss)) as [pds curr].
  destruct (0 <? kds_nitems (kds pds))%N.
  - intros [= <-]. cbn. split; [reflexivity|]. intros task [= <-]. eauto.
  - destruct (last_blknum (set_curr_blknum gss curr)
              <=? curr_blknum (set_curr_blknum gss curr))%N.
    + intros [= <-]. cbn. split; [reflexivity | discriminate].
    + intros H. destruct (IH _ H) as (Hg & Ht). split; [|exact Ht].
      rewrite Hg. destruct gss; reflexivity.
Qed.

End BeginFacts.

(** X21.  The widths build_device_projection computes never reach the
    executor: gpuscan_create_scan_state zeroes the widths of the
    GpuScanState and gpuscan_begin does not assign them, so whatever
    widths the GpuScanInfo of the plan carries, the first task
    gpuscan_next_chunk makes after them gets, in row format with a
    device projection, a destination store of the length of the source
    store, and in slot format one with no extra buffer; in row format
    without a device projection it gets none. *)
Theorem gpuscan_begin_leaves_widths
    {DS : DataStore} {KL : KernLayout} {EB : ExecutorBackend}
    (cscan : CustomScan) (css : CustomScanState) (gss0 : GpuScanState)
    (eflags : Z) (st : begun_scan) (fuel : nat)
    (task_ : pgstrom_gpuscan) (gss' : GpuScanState) :
  gpuscan_create_scan_state cscan = Ok (css, gss0) ->
  gpuscan_begin gss0 cscan eflags = Some st ->
  gpuscan_next_chunk fuel (bs_gss st) = Some (Some task_, gss') ->
  (base_fixed_width gss' = 0 /\ proj_fixed_width gss' = 0 /\
   proj_extra_width gss' = 0) /\
  pds_dst task_ =
    if be_row_format (gts (bs_gss st)) then
      match cs_custom_scan_tlist cscan with
      | [] => None
      | _ :: _ => Some (pgstrom_create_data_store_row (kds_length (kds (pds_src task_))))
      end
    else Some (pgstrom_create_data_store_slot (kds_nitems (kds (pds_src task_))) 0).
Proof.
  intros Hcreate Hbegin Hnext.
  assert (Hzero : gss0 = GpuScanState_zero).
  { unfold gpuscan_create_scan_state in Hcreate.
    destruct (cs_methods cscan); congruence. }
  subst gss0. unfold gpuscan_begin in Hbegin.
  destruct (deform_gpuscan_info cscan) as [gs_info|]; [|discriminate].
  injection Hbegin as <-. cbn [bs_gss] in *.
  unfold gpuscan_next_chunk, gpuscan_next_chunk_locals in Hnext.
  match type of Hnext with
  | context [next_chunk_loop fuel ?g] => set (gss := g) in *
  end.
  destruct (last_blknum gss <? curr_blknum gss)%N; [discriminate|].
  destruct (next_chunk_loop fuel gss) as [lv|] eqn:Hloop; [|discriminate].
  injection Hnext as Htask <-.
  destruct (next_chunk_loop_task fuel gss lv Hloop) as (Hg & Ht).
  destruct (Ht task_ Htask) as (pds & ->).
  rewrite Hg. cbn.
  split; [repeat split|].
  destruct (be_row_format _); [|reflexivity].
  destruct (cs_custom_scan_tlist cscan); cbn; [reflexivity|].
  now rewrite ?Z.add_0_r.
Qed.

Lemma gpuscan_begin_leaves_widths_witness :
  match gpuscan_begin (EB := example_executor) GpuScanState_zero
                      example_projection_plan 0 with
  | Some st =>
      match gpuscan_next_chunk (DS := example_datastore) (KL := example_layout)
                               3 (bs_gss st) with
      | Some (Some task_, gss') =>
          proj_fixed_width gss' = 0 /\
          pds_dst task_ = Some (mkPds (mkKds 2 0 0))
      | _ => False
      end
  | None => False
  end.
Proof.
  destruct (gpuscan_begin (EB := example_executor) GpuScanState_zero
                          example_projection_plan 0) as [st|] eqn:Hbegin;
    [|vm_compute in Hbegin; discriminate].
  destruct (gpuscan_next_chunk (DS := example_datastore) (KL := example_layout)
                               3 (bs_gss st)) as [[[task_|] gss']|] eqn:Hnext;
    try (vm_compute in Hbegin; injection Hbegin as <-;
         vm_compute in Hnext; discriminate).
  pose proof (gpuscan_begin_leaves_widths
                (DS := example_datastore) (KL := example_layout)
                (EB := example_executor)
                example_projection_plan _ GpuScanState_zero 0 st 3 task_ gss'
                eq_refl Hbegin Hnext) as ((_ & Hw & _) & Hdst).
  split; [exact Hw|]. rewrite Hdst.
  vm_compute in Hbegin. injection Hbegin as <-.
  vm_compute in Hnext. injection Hnext as <- <-. reflexivity.
Defined.
